(** * The Instagram proxy: acquisition engine, response cache and rate limiter

    A shallow embedding of the route handler [GET] with its helpers
    ([getCachedData], [extractInstagramData], [findUserData],
    [processUserData]) and of the rate-limiting [middleware], followed by
    the properties the specification states about them.

    Conventions of the embedding.
    - JavaScript values are the type [value]; the numbers that occur
      (counts, epoch seconds, milliseconds) are integers and are kept in
      [Z].
    - A JavaScript exception is the constructor [Throw] of [result]; the
      message texts of engine errors follow V8.
    - Library calls whose code is not part of the repository ([JSON.parse],
      [String.prototype.match] on the five patterns, the cheerio selectors,
      [axios.get], [Date.now]) are fields of the records [Runtime] and
      [World]; the functions are parametric in them. *)

From Stdlib Require Import ZArith Lia Ascii.
From stdpp Require Import gmap strings list fin_maps pretty.

Local Open Scope Z_scope.

(** ** JavaScript values *)

Local Unset Elimination Schemes.

Inductive value : Type :=
| VUndef
| VNull
| VBool (b : bool)
| VNum (n : Z)
| VStr (s : string)
| VArr (elems : list value)
| VObj (props : list (string * value)).

Local Set Elimination Schemes.

(** The empty string, the value [''] of the source. *)
Definition empty : string := EmptyString.

Definition str_nonempty (s : string) : bool :=
  match s with
  | EmptyString => false
  | String _ _ => true
  end.

(** [ToBoolean]: what [if (v)], [!v], [v || w] and [Boolean(v)] test. *)
Definition truthy (v : value) : bool :=
  match v with
  | VUndef | VNull => false
  | VBool b => b
  | VNum n => negb (n =? 0)
  | VStr s => str_nonempty s
  | VArr _ | VObj _ => true
  end.

(** [a || b] on values (both operands already evaluated). *)
Definition js_or (a b : value) : value := if truthy a then a else b.

Infix "|||" := js_or (at level 50, left associativity).

(** [typeof v === 'object' && v !== null] *)
Definition is_object (v : value) : bool :=
  match v with
  | VArr _ | VObj _ => true
  | _ => false
  end.

(** Own properties of an object literal, in enumeration order. *)
Fixpoint own (props : list (string * value)) (k : string) : value :=
  match props with
  | [] => VUndef
  | (k', v) :: rest => if String.eqb k' k then v else own rest k
  end.

Fixpoint has_own (props : list (string * value)) (k : string) : bool :=
  match props with
  | [] => false
  | (k', _) :: rest => if String.eqb k' k then true else has_own rest k
  end.

(** [v.k] for a [v] that is neither [null] nor [undefined].  None of the
    property names this program reads is defined on the prototypes of
    arrays, strings, numbers or booleans, so only objects answer. *)
Definition prop (v : value) (k : string) : value :=
  match v with
  | VObj props => own props k
  | _ => VUndef
  end.

(** ['k' in v] for an object [v]. *)
Definition has_prop (v : value) (k : string) : bool :=
  match v with
  | VObj props => has_own props k
  | _ => false
  end.

(** ** Exceptions *)

Inductive result (A : Type) : Type :=
| Ok (a : A)
| Throw (message : string).

Arguments Ok {A} a.
Arguments Throw {A} message.

#[global] Instance result_ret : MRet result := fun A a => Ok a.
#[global] Instance result_bind : MBind result := fun A B f m =>
  match m with
  | Ok a => f a
  | Throw e => Throw e
  end.

Definition is_ok {A} (r : result A) : bool :=
  match r with
  | Ok _ => true
  | Throw _ => false
  end.

Definition type_error_read (what k : string) : string :=
  "Cannot read properties of " +:+ what +:+ " (reading '" +:+ k +:+ "')".

(** [v.k], which throws a [TypeError] on [null] and [undefined]. *)
Definition get (v : value) (k : string) : result value :=
  match v with
  | VUndef => Throw (type_error_read "undefined" k)
  | VNull => Throw (type_error_read "null" k)
  | _ => Ok (prop v k)
  end.

(** [v?.k] *)
Definition opt_get (v : value) (k : string) : value :=
  match v with
  | VUndef | VNull => VUndef
  | _ => prop v k
  end.

(** [v[0]] for a [v] that is neither [null] nor [undefined]. *)
Definition at0 (v : value) : value :=
  match v with
  | VArr (x :: _) => x
  | VStr (String c _) => VStr (String c EmptyString)
  | VObj props => own props "0"
  | _ => VUndef
  end.

(** [v[0]] *)
Definition index0 (v : value) : result value :=
  match v with
  | VUndef => Throw (type_error_read "undefined" "0")
  | VNull => Throw (type_error_read "null" "0")
  | _ => Ok (at0 v)
  end.

(** [v?.[0]] *)
Definition opt_index0 (v : value) : value :=
  match v with
  | VUndef | VNull => VUndef
  | _ => at0 v
  end.

(** The values a [for (const x of v)] loop visits. *)
Definition iterate (v : value) : result (list value) :=
  match v with
  | VArr elems => Ok elems
  | VStr s => Ok ((fun c => VStr (String c EmptyString)) <$> String.list_ascii_of_string s)
  | _ => Throw "userData.edge_owner_to_timeline_media.edges is not iterable"
  end.

(** ** The normalized records *)

Record InstagramPost : Type := {
  id : value;
  shortcode : value;
  thumbnailUrl : value;
  displayUrl : value;
  isVideo : value;
  caption : value;
  timestamp : value;
  likeCount : value;
  commentCount : value;
}.

Record InstagramUserData : Type := {
  username : value;
  fullName : value;
  biography : value;
  profilePicture : value;
  postsCount : value;
  followersCount : value;
  followingCount : value;
  posts : list InstagramPost;
}.

(** ** processUserData *)

(** [node.edge_media_to_caption?.edges[0]?.node?.text]: the optional chain
    stops at a missing [edge_media_to_caption]; [edges[0]] is a plain index
    and throws when [edges] is missing. *)
Definition caption_text (node : value) : result value :=
  match prop node "edge_media_to_caption" with
  | VUndef | VNull => Ok VUndef
  | c =>
      first ← index0 (prop c "edges");
      Ok (opt_get (opt_get first "node") "text")
  end.

(** The body of the loop over the edges: one [posts.push({...})].  [now] is
    the reading of [Date.now()], in milliseconds. *)
Definition post_of_edge (now : Z) (edge : value) : result InstagramPost :=
  node ← get edge "node";
  node_id ← get node "id";
  text ← caption_text node;
  Ok {|
    id := node_id;
    shortcode := prop node "shortcode";
    thumbnailUrl :=
      prop node "thumbnail_src"
      ||| opt_get (opt_index0 (prop node "thumbnail_resources")) "src"
      ||| VStr empty;
    displayUrl := prop node "display_url" ||| VStr empty;
    isVideo := VBool (truthy (prop node "is_video"));
    caption := text ||| VStr empty;
    timestamp := prop node "taken_at_timestamp" ||| VNum (now / 1000);
    likeCount :=
      opt_get (prop node "edge_liked_by") "count"
      ||| opt_get (prop node "edge_media_preview_like") "count"
      ||| VNum 0;
    commentCount := opt_get (prop node "edge_media_to_comment") "count" ||| VNum 0;
  |}.

Fixpoint push_posts (now : Z) (edges : list value) : result (list InstagramPost) :=
  match edges with
  | [] => Ok []
  | edge :: rest =>
      p ← post_of_edge now edge;
      ps ← push_posts now rest;
      Ok (p :: ps)
  end.

Definition processUserData (userData : value) (now : Z) : result InstagramUserData :=
  media ← get userData "edge_owner_to_timeline_media";
  posts ←
    (if truthy (opt_get media "edges")
     then edges ← iterate (opt_get media "edges"); push_posts now edges
     else Ok []);
  Ok {|
    username := prop userData "username" ||| VStr empty;
    fullName := prop userData "full_name" ||| VStr empty;
    biography := prop userData "biography" ||| VStr empty;
    profilePicture :=
      prop userData "profile_pic_url_hd" ||| prop userData "profile_pic_url" ||| VStr empty;
    postsCount := opt_get media "count" ||| VNum 0;
    followersCount := opt_get (prop userData "edge_followed_by") "count" ||| VNum 0;
    followingCount := opt_get (prop userData "edge_follow") "count" ||| VNum 0;
    posts := posts;
  |}.

(** ** findUserData *)

(** [typeof v === 'string'] *)
Definition is_string (v : value) : bool :=
  match v with
  | VStr _ => true
  | _ => false
  end.

(** The test of the second [if] of [findUserData]: a [username] string
    next to a [full_name], [biography] or [profile_pic_url] string. *)
Definition has_user_shape (obj : value) : bool :=
  has_prop obj "username" && is_string (prop obj "username") &&
  ((has_prop obj "full_name" && is_string (prop obj "full_name")) ||
   (has_prop obj "biography" && is_string (prop obj "biography")) ||
   (has_prop obj "profile_pic_url" && is_string (prop obj "profile_pic_url"))).

(** The [for (const key in obj)] loop of [findUserData]: [visit] is the
    recursive call on a child, [child] takes the value [obj[key]] out of an
    entry.  The first child for which the call finds something ends the
    loop. *)
Fixpoint search_children {A} (child : A → value)
    (visit : value → option value * list (Z * value)) (entries : list A)
  : option value * list (Z * value) :=
  match entries with
  | [] => (None, [])
  | entry :: rest =>
      if is_object (child entry) then
        let '(res, seen) := visit (child entry) in
        match res with
        | Some r => (Some r, seen)
        | None =>
            let '(res', seen') := search_children child visit rest in
            (res', seen ++ seen')
        end
      else search_children child visit rest
  end.

(** [findUserData], together with the list of the objects it examines (the
    calls that get past the guard of the first [if]), each with the depth
    of its call, in the order of the search.  The own enumerable keys of an
    array are its indices, those of an object its properties. *)
Fixpoint findUserData_log (obj : value) (depth : Z) {struct obj}
  : option value * list (Z * value) :=
  if negb (truthy obj) || negb (is_object obj) || (5 <? depth) then (None, [])
  else if has_user_shape obj then (Some obj, [(depth, obj)])
  else
    let '(res, seen) :=
      match obj with
      | VArr elems =>
          search_children (λ x, x) (λ x, findUserData_log x (depth + 1)) elems
      | VObj props =>
          search_children (λ kx, kx.2) (λ x, findUserData_log x (depth + 1)) props
      | _ => (None, [])
      end in
    (res, (depth, obj) :: seen).

Definition findUserData (obj : value) (depth : Z) : option value :=
  (findUserData_log obj depth).1.

(** The number of values in a tree. *)
Fixpoint nodes (v : value) : nat :=
  match v with
  | VArr elems => S (foldr (λ x n, (nodes x + n)%nat) 0%nat elems)
  | VObj props => S (foldr (λ kx n, (nodes kx.2 + n)%nat) 0%nat props)
  | _ => 1%nat
  end.

(** The examined objects lie between the depth of the call and 5, and
    there are at most [n] of them. *)
Definition within (depth : Z) (n : nat) (r : option value * list (Z * value)) : Prop :=
  Forall (λ e, depth ≤ e.1 ≤ 5) r.2 ∧ (length r.2 ≤ n)%nat.

(** ** What a run of the handler does, as seen from outside *)

Inductive event : Type :=
| Log (line : string)             (* console.log, console.error *)
| Fetch (url : string)            (* axios.get *)
| PushError (message : string)    (* errors.push *)
| CacheHas (key : string)         (* cache.has *)
| CacheGet (key : string)         (* cache.get *)
| CacheDelete (key : string)      (* cache.delete *)
| CacheSet (key : string).        (* cache.set *)

(** ** Library functions *)

(** The five patterns of [dataRegexes], in the order of the array. *)
Inductive regex : Type :=
| SharedData
| AdditionalDataLoaded
| ServerJS
| InlineUser
| PreloadedState.

Definition dataRegexes : list regex :=
  [SharedData; AdditionalDataLoaded; ServerJS; InlineUser; PreloadedState].

Record Runtime : Type := {
  (** [JSON.parse(text)]; [None] when it throws a [SyntaxError]. *)
  JSON_parse : string → option value;
  (** [html.match(regex)]: [None] for [null], otherwise the capture groups
      [match[1]] and [match[2]], each [None] when [undefined]. *)
  String_match : string → regex → option (option string * option string);
  (** [$('meta[property="p"]').attr('content')] on the loaded document. *)
  meta_content : string → string → option string;
  (** [$(script).html()] of every [script[type="application/ld+json"]], in
      document order. *)
  ld_json_scripts : string → list (option string);
}.

(** [s.split(sep)[0]] for a non-empty separator. *)
Fixpoint before_first (sep s : string) : string :=
  if String.prefix sep s then EmptyString
  else
    match s with
    | EmptyString => EmptyString
    | String c rest => String c (before_first sep rest)
    end.

(** [s.split(sep)] for a separator of one character. *)
Fixpoint split_char (sep : ascii) (s : string) : list string :=
  match s with
  | EmptyString => [EmptyString]
  | String c rest =>
      if Ascii.eqb c sep then EmptyString :: split_char sep rest
      else
        match split_char sep rest with
        | seg :: segs => String c seg :: segs
        | [] => [String c EmptyString]
        end
  end.

(** [' \t\n\v\f\r']: the white space of [trim] among the characters of
    one byte. *)
Definition is_space (c : ascii) : bool :=
  let n := nat_of_ascii c in
  (n =? 32)%nat || ((9 <=? n)%nat && (n <=? 13)%nat).

Fixpoint trim_start (s : string) : string :=
  match s with
  | String c rest => if is_space c then trim_start rest else s
  | EmptyString => EmptyString
  end.

Fixpoint trim_end (s : string) : string :=
  match s with
  | String c rest =>
      match trim_end rest with
      | EmptyString => if is_space c then EmptyString else String c EmptyString
      | rest' => String c rest'
      end
  | EmptyString => EmptyString
  end.

(** [s.trim()] *)
Definition trim (s : string) : string := trim_end (trim_start s).

(** An optional string as a value: [undefined] when absent. *)
Definition of_opt (o : option string) : value :=
  match o with
  | Some s => VStr s
  | None => VUndef
  end.

(** ** extractInstagramData *)

Section Extract.
Context (rt : Runtime).

(** The chain of [if]/[else if] on the parsed JSON of one pattern.
    [Some v]: [capturedData = v; break]; [None]: the loop goes on. *)
Definition probe (jsonData : value) : option value :=
  if is_object jsonData then
    let data := jsonData in
    if truthy (prop data "entry_data") && is_object (prop data "entry_data")
       && has_prop (prop data "entry_data") "ProfilePage" then
      let profilePage := prop (prop data "entry_data") "ProfilePage" in
      match profilePage with
      | VArr _ =>
          if truthy (at0 profilePage) && is_object (at0 profilePage) then
            let page := at0 profilePage in
            if truthy (prop page "graphql") && is_object (prop page "graphql") then
              let graphql := prop page "graphql" in
              if truthy (prop graphql "user") && is_object (prop graphql "user")
              then Some (prop graphql "user")
              else None
            else None
          else None
      | _ => None
      end
    else if truthy (prop data "user") && is_object (prop data "user") then
      Some (prop data "user")
    else if truthy (prop data "data") && is_object (prop data "data")
            && has_prop (prop data "data") "user" then
      Some (prop (prop data "data") "user")
    else if truthy (prop data "graphql") && is_object (prop data "graphql")
            && has_prop (prop data "graphql") "user" then
      Some (prop (prop data "graphql") "user")
    else if truthy (prop data "items")
            && match prop data "items" with VArr _ => true | _ => false end then
      match findUserData data 0 with
      | Some userData => Some userData
      | None => None
      end
    else None
  else None.

(** The loop over the patterns.  The result is the final [capturedData]
    ([null] when no pattern captured anything) and the console output. *)
Fixpoint tier1 (html : string) (isDebug : bool) (regexes : list regex)
  : value * list event :=
  match regexes with
  | [] => (VNull, [])
  | regex :: rest =>
      match String_match rt html regex with
      | Some (m1, m2) =>
          if truthy (of_opt m1 ||| of_opt m2) then
            let jsonStr := of_opt m2 ||| of_opt m1 in
            match jsonStr with
            | VStr text =>
                match JSON_parse rt text with
                | Some jsonData =>
                    let found :=
                      if isDebug then [Log "Found potential data with regex:"] else [] in
                    match probe jsonData with
                    | Some captured => (captured, found)
                    | None =>
                        let '(captured, out) := tier1 html isDebug rest in
                        (captured, found ++ out)
                    end
                | None =>
                    (* catch (parseError): continue with the other patterns *)
                    let failed :=
                      if isDebug then [Log "Error parsing JSON from regex match:"] else [] in
                    let '(captured, out) := tier1 html isDebug rest in
                    (captured, failed ++ out)
                end
            | _ => tier1 html isDebug rest
            end
          else tier1 html isDebug rest
      | None => tier1 html isDebug rest
      end
  end.

(** The loop over the JSON-LD scripts: the first one whose
    [mainEntityOfPage?.["@type"]] is ["ProfilePage"]; [null] otherwise.
    Both a [SyntaxError] and the [TypeError] of reading a property of
    [null] are caught inside the loop. *)
Fixpoint find_ld_json (scripts : list (option string)) : value :=
  match scripts with
  | [] => VNull
  | script :: rest =>
      let text := match of_opt script ||| VStr "{}" with VStr t => t | _ => "{}" end in
      match JSON_parse rt text with
      | Some json =>
          match get json "mainEntityOfPage" with
          | Ok entity =>
              match opt_get entity "@type" with
              | VStr "ProfilePage" => json
              | _ => find_ld_json rest
              end
          | Throw _ => find_ld_json rest
          end
      | None => find_ld_json rest
      end
  end.

(** [stats?.find(stat => stat.name === name)] *)
Fixpoint find_stat_in (name : string) (stats : list value) : result value :=
  match stats with
  | [] => Ok VUndef
  | stat :: rest =>
      stat_name ← get stat "name";
      match stat_name with
      | VStr n => if String.eqb n name then Ok stat else find_stat_in name rest
      | _ => find_stat_in name rest
      end
  end.

Definition find_stat (stats : value) (name : string) : result value :=
  match stats with
  | VUndef | VNull => Ok VUndef
  | VArr l => find_stat_in name l
  | _ => Throw "ldJsonData.interactionStatistic.find is not a function"
  end.

(** The part of [extractInstagramData] after the pattern loop found
    nothing: the cheerio fallback. *)
Definition tier2 (html : string) : result InstagramUserData :=
  let og_title := (λ t, before_first " • " t) <$> meta_content rt html "og:title" in
  let og_url :=
    meta_content rt html "og:url" ≫= λ u, last (List.filter str_nonempty (split_char "/"%char u)) in
  let username := of_opt og_title ||| of_opt og_url ||| VStr empty in
  let profilePicture := of_opt (meta_content rt html "og:image") ||| VStr empty in
  let ldJsonData := find_ld_json (ld_json_scripts rt html) in
  if truthy ldJsonData then
    followersStats ← find_stat (prop ldJsonData "interactionStatistic") "Followers";
    postsStats ← find_stat (prop ldJsonData "interactionStatistic") "Posts";
    followingStats ← find_stat (prop ldJsonData "interactionStatistic") "Following";
    Ok {|
      username := prop ldJsonData "name" ||| username ||| VStr empty;
      fullName := prop ldJsonData "name" ||| VStr empty;
      biography := prop ldJsonData "description" ||| VStr empty;
      profilePicture := prop ldJsonData "image" ||| profilePicture ||| VStr empty;
      postsCount := opt_get postsStats "userInteractionCount" ||| VNum 0;
      followersCount := opt_get followersStats "userInteractionCount" ||| VNum 0;
      followingCount := opt_get followingStats "userInteractionCount" ||| VNum 0;
      posts := [];
    |}
  else
    Ok {|
      username := username ||| VStr empty;
      fullName := VStr empty;
      biography := VStr empty;
      profilePicture := profilePicture ||| VStr empty;
      postsCount := VNum 0;
      followersCount := VNum 0;
      followingCount := VNum 0;
      posts := [];
    |}.

(** [extractInstagramData(html, isDebug)] with its console output.  [html]
    is [response.data], which need not be a string; [now] is the reading
    of [Date.now()] while the function runs. *)
Definition extractInstagramData (html : value) (isDebug : bool) (now : Z)
  : result InstagramUserData * list event :=
  match html with
  | VStr doc =>
      let '(capturedData, out) := tier1 doc isDebug dataRegexes in
      if truthy capturedData
      then (processUserData capturedData now, out)
      else (tier2 doc, out)
  | VUndef => (Throw (type_error_read "undefined" "match"), [])
  | VNull => (Throw (type_error_read "null" "match"), [])
  | _ => (Throw "html.match is not a function", [])
  end.

End Extract.

(** ** The response cache *)

(** [CacheData]; the field [timestamp] of the source is [cached_at] here,
    [timestamp] being the field of [InstagramPost]. *)
Record CacheData : Type := {
  data : InstagramUserData;
  cached_at : Z;
}.

(** [10 * 60 * 1000], in milliseconds. *)
Definition CACHE_DURATION : Z := 10 * 60 * 1000.

(** [getCachedData(key)] on the module-level [cache], with [now] the
    reading of [Date.now()]: the returned data ([None] for [null]), the
    cache afterwards, and the operations performed on the map. *)
Definition getCachedData (now : Z) (key : string) (cache : gmap string CacheData)
  : option InstagramUserData * gmap string CacheData * list event :=
  match cache !! key with
  | Some entry =>
      if now - cached_at entry <? CACHE_DURATION
      then (Some (data entry), cache, [CacheHas key; CacheGet key])
      else (None, delete key cache, [CacheHas key; CacheGet key; CacheDelete key])
  | None => (None, cache, [CacheHas key])
  end.

(** ** The world outside the handler *)

(** How a call of [axios.get] ends: the promise resolves with a response
    whose body is [data], or rejects (network failure, status outside 2xx)
    with an error whose [message] is given. *)
Inductive outcome : Type :=
| Resolved (data : value)
| Rejected (message : string).

(** The moments at which the handler reads the clock. *)
Inductive phase : Type :=
| AtLookup          (* in getCachedData *)
| AfterGraphQL      (* after the first request resolved *)
| AfterAlternative  (* after the second request resolved *)
| AfterScraping.    (* after the third request resolved *)

Record World : Type := {
  axios_get : string → outcome;
  Date_now : phase → Z;
}.

(** The query parameters of the request; [None] is the [null] of
    [searchParams.get]. *)
Record Request : Type := {
  username_param : option string;
  debug_param : option string;
}.

Inductive Body : Type :=
| ErrorOnly (error : string)
| ErrorMessage (error : string) (message : string)
| Profile (profile : InstagramUserData)
| Failure (error : string) (requested : string) (errors : list string) (message : string).

Record Response : Type := {
  status : Z;
  body : Body;
}.

Record Run : Type := {
  response : Response;
  cache_after : gmap string CacheData;
  trace : list event;
}.

(** ** The three methods of the handler *)

Definition graphql_url (user : string) : string :=
  "https://www.instagram.com/api/v1/users/web_profile_info/?username=" +:+ user.

Definition alternative_url (user : string) : string :=
  "https://www.instagram.com/" +:+ user +:+ "/?__a=1&__d=dis".

Definition scraping_url (user : string) : string :=
  "https://www.instagram.com/" +:+ user +:+ "/".

(** How one [try] block ends. *)
Inductive attempt : Type :=
| Returned (profile : InstagramUserData)   (* the block returned a response *)
| Caught (message : string)                (* the [catch] clause ran *)
| FellThrough.                             (* the block ended without returning *)

Definition debug_log (isDebugMode : bool) (line : string) : list event :=
  if isDebugMode then [Log line] else [].

(** A [catch] clause: the message is pushed on [errors] and, in debug
    mode, written to the console. *)
Definition catch_clause (label : string) (isDebugMode : bool) (a : attempt)
  : list string * list event :=
  match a with
  | Caught message =>
      let errorMessage := label +:+ message in
      ([errorMessage], PushError errorMessage :: debug_log isDebugMode errorMessage)
  | _ => ([], [])
  end.

Section Handler.
Context (rt : Runtime) (w : World).

(** Method 1: the [try] block around the GraphQL request. *)
Definition method1 (isDebugMode : bool) (user : string) : attempt * list event :=
  let out :=
    debug_log isDebugMode ("Attempting Instagram GraphQL API for " +:+ user)
    ++ [Fetch (graphql_url user)] in
  match axios_get w (graphql_url user) with
  | Rejected message => (Caught message, out)
  | Resolved body_data =>
      let userData := opt_get (opt_get body_data "data") "user" in
      if truthy userData then
        match processUserData userData (Date_now w AfterGraphQL) with
        | Ok processedData => (Returned processedData, out)
        | Throw message => (Caught message, out)
        end
      else (FellThrough, out)
  end.

(** Method 2: the [try] block around the alternative request. *)
Definition method2 (isDebugMode : bool) (user : string) : attempt * list event :=
  let out :=
    debug_log isDebugMode ("Attempting Instagram alternative API for " +:+ user)
    ++ [Fetch (alternative_url user)] in
  match axios_get w (alternative_url user) with
  | Rejected message => (Caught message, out)
  | Resolved responseData =>
      if truthy responseData && truthy (opt_get (prop responseData "graphql") "user") then
        let userData := opt_get (prop responseData "graphql") "user" in
        match processUserData userData (Date_now w AfterAlternative) with
        | Ok processedData => (Returned processedData, out)
        | Throw message => (Caught message, out)
        end
      else (FellThrough, out)
  end.

(** Method 3: the [try] block around the request for the page. *)
Definition method3 (isDebugMode : bool) (user : string) : attempt * list event :=
  let out :=
    debug_log isDebugMode ("Attempting HTML scraping for " +:+ user)
    ++ [Fetch (scraping_url user)] in
  match axios_get w (scraping_url user) with
  | Rejected message => (Caught message, out)
  | Resolved html =>
      let '(extracted, logged) :=
        extractInstagramData rt html isDebugMode (Date_now w AfterScraping) in
      match extracted with
      | Ok jsonData =>
          if truthy (username jsonData)
          then (Returned jsonData, out ++ logged)
          else (Caught "Could not extract user data from HTML", out ++ logged)
      | Throw message => (Caught message, out ++ logged)
      end
  end.

(** [NextResponse.json(processedData)] after [cache.set(cacheKey, ...)]. *)
Definition served (cache : gmap string CacheData) (cacheKey : string)
    (profile : InstagramUserData) (now : Z) (out : list event) : Run :=
  {| response := {| status := 200; body := Profile profile |};
     cache_after := <[cacheKey := {| data := profile; cached_at := now |}]> cache;
     trace := out ++ [CacheSet cacheKey] |}.

(** ** GET *)

Definition GET (request : Request) (cache : gmap string CacheData) : Run :=
  let isDebugMode := bool_decide (debug_param request = Some "true") in
  match username_param request with
  | None | Some EmptyString =>
      {| response := {| status := 400; body := ErrorOnly "Username is required" |};
         cache_after := cache;
         trace := [] |}
  | Some user =>
      let cacheKey := "instagram-" +:+ user in
      let '(cachedData, cache, looked) :=
        getCachedData (Date_now w AtLookup) cacheKey cache in
      match cachedData with
      | Some cached =>
          {| response := {| status := 200; body := Profile cached |};
             cache_after := cache;
             trace := looked ++ [Log ("Serving cached Instagram data for " +:+ user)] |}
      | None =>
          let '(first, out1) := method1 isDebugMode user in
          match first with
          | Returned profile =>
              served cache cacheKey profile (Date_now w AfterGraphQL) (looked ++ out1)
          | _ =>
              let '(errors1, caught1) := catch_clause "GraphQL API error: " isDebugMode first in
              let '(second, out2) := method2 isDebugMode user in
              match second with
              | Returned profile =>
                  served cache cacheKey profile (Date_now w AfterAlternative)
                    (looked ++ out1 ++ caught1 ++ out2)
              | _ =>
                  let '(errors2, caught2) :=
                    catch_clause "Alternative API error: " isDebugMode second in
                  let '(third, out3) := method3 isDebugMode user in
                  match third with
                  | Returned profile =>
                      served cache cacheKey profile (Date_now w AfterScraping)
                        (looked ++ out1 ++ caught1 ++ out2 ++ caught2 ++ out3)
                  | _ =>
                      let '(errors3, caught3) :=
                        catch_clause "HTML scraping error: " isDebugMode third in
                      {| response :=
                           {| status := 500;
                              body := Failure
                                "Failed to fetch Instagram data using any available method"
                                user
                                (errors1 ++ errors2 ++ errors3)
                                "Instagram data extraction failed. The user profile might be private, not exist, or Instagram may have updated their API." |};
                         cache_after := cache;
                         trace := looked ++ out1 ++ caught1 ++ out2 ++ caught2 ++ out3 ++ caught3 |}
                  end
              end
          end
      end
  end.

End Handler.

(** ** The route with a single endpoint (the variant of route.ts that
    trims the parameter) *)

Module SingleEndpoint.

Definition profile_url (user : string) : string :=
  "https://i.instagram.com/api/v1/users/web_profile_info/?username=" +:+ user.

(** [getCached(key)]: the record is deleted whenever it is not served. *)
Definition getCached (now : Z) (key : string) (cache : gmap string CacheData)
  : option InstagramUserData * gmap string CacheData * list event :=
  match cache !! key with
  | Some rec =>
      if now - cached_at rec <? CACHE_DURATION
      then (Some (data rec), cache, [CacheGet key])
      else (None, delete key cache, [CacheGet key; CacheDelete key])
  | None => (None, delete key cache, [CacheGet key; CacheDelete key])
  end.

(** The callback of [.map] over the edges. *)
Definition post_of_edge (edge : value) : result InstagramPost :=
  n ← get edge "node";
  n_id ← get n "id";
  Ok {|
    id := n_id;
    shortcode := prop n "shortcode";
    thumbnailUrl := prop n "thumbnail_src" ||| VStr empty;
    displayUrl := prop n "display_url" ||| VStr empty;
    isVideo := prop n "is_video";
    caption :=
      opt_get (opt_get (opt_index0 (opt_get (prop n "edge_media_to_caption") "edges"))
                 "node") "text" ||| VStr empty;
    timestamp := prop n "taken_at_timestamp";
    likeCount := opt_get (prop n "edge_liked_by") "count" ||| VNum 0;
    commentCount := opt_get (prop n "edge_media_to_comment") "count" ||| VNum 0;
  |}.

Fixpoint map_edges (edges : list value) : result (list InstagramPost) :=
  match edges with
  | [] => Ok []
  | edge :: rest =>
      p ← post_of_edge edge;
      ps ← map_edges rest;
      Ok (p :: ps)
  end.

(** The body of the [try] block after the request resolved with [body]. *)
Definition transform (body_data : value) : result InstagramUserData :=
  inner ← get body_data "data";
  user ← get inner "user";
  name ← get user "username";
  posts ←
    match opt_get (prop user "edge_owner_to_timeline_media") "edges" ||| VArr [] with
    | VArr edges => map_edges edges
    | _ => Throw "(intermediate value).map is not a function"
    end;
  Ok {|
    username := name;
    fullName := prop user "full_name";
    biography := prop user "biography";
    profilePicture := prop user "profile_pic_url_hd" ||| prop user "profile_pic_url";
    postsCount := opt_get (prop user "edge_owner_to_timeline_media") "count" ||| VNum 0;
    followersCount := opt_get (prop user "edge_followed_by") "count" ||| VNum 0;
    followingCount := opt_get (prop user "edge_follow") "count" ||| VNum 0;
    posts := posts;
  |}.

Definition GET (w : World) (request : Request) (cache : gmap string CacheData) : Run :=
  match trim <$> username_param request with
  | None | Some EmptyString =>
      {| response := {| status := 400; body := ErrorOnly "Username is required" |};
         cache_after := cache;
         trace := [] |}
  | Some user =>
      let cacheKey := "ig-" +:+ user in
      let '(cached, cache, looked) := getCached (Date_now w AtLookup) cacheKey cache in
      match cached with
      | Some profile =>
          {| response := {| status := 200; body := Profile profile |};
             cache_after := cache;
             trace := looked |}
      | None =>
          let attempted :=
            match axios_get w (profile_url user) with
            | Resolved body_data => transform body_data
            | Rejected message => Throw message
            end in
          match attempted with
          | Ok profile =>
              {| response := {| status := 200; body := Profile profile |};
                 cache_after :=
                   <[cacheKey := {| data := profile; cached_at := Date_now w AfterGraphQL |}]>
                     cache;
                 trace := looked ++ [Fetch (profile_url user); CacheSet cacheKey] |}
          | Throw message =>
              {| response :=
                   {| status := 500;
                      body := ErrorMessage "Failed to fetch Instagram data" message |};
                 cache_after := cache;
                 trace :=
                   looked ++ [Fetch (profile_url user);
                              Log ("Instagram fetch error: " +:+ message)] |}
          end
      end
  end.

End SingleEndpoint.

(** ** The JSON-LD extractor of the other variant of route.ts *)

Module JsonLdPerson.

(** [s.replace('@', '')]: the first ['@'] is removed. *)
Fixpoint remove_first_at (s : string) : string :=
  match s with
  | EmptyString => EmptyString
  | String c rest => if Ascii.eqb c "@"%char then rest else String c (remove_first_at rest)
  end.

(** The loop of [extractInstagramData] over the JSON-LD scripts; [null]
    is [None].  A [SyntaxError] of [JSON.parse] and a [TypeError] of the
    body are caught inside the loop; the console output of debug mode is
    left out. *)
Fixpoint scan (rt : Runtime) (scripts : list (option string)) : option InstagramUserData :=
  match scripts with
  | [] => None
  | script :: rest =>
      match script with
      | Some (String c text) =>
          match JSON_parse rt (String c text) with
          | Some VNull | Some VUndef | None => scan rt rest
          | Some json =>
              match prop json "@type" with
              | VStr "Person" =>
                  match prop json "alternateName" with
                  | VStr handle =>
                      Some {|
                        username := VStr (remove_first_at handle);
                        fullName := prop json "name";
                        biography := prop json "description";
                        profilePicture := prop json "image";
                        postsCount := VNum 0;
                        followersCount := VNum 0;
                        followingCount := VNum 0;
                        posts := [];
                      |}
                  | _ => scan rt rest
                  end
              | _ => scan rt rest
              end
          end
      | _ => scan rt rest
      end
  end.

Definition extractInstagramData (rt : Runtime) (html : string) : option InstagramUserData :=
  scan rt (ld_json_scripts rt html).

End JsonLdPerson.

(** ** The rate limiter *)

Module RateLimiter.

(** What the limiter keeps in its cache: [number | boolean]. *)
Inductive stored : Type :=
| SNum (n : Z)
| SBool (b : bool).

(** *** The LRU cache

    The package lru-cache is a dependency of the repository.  The model
    below follows its documented behaviour for the options the limiter
    passes ([max] and [ttl]): entries are ordered from the most to the
    least recently used; an entry is stale once more than its [ttl] has
    passed since it was set; [get] returns [undefined] for a stale entry
    and deletes it, and otherwise marks the entry as the most recently
    used; [set] always restarts the time to live, and evicts the least
    recently used entry when a new key arrives at a full cache. *)

Record lru_entry : Type := {
  lru_key : string;
  lru_value : stored;
  lru_start : Z;
  lru_ttl : Z;
}.

Definition is_stale (now : Z) (e : lru_entry) : bool := lru_ttl e <? now - lru_start e.

Fixpoint lru_find (k : string) (c : list lru_entry) : option lru_entry :=
  match c with
  | [] => None
  | e :: rest => if String.eqb (lru_key e) k then Some e else lru_find k rest
  end.

Definition lru_remove (k : string) (c : list lru_entry) : list lru_entry :=
  List.filter (λ e, negb (String.eqb (lru_key e) k)) c.

Definition lru_get (now : Z) (k : string) (c : list lru_entry)
  : option stored * list lru_entry :=
  match lru_find k c with
  | Some e =>
      if is_stale now e then (None, lru_remove k c)
      else (Some (lru_value e), e :: lru_remove k c)
  | None => (None, c)
  end.

Definition lru_set (max : nat) (now : Z) (k : string) (v : stored) (ttl : Z)
    (c : list lru_entry) : list lru_entry :=
  let e := {| lru_key := k; lru_value := v; lru_start := now; lru_ttl := ttl |} in
  match lru_find k c with
  | Some _ => e :: lru_remove k c
  | None => e :: (if (length c <? max)%nat then c else removelast c)
  end.

(** What [get] would answer, without touching the cache. *)
Definition lru_peek (now : Z) (k : string) (c : list lru_entry) : option stored :=
  match lru_find k c with
  | Some e => if is_stale now e then None else Some (lru_value e)
  | None => None
  end.

(** *** The middleware *)

Definition LRU_MAX : nat := 500.
Definition LRU_TTL : Z := 1000 * 60 * 15.
Definition REQUESTS_PER_IP_LIMIT : Z := 20.
Definition COOLDOWN_PERIOD : Z := 1000 * 60 * 5.

Record NextRequest : Type := {
  pathname : string;
  x_forwarded_for : option string;
}.

Inductive NextResponse : Type :=
| Next (headers : list (string * string))
| Json (status : Z) (error : string) (message : string).

Definition stored_truthy (o : option stored) : bool :=
  match o with
  | Some (SNum n) => negb (n =? 0)
  | Some (SBool b) => b
  | None => false
  end.

(** The number a stored value stands for in [+], [-] and [>=]. *)
Definition to_number (v : stored) : Z :=
  match v with
  | SNum n => n
  | SBool b => if b then 1 else 0
  end.

(** [forwarded ? forwarded.split(',')[0].trim() : '127.0.0.1'] *)
Definition client_ip (request : NextRequest) : string :=
  match x_forwarded_for request with
  | Some (String c rest) => trim (before_first "," (String c rest))
  | _ => "127.0.0.1"
  end.

Definition cooldown_key (ip : string) : string := "cooldown-" +:+ ip.
Definition request_key (ip : string) : string := "requests-" +:+ ip.

(** [middleware(request)] on the module-level cache, with [now] the time
    at which it runs. *)
Definition middleware (now : Z) (request : NextRequest) (cache : list lru_entry)
  : NextResponse * list lru_entry :=
  if negb (String.prefix "/api/instagram-proxy" (pathname request)) then (Next [], cache)
  else
    let ip := client_ip request in
    let cooldownKey := cooldown_key ip in
    let '(cooling, cache) := lru_get now cooldownKey cache in
    if stored_truthy cooling then
      (Json 429 "Too many requests" "Please try again later", cache)
    else
      let requestKey := request_key ip in
      let '(counted, cache) := lru_get now requestKey cache in
      let currentRequests :=
        if stored_truthy counted then to_number (default (SNum 0) counted) else 0 in
      let cache := lru_set LRU_MAX now requestKey (SNum (currentRequests + 1)) LRU_TTL cache in
      if REQUESTS_PER_IP_LIMIT <=? currentRequests then
        let cache := lru_set LRU_MAX now cooldownKey (SBool true) COOLDOWN_PERIOD cache in
        (Json 429 "Rate limit exceeded" "Too many requests, please try again later", cache)
      else
        (Next [("X-RateLimit-Limit", pretty REQUESTS_PER_IP_LIMIT);
               ("X-RateLimit-Remaining", pretty (REQUESTS_PER_IP_LIMIT - currentRequests - 1))],
         cache).

(** The state of a client as the middleware reads it. *)
Definition cooling_down (now : Z) (ip : string) (cache : list lru_entry) : bool :=
  stored_truthy (lru_peek now (cooldown_key ip) cache).

Definition request_count (now : Z) (ip : string) (cache : list lru_entry) : Z :=
  let counted := lru_peek now (request_key ip) cache in
  if stored_truthy counted then to_number (default (SNum 0) counted) else 0.

Definition rejected (r : NextResponse) : bool :=
  match r with
  | Json 429 _ _ => true
  | _ => false
  end.

(** A run of the middleware over the requests of a list, each with the
    time at which it arrives. *)
Fixpoint serve (requests : list (Z * NextRequest)) (cache : list lru_entry)
  : list NextResponse * list lru_entry :=
  match requests with
  | [] => ([], cache)
  | (now, request) :: rest =>
      let '(r, cache) := middleware now request cache in
      let '(rs, cache) := serve rest cache in
      (r :: rs, cache)
  end.

(** A request for the proxy without a forwarded-for header. *)
Definition local_request : NextRequest :=
  {| pathname := "/api/instagram-proxy"; x_forwarded_for := None |}.

(** A cache in which the local client has made [n] requests, the last at
    time 500, and one in which its cooldown was recorded then as well. *)
Definition counted_cache (n : Z) : list lru_entry :=
  [{| lru_key := "requests-127.0.0.1"; lru_value := SNum n;
      lru_start := 500; lru_ttl := LRU_TTL |}].

Definition cooling_cache (n : Z) : list lru_entry :=
  {| lru_key := "cooldown-127.0.0.1"; lru_value := SBool true;
     lru_start := 500; lru_ttl := COOLDOWN_PERIOD |} :: counted_cache n.

(** The requests of one client, at the times of a list. *)
Definition stamp (request : NextRequest) (times : list Z) : list (Z * NextRequest) :=
  (λ t, (t, request)) <$> times.

(** No cooldown is recorded for the client, and all through the window
    that starts at [t0] its counter reads [k]. *)
Definition counting (ip : string) (t0 k : Z) (cache : list lru_entry) : Prop :=
  lru_find (cooldown_key ip) cache = None ∧
  ∀ t, t0 ≤ t ≤ t0 + LRU_TTL → request_count t ip cache = k.

(** A cooldown recorded at [t1] is in force. *)
Definition cooled (ip : string) (t1 : Z) (cache : list lru_entry) : Prop :=
  ∀ t, t - t1 ≤ COOLDOWN_PERIOD → cooling_down t ip cache = true.

(** The state right after the counter answered 429 to the client at time
    [tc]: the counter holds 20 or more and the cooldown flag is recorded,
    both set at [tc]. *)
Definition limited (ip : string) (tc : Z) (cache : list lru_entry) : Prop :=
  ∃ n, REQUESTS_PER_IP_LIMIT ≤ n ∧
    lru_find (request_key ip) cache
    = Some {| lru_key := request_key ip; lru_value := SNum n;
              lru_start := tc; lru_ttl := LRU_TTL |} ∧
    lru_find (cooldown_key ip) cache
    = Some {| lru_key := cooldown_key ip; lru_value := SBool true;
              lru_start := tc; lru_ttl := COOLDOWN_PERIOD |}.

(** No cooldown is recorded for the client and its counter was last set
    at [t], to [k]. *)
Definition counted_at (ip : string) (t k : Z) (cache : list lru_entry) : Prop :=
  lru_find (cooldown_key ip) cache = None ∧
  lru_find (request_key ip) cache
  = Some {| lru_key := request_key ip; lru_value := SNum k;
            lru_start := t; lru_ttl := LRU_TTL |}.

(** Times each at most [gap] after the one before, the first at most [gap]
    after [prev]. *)
Fixpoint paced (gap prev : Z) (times : list Z) : Prop :=
  match times with
  | [] => True
  | t :: rest => t - prev ≤ gap ∧ paced gap t rest
  end.

(** The response to an accepted request that found the counter at [k]. *)
Definition quota_headers (k : Z) : NextResponse :=
  Next [("X-RateLimit-Limit", "20");
        ("X-RateLimit-Remaining", pretty (REQUESTS_PER_IP_LIMIT - k - 1))].

End RateLimiter.

(** ** Reading a trace *)

(** The addresses requested, in the order of the requests. *)
Fixpoint fetches (tr : list event) : list string :=
  match tr with
  | [] => []
  | Fetch url :: rest => url :: fetches rest
  | _ :: rest => fetches rest
  end.

(** The operations on the response cache. *)
Fixpoint cache_operations (tr : list event) : list event :=
  match tr with
  | [] => []
  | (CacheHas _ | CacheGet _ | CacheDelete _ | CacheSet _) as e :: rest =>
      e :: cache_operations rest
  | _ :: rest => cache_operations rest
  end.

(** The trace without the console output. *)
Fixpoint without_logs (tr : list event) : list event :=
  match tr with
  | [] => []
  | Log _ :: rest => without_logs rest
  | e :: rest => e :: without_logs rest
  end.

(** The requests and the pushes on [errors], in the order they happen. *)
Fixpoint skeleton (tr : list event) : list event :=
  match tr with
  | [] => []
  | (Fetch _ | PushError _) as e :: rest => e :: skeleton rest
  | _ :: rest => skeleton rest
  end.

(** ** The fallback chain in the words of the specification

    "Run Strategy A, then B, then C, strictly in order, short-circuiting on
    first success; each failure's message is appended to an ordered error
    list."  A strategy is given by the address it requests, the label of
    its messages and the way its attempt ends.  An attempt that ends
    without a result and without a message has nothing to append. *)
Record chain_result : Type := {
  chain_events : list event;
  chain_errors : list string;
  chain_profile : option InstagramUserData;
}.

Fixpoint fallback_chain (strategies : list (string * string * attempt)) : chain_result :=
  match strategies with
  | [] => {| chain_events := []; chain_errors := []; chain_profile := None |}
  | (url, label, a) :: rest =>
      match a with
      | Returned profile =>
          {| chain_events := [Fetch url]; chain_errors := []; chain_profile := Some profile |}
      | Caught message =>
          let later := fallback_chain rest in
          {| chain_events := Fetch url :: PushError (label +:+ message) :: chain_events later;
             chain_errors := (label +:+ message) :: chain_errors later;
             chain_profile := chain_profile later |}
      | FellThrough =>
          let later := fallback_chain rest in
          {| chain_events := Fetch url :: chain_events later;
             chain_errors := chain_errors later;
             chain_profile := chain_profile later |}
      end
  end.

(** The three strategies of a request for [user], as [fallback_chain]
    takes them: the attempts are those of [method1], [method2] and
    [method3]. *)
Definition strategies (rt : Runtime) (w : World) (isDebugMode : bool) (user : string)
  : list (string * string * attempt) :=
  [(graphql_url user, "GraphQL API error: ", (method1 w isDebugMode user).1);
   (alternative_url user, "Alternative API error: ", (method2 w isDebugMode user).1);
   (scraping_url user, "HTML scraping error: ", (method3 rt w isDebugMode user).1)].

(** The moment of the [cache.set] of a successful chain. *)
Definition success_phase (rt : Runtime) (w : World) (isDebugMode : bool) (user : string)
  : phase :=
  match (method1 w isDebugMode user).1 with
  | Returned _ => AfterGraphQL
  | _ =>
      match (method2 w isDebugMode user).1 with
      | Returned _ => AfterAlternative
      | _ => AfterScraping
      end
  end.

(** Whether a value is a string that starts with ["@"]. *)
Definition leading_at (v : value) : bool :=
  match v with
  | VStr (String c _) => Ascii.eqb c "@"%char
  | _ => false
  end.

(** The name [tier2] reads off the [meta] tags: the text of [og:title]
    before [" • "], else the last non-empty segment of [og:url], else the
    empty string. *)
Definition og_username (rt : Runtime) (html : string) : value :=
  of_opt ((λ t, before_first " • " t) <$> meta_content rt html "og:title")
  ||| of_opt (meta_content rt html "og:url"
              ≫= λ u, last (List.filter str_nonempty (split_char "/"%char u)))
  ||| VStr empty.

(** ** Sample worlds *)

(** A page in which nothing is found: no pattern matches, there is no
    [meta] tag and no JSON-LD script, and no text parses. *)
Definition bare_page : Runtime := {|
  JSON_parse := λ _, None;
  String_match := λ _ _, None;
  meta_content := λ _ _, None;
  ld_json_scripts := λ _, [];
|}.

(** Both endpoints answer 200 with an empty object, the page is empty. *)
Definition quiet_upstream : World := {|
  axios_get := λ url,
    if String.prefix "https://www.instagram.com/api/" url then Resolved (VObj [])
    else if String.eqb url "https://www.instagram.com/jane/?__a=1&__d=dis" then Resolved (VObj [])
    else Resolved (VStr "<html></html>");
  Date_now := λ _, 1700000000000;
|}.

(** Every request is refused. *)
Definition refusing_upstream : World := {|
  axios_get := λ _, Rejected "Request failed with status code 401";
  Date_now := λ _, 1700000000000;
|}.

(** A page whose "shared data" script is cut short, so that its capture
    does not parse; the title names the profile. *)
Definition broken_page : Runtime := {|
  JSON_parse := λ _, None;
  String_match := λ _ regex,
    match regex with
    | SharedData => Some (Some "{entry_data:{ProfilePage:[", None)
    | _ => None
    end;
  meta_content := λ _ property,
    if String.eqb property "og:title" then Some "@jane • Instagram photos and videos"
    else None;
  ld_json_scripts := λ _, [];
|}.

(** A user object whose name carries an ["@"]. *)
Definition at_jane : value := VObj [("username", VStr "@jane")].

(** A user object with one post that has no [taken_at_timestamp]. *)
Definition one_post : value :=
  VObj [("username", VStr "jane");
        ("edge_owner_to_timeline_media",
         VObj [("count", VNum 1);
               ("edges", VArr [VObj [("node", VObj [("id", VStr "31"); ("shortcode", VStr "Cx")])]])])].

Definition one_post_profile : InstagramUserData := {|
  username := VStr "jane";
  fullName := VStr empty;
  biography := VStr empty;
  profilePicture := VStr empty;
  postsCount := VNum 1;
  followersCount := VNum 0;
  followingCount := VNum 0;
  posts := [{| id := VStr "31";
               shortcode := VStr "Cx";
               thumbnailUrl := VStr empty;
               displayUrl := VStr empty;
               isVideo := VBool false;
               caption := VStr empty;
               timestamp := VNum 1700000000;
               likeCount := VNum 0;
               commentCount := VNum 0 |}];
|}.

(** Seven objects inside one another. *)
Definition nested : value :=
  VObj [("a", VObj [("a", VObj [("a", VObj [("a", VObj [("a", VObj [("a",
    VObj [("username", VStr "deep"); ("full_name", VStr "Deep")])])])])])])].

(** A user object with 42 posts, none of them listed. *)
Definition jane : value :=
  VObj [("username", VStr "jane");
        ("full_name", VStr "Jane");
        ("edge_owner_to_timeline_media", VObj [("count", VNum 42); ("edges", VArr [])])].

(** The first endpoint answers with [jane]. *)
Definition jane_upstream : World := {|
  axios_get := λ _, Resolved (VObj [("data", VObj [("user", jane)])]);
  Date_now := λ _, 1700000000000;
|}.

Definition jane_profile : InstagramUserData := {|
  username := VStr "jane";
  fullName := VStr "Jane";
  biography := VStr empty;
  profilePicture := VStr empty;
  postsCount := VNum 42;
  followersCount := VNum 0;
  followingCount := VNum 0;
  posts := [];
|}.

(** A cache that holds the profile of jane, stored one second before the
    clock of [jane_upstream]. *)
Definition warm_cache : gmap string CacheData :=
  {["instagram-jane" := {| data := jane_profile; cached_at := 1699999999000 |}]}.

(** The same profile, stored when the clock read 0. *)
Definition stale_cache : gmap string CacheData :=
  {["instagram-jane" := {| data := jane_profile; cached_at := 0 |}]}.

Definition ask (user : string) : Request :=
  {| username_param := Some user; debug_param := None |}.

(** The edges the loop of [processUserData] walks over. *)
Definition raw_edges (userData : value) : list value :=
  let edges := opt_get (prop userData "edge_owner_to_timeline_media") "edges" in
  if truthy edges
  then match iterate edges with Ok l => l | Throw _ => [] end
  else [].

(** [taken_at_timestamp?: number] of [InstagramMediaNode]. *)
Definition declared_timestamp (node : value) : bool :=
  match prop node "taken_at_timestamp" with
  | VUndef | VNum _ => true
  | _ => false
  end.

(** ** The declared types of the route

    The interfaces of the route as predicates on values: what a value must
    look like to have the type the source casts it to.  An optional
    property [k?: T] is absent or a [T]. *)

Definition is_number (v : value) : bool :=
  match v with
  | VNum _ => true
  | _ => false
  end.

Definition is_boolean (v : value) : bool :=
  match v with
  | VBool _ => true
  | _ => false
  end.

Definition is_record (v : value) : bool :=
  match v with
  | VObj _ => true
  | _ => false
  end.

Definition optional (type : value → bool) (v : value) : bool :=
  match v with
  | VUndef => true
  | _ => type v
  end.

Definition array_of (type : value → bool) (v : value) : bool :=
  match v with
  | VArr elems => forallb type elems
  | _ => false
  end.

(** [{ count: number }] and [{ count?: number }] *)
Definition has_count (v : value) : bool :=
  is_record v && is_number (prop v "count").

Definition has_optional_count (v : value) : bool :=
  is_record v && optional is_number (prop v "count").

(** [{ src: string }] *)
Definition is_thumbnail (v : value) : bool :=
  is_record v && is_string (prop v "src").

(** [InstagramEdge<InstagramCaption>] *)
Definition is_caption_edge (v : value) : bool :=
  is_record v && is_record (prop v "node") && is_string (prop (prop v "node") "text").

(** [{ edges: Array<InstagramEdge<InstagramCaption>> }] *)
Definition is_caption_list (v : value) : bool :=
  is_record v && array_of is_caption_edge (prop v "edges").

Definition is_InstagramMediaNode (node : value) : bool :=
  is_record node
  && is_string (prop node "id")
  && is_string (prop node "shortcode")
  && optional is_string (prop node "thumbnail_src")
  && optional (array_of is_thumbnail) (prop node "thumbnail_resources")
  && optional is_string (prop node "display_url")
  && is_boolean (prop node "is_video")
  && optional is_caption_list (prop node "edge_media_to_caption")
  && optional is_number (prop node "taken_at_timestamp")
  && optional has_count (prop node "edge_liked_by")
  && optional has_count (prop node "edge_media_preview_like")
  && optional has_count (prop node "edge_media_to_comment").

(** [InstagramEdge<InstagramMediaNode>] *)
Definition is_media_edge (v : value) : bool :=
  is_record v && is_InstagramMediaNode (prop v "node").

(** [{ count?: number; edges?: Array<InstagramEdge<InstagramMediaNode>> }] *)
Definition is_timeline (v : value) : bool :=
  is_record v
  && optional is_number (prop v "count")
  && optional (array_of is_media_edge) (prop v "edges").

Definition is_InstagramRawUserData (userData : value) : bool :=
  is_record userData
  && is_string (prop userData "username")
  && optional is_string (prop userData "full_name")
  && optional is_string (prop userData "biography")
  && optional is_string (prop userData "profile_pic_url_hd")
  && optional is_string (prop userData "profile_pic_url")
  && optional is_timeline (prop userData "edge_owner_to_timeline_media")
  && optional has_optional_count (prop userData "edge_followed_by")
  && optional has_optional_count (prop userData "edge_follow").

Definition is_InstagramPost (p : InstagramPost) : bool :=
  is_string (id p)
  && is_string (shortcode p)
  && is_string (thumbnailUrl p)
  && is_string (displayUrl p)
  && is_boolean (isVideo p)
  && is_string (caption p)
  && is_number (timestamp p)
  && is_number (likeCount p)
  && is_number (commentCount p).

Definition is_InstagramUserData (d : InstagramUserData) : bool :=
  is_string (username d)
  && is_string (fullName d)
  && is_string (biography d)
  && is_string (profilePicture d)
  && is_number (postsCount d)
  && is_number (followersCount d)
  && is_number (followingCount d)
  && forallb is_InstagramPost (posts d).

(** [null] or [undefined] *)
Definition nullish (v : value) : bool :=
  match v with
  | VUndef | VNull => true
  | _ => false
  end.

(** A user object with two posts, the first with a caption and thumbnails,
    the second bare. *)
Definition two_posts : value :=
  VObj [("username", VStr "jane");
        ("full_name", VStr "Jane");
        ("profile_pic_url", VStr "https://cdn/p.jpg");
        ("edge_followed_by", VObj [("count", VNum 1000)]);
        ("edge_owner_to_timeline_media",
         VObj [("count", VNum 2);
               ("edges",
                VArr [VObj [("node",
                        VObj [("id", VStr "31"); ("shortcode", VStr "Cx");
                              ("thumbnail_resources", VArr [VObj [("src", VStr "https://cdn/t.jpg")]]);
                              ("display_url", VStr "https://cdn/d.jpg");
                              ("is_video", VBool false);
                              ("edge_media_to_caption",
                               VObj [("edges", VArr [VObj [("node", VObj [("text", VStr "hello")])]])]);
                              ("taken_at_timestamp", VNum 1690000000);
                              ("edge_liked_by", VObj [("count", VNum 7)])])];
                      VObj [("node",
                        VObj [("id", VStr "32"); ("shortcode", VStr "Cy");
                              ("is_video", VBool true)])]])])].

(** A user object whose second edge has no [node]. *)
Definition broken_edge : value :=
  VObj [("username", VStr "jane");
        ("edge_owner_to_timeline_media",
         VObj [("count", VNum 2);
               ("edges",
                VArr [VObj [("node", VObj [("id", VStr "31"); ("shortcode", VStr "Cx")])];
                      VObj [("cursor", VStr "abc")]])])].

(** The first endpoint answers with [broken_edge]. *)
Definition broken_edge_upstream : World := {|
  axios_get := λ _, Resolved (VObj [("data", VObj [("user", broken_edge)])]);
  Date_now := λ _, 1700000000000;
|}.

(** The first entry of a list of statistics whose [name] is the given
    one; [undefined] when there is none. *)
Definition first_named (name : string) (stats : list value) : value :=
  default VUndef
    (List.find (λ stat, match prop stat "name" with
                        | VStr n => String.eqb n name
                        | _ => false
                        end) stats).

(** What a search leaves in its log: the result, if any, is the last
    object examined and the first that has the shape of a user. *)
Definition first_match (r : option value * list (Z * value)) : Prop :=
  match r.1 with
  | Some u =>
      ∃ before d, r.2 = before ++ [(d, u)] ∧ has_user_shape u = true ∧
                  Forall (λ e, has_user_shape e.2 = false) before
  | None => Forall (λ e, has_user_shape e.2 = false) r.2
  end.

(** A page with a JSON-LD block of a profile page that lists followers. *)
Definition ld_page : Runtime := {|
  JSON_parse := λ text,
    if String.eqb text "LD" then
      Some (VObj [("mainEntityOfPage", VObj [("@type", VStr "ProfilePage")]);
                  ("name", VStr "Jane");
                  ("interactionStatistic",
                   VArr [VObj [("name", VStr "Followers");
                               ("userInteractionCount", VNum 1000)]])])
    else None;
  String_match := λ _ _, None;
  meta_content := λ _ _, None;
  ld_json_scripts := λ _, [Some "LD"];
|}.

(** A page whose inline user object parses, after a "ServerJS" capture
    that does not hold a user. *)
Definition inline_page : Runtime := {|
  JSON_parse := λ text,
    if String.eqb text "USER" then Some (VObj [("user", jane)])
    else if String.eqb text "SERVER" then Some (VObj [("require", VArr [])])
    else None;
  String_match := λ _ regex,
    match regex with
    | ServerJS => Some (Some "SERVER", None)
    | InlineUser => Some (Some "USER", None)
    | _ => None
    end;
  meta_content := λ _ _, None;
  ld_json_scripts := λ _, [];
|}.

(** A pattern the loop of [extractInstagramData] passes over: it does not
    match, or captures nothing, or its capture does not parse, or the
    parsed value holds no user in any of the places [probe] looks at. *)
Definition passed_over (rt : Runtime) (html : string) (regex : regex) : Prop :=
  match String_match rt html regex with
  | None => True
  | Some (m1, m2) =>
      truthy (of_opt m1 ||| of_opt m2) = false ∨
      ∃ text, of_opt m2 ||| of_opt m1 = VStr text ∧
              match JSON_parse rt text with
              | None => True
              | Some jsonData => probe jsonData = None
              end
  end.

(** How often a character occurs in a string. *)
Fixpoint count_char (c : ascii) (s : string) : nat :=
  match s with
  | EmptyString => 0%nat
  | String c' rest => ((if Ascii.eqb c' c then 1 else 0) + count_char c rest)%nat
  end.

(** A page with a JSON-LD block of a person. *)
Definition person_page : Runtime := {|
  JSON_parse := λ text,
    if String.eqb text "PERSON" then
      Some (VObj [("@type", VStr "Person"); ("alternateName", VStr "@jane");
                  ("name", VStr "Jane")])
    else None;
  String_match := λ _ _, None;
  meta_content := λ _ _, None;
  ld_json_scripts := λ _, [None; Some "PERSON"];
|}.

(** ** The clients of the route

    [utils/instagramFetcher.ts] and [components/InstagramFeed.tsx] call
    the route with [fetch] and read the JSON body of its response. *)

Section Members.

Variable wire : value → value.

(** The members [JSON.stringify] writes for an object: a property whose
    value is [undefined] is dropped. *)
Fixpoint members (props : list (string * value)) : list (string * value) :=
  match props with
  | [] => []
  | (k, x) :: rest =>
      match x with
      | VUndef => members rest
      | _ => (k, wire x) :: members rest
      end
  end.

End Members.

(** [JSON.parse(JSON.stringify(v))]: what is left of a value that went
    over the wire.  An [undefined] element of an array becomes [null]. *)
Fixpoint wire (v : value) : value :=
  match v with
  | VArr elems => VArr (map (λ x, match x with VUndef => VNull | _ => wire x end) elems)
  | VObj props => VObj (members wire props)
  | _ => v
  end.

Section Joined.

Variable to_string : value → string.

(** [Array.prototype.join]: [null] and [undefined] give the empty string. *)
Fixpoint joined (elems : list value) : string :=
  match elems with
  | [] => EmptyString
  | x :: rest =>
      let text := match x with VUndef | VNull => EmptyString | _ => to_string x end in
      match rest with
      | [] => text
      | _ :: _ => text +:+ "," +:+ joined rest
      end
  end.

End Joined.

(** [String(v)], the conversion [new Error(v)] applies to its message.
    Numbers are the integers of this model, written in decimal. *)
Fixpoint to_string (v : value) : string :=
  match v with
  | VUndef => "undefined"
  | VNull => "null"
  | VBool b => if b then "true" else "false"
  | VNum n => pretty n
  | VStr s => s
  | VArr elems => joined to_string elems
  | VObj _ => "[object Object]"
  end.

(** The object literals of the route, as values. *)
Definition object_of_post (p : InstagramPost) : value :=
  VObj [("id", id p);
        ("shortcode", shortcode p);
        ("thumbnailUrl", thumbnailUrl p);
        ("displayUrl", displayUrl p);
        ("isVideo", isVideo p);
        ("caption", caption p);
        ("timestamp", timestamp p);
        ("likeCount", likeCount p);
        ("commentCount", commentCount p)].

Definition object_of_profile (p : InstagramUserData) : value :=
  VObj [("username", username p);
        ("fullName", fullName p);
        ("biography", biography p);
        ("profilePicture", profilePicture p);
        ("postsCount", postsCount p);
        ("followersCount", followersCount p);
        ("followingCount", followingCount p);
        ("posts", VArr (object_of_post <$> posts p))].

Definition object_of_body (b : Body) : value :=
  match b with
  | ErrorOnly error => VObj [("error", VStr error)]
  | ErrorMessage error message => VObj [("error", VStr error); ("message", VStr message)]
  | Profile profile => object_of_profile profile
  | Failure error requested errors message =>
      VObj [("error", VStr error);
            ("username", VStr requested);
            ("errors", VArr (VStr <$> errors));
            ("message", VStr message)]
  end.

(** What [fetch(url)] settles with: a response, with its status and what
    [response.json()] settles with, or a rejection with its message. *)
Record HttpResponse : Type := {
  http_status : Z;
  http_json : result value;
}.

Inductive settled : Type :=
| Responded (answer : HttpResponse)
| NetworkError (message : string).

(** [response.ok] *)
Definition http_ok (answer : HttpResponse) : bool :=
  (200 <=? http_status answer) && (http_status answer <=? 299).

(** [NextResponse.json(body, { status })] as the client receives it. *)
Definition deliver (r : Response) : HttpResponse :=
  {| http_status := status r; http_json := Ok (wire (object_of_body (body r))) |}.

(** The [NextResponse.json] of the middleware as the client receives it. *)
Definition deliver_rejection (status : Z) (error message : string) : HttpResponse :=
  {| http_status := status;
     http_json := Ok (VObj [("error", VStr error); ("message", VStr message)]) |}.

Definition proxy_url (user : string) (debug : bool) : string :=
  "/api/instagram-proxy?username=" +:+ user
    +:+ (if debug then "&debug=true" else EmptyString).

Definition status_message (answer : HttpResponse) : value :=
  VStr ("Failed with status: " +:+ pretty (http_status answer)).

(** [fetchInstagramData(username, debug)]: the value the promise resolves
    with, or the message of the error it rejects with, and the console
    output. *)
Definition fetchInstagramData (fetch : string → settled) (user : string) (debug : bool)
  : result value * list event :=
  let attempted : result value :=
    match fetch (proxy_url user debug) with
    | NetworkError message => Throw message
    | Responded answer =>
        if negb (http_ok answer) then
          let errorData :=
            match http_json answer with
            | Ok parsed => parsed
            | Throw _ => VObj []
            end in
          message ← get errorData "message";
          Throw (to_string (message ||| status_message answer))
        else
          data ← http_json answer;
          if negb (truthy data) || negb (truthy (prop data "username"))
          then Throw "Invalid response data from Instagram API"
          else Ok data
    end in
  match attempted with
  | Ok data => (Ok data, [])
  | Throw message => (Throw message, [Log ("Error fetching Instagram data: " +:+ message)])
  end.

(** *** components/InstagramFeed.tsx *)

Record InstagramFeedProps : Type := {
  feed_username : string;
  feed_postCount : Z;
  feed_debug : bool;
}.

(** The five [useState] cells of the component. *)
Record FeedState : Type := {
  feed_posts : list value;
  feed_profileData : value;
  feed_loading : bool;
  feed_error : option string;
  feed_errorDetails : option string;
}.

Definition feed_initial : FeedState := {|
  feed_posts := [];
  feed_profileData := VNull;
  feed_loading := true;
  feed_error := None;
  feed_errorDetails := None;
|}.

(** [l.slice(0, count)] for an integer [count]: a negative [count] counts
    from the end. *)
Definition slice_to (count : Z) (l : list value) : list value :=
  let len := Z.of_nat (length l) in
  take (Z.to_nat (if count <? 0 then Z.max (len + count) 0 else Z.min count len)) l.

(** The state when [fetchData] has settled. *)
Definition fetchData (fetch : string → settled) (props : InstagramFeedProps)
    (state : FeedState) : FeedState :=
  let attempted : result (value * list value) :=
    match fetch (proxy_url (feed_username props) (feed_debug props)) with
    | NetworkError message => Throw message
    | Responded answer =>
        if negb (http_ok answer) then
          errorData ← http_json answer;
          message ← get errorData "message";
          Throw (to_string (message ||| status_message answer))
        else
          data ← http_json answer;
          name ← get data "username";
          if negb (truthy name) then Throw "Received invalid data from Instagram"
          else
            Ok (VObj [("username", name);
                      ("fullName", prop data "fullName");
                      ("biography", prop data "biography");
                      ("profilePicture", prop data "profilePicture");
                      ("postsCount", prop data "postsCount");
                      ("followersCount", prop data "followersCount");
                      ("followingCount", prop data "followingCount")],
                match prop data "posts" with
                | VArr listed => slice_to (feed_postCount props) listed
                | _ => []
                end)
    end in
  match attempted with
  | Ok (profile, listed) =>
      {| feed_posts := listed;
         feed_profileData := profile;
         feed_loading := false;
         feed_error := None;
         feed_errorDetails := None |}
  | Throw message =>
      {| feed_posts := feed_posts state;
         feed_profileData := feed_profileData state;
         feed_loading := false;
         feed_error := Some "Failed to load Instagram feed. Please try again later.";
         feed_errorDetails := Some message |}
  end.

(** The effect: [if (username) fetchData()]. *)
Definition feed_effect (fetch : string → settled) (props : InstagramFeedProps)
    (state : FeedState) : FeedState :=
  if str_nonempty (feed_username props) then fetchData fetch props state else state.

(** Which of its three returns the component takes, and with what. *)
Inductive View : Type :=
| Spinner
| ErrorBox (text : string) (details : option string)
| Feed (profile : value) (listed : list value).

Definition nonempty (o : option string) : option string :=
  match o with
  | Some text => if str_nonempty text then Some text else None
  | None => None
  end.

Definition render (props : InstagramFeedProps) (state : FeedState) : View :=
  if feed_loading state then Spinner
  else
    match nonempty (feed_error state) with
    | Some text =>
        ErrorBox text (if feed_debug props then nonempty (feed_errorDetails state) else None)
    | None => Feed (feed_profileData state) (feed_posts state)
    end.

(** A [fetch] that reaches the route. *)
Definition route_fetch (rt : Runtime) (w : World) (request : Request)
    (cache : gmap string CacheData) : string → settled :=
  λ _, Responded (deliver (response (GET rt w request cache))).

Definition jane_feed : InstagramFeedProps :=
  {| feed_username := "jane"; feed_postCount := 6; feed_debug := true |}.

(** Only the profile page answers; both endpoints refuse. *)
Definition page_only_upstream : World := {|
  axios_get := λ url,
    if String.eqb url (scraping_url "jane") then Resolved (VStr "<html></html>")
    else Rejected "Request failed with status code 401";
  Date_now := λ _, 1700000000000;
|}.

(** A user object whose only post has a timestamp. *)
Definition stamped_post : value :=
  VObj [("username", VStr "jane");
        ("edge_owner_to_timeline_media",
         VObj [("count", VNum 1);
               ("edges",
                VArr [VObj [("node", VObj [("id", VStr "31"); ("shortcode", VStr "Cx");
                                           ("taken_at_timestamp", VNum 1690000000)])]])])].

(** The record the extractor of the other variant makes of [person_page]. *)
Definition jane_person : InstagramUserData := {|
  username := VStr "jane";
  fullName := VStr "Jane";
  biography := VUndef;
  profilePicture := VUndef;
  postsCount := VNum 0;
  followersCount := VNum 0;
  followingCount := VNum 0;
  posts := [];
|}.

(** A [fetch] that reaches the rate limiter while it is cooling down. *)
Definition limited_fetch : string → settled :=
  λ _, Responded (deliver_rejection 429 "Too many requests" "Please try again later").

(** ** Lemmas on values and exceptions *)

Lemma bind_Ok {A B} (m : result A) (f : A → result B) (b : B) :
  m ≫= f = Ok b → ∃ a, m = Ok a ∧ f a = Ok b.
Proof. destruct m as [a|e]; simpl; [eauto | discriminate]. Qed.

(** [ok_steps H]: the steps of a sequence [x ← m; ...] that ended in [Ok]
    all ended in [Ok]. *)
Ltac ok_steps H :=
  repeat (let x := fresh "x" in
          let Hx := fresh "H" x in
          apply bind_Ok in H as (x & Hx & H)).

Lemma get_Ok v k w : get v k = Ok w → w = prop v k ∧ v ≠ VUndef ∧ v ≠ VNull.
Proof. destruct v; simpl; intros H; inversion H; auto. Qed.

Lemma js_or_not_nullish a b :
  b ≠ VUndef → b ≠ VNull → a ||| b ≠ VUndef ∧ a ||| b ≠ VNull.
Proof.
  intros Hu Hn. unfold js_or.
  destruct (truthy a) eqn:E; [|auto].
  split; intros ->; discriminate.
Qed.

Lemma js_or_falsy a b : truthy a = false → a ||| b = b.
Proof. unfold js_or. intros ->. reflexivity. Qed.

Lemma js_or_truthy a b : truthy a = true → a ||| b = a.
Proof. unfold js_or. intros ->. reflexivity. Qed.

Lemma post_of_edge_timestamp now edge p :
  post_of_edge now edge = Ok p →
  timestamp p = prop (prop edge "node") "taken_at_timestamp" ||| VNum (now / 1000).
Proof.
  unfold post_of_edge. intros H.
  apply bind_Ok in H as (node & Hnode & H). ok_steps H.
  apply get_Ok in Hnode as (-> & _). inversion H. reflexivity.
Qed.

Lemma push_posts_Forall2 now (P : value → InstagramPost → Prop) :
  (∀ edge p, post_of_edge now edge = Ok p → P edge p) →
  ∀ edges ps, push_posts now edges = Ok ps → Forall2 P edges ps.
Proof.
  intros HP. induction edges as [|edge rest IH]; simpl; intros ps H.
  - inversion H. constructor.
  - apply bind_Ok in H as (p & Hp & H).
    apply bind_Ok in H as (ps' & Hps & H).
    inversion H; subst. constructor; auto.
Qed.

Lemma processUserData_posts userData now d :
  processUserData userData now = Ok d →
  push_posts now (raw_edges userData) = Ok (posts d).
Proof.
  unfold processUserData, raw_edges. intros H.
  apply bind_Ok in H as (media & Hmedia & H).
  apply get_Ok in Hmedia as (-> & _).
  apply bind_Ok in H as (ps & Hps & H).
  inversion H; subst; simpl. clear H.
  destruct (truthy _); [|inversion Hps; reflexivity].
  apply bind_Ok in Hps as (edges & -> & Hps). exact Hps.
Qed.

(** ** Post timestamps (claim C9) *)


(** The single-endpoint variant copies [taken_at_timestamp] as it is. *)
Lemma SingleEndpoint_timestamp_copied edge p :
  SingleEndpoint.post_of_edge edge = Ok p →
  timestamp p = prop (prop edge "node") "taken_at_timestamp".
Proof.
  unfold SingleEndpoint.post_of_edge. intros H.
  apply bind_Ok in H as (n & Hn & H). ok_steps H.
  apply get_Ok in Hn as (-> & _). inversion H. reflexivity.
Qed.

(** ** The bounded search (claim C8) *)

Lemma value_ind (P : value → Prop) :
  P VUndef → P VNull → (∀ b, P (VBool b)) → (∀ n, P (VNum n)) → (∀ s, P (VStr s)) →
  (∀ elems, Forall P elems → P (VArr elems)) →
  (∀ props, Forall (λ kx, P kx.2) props → P (VObj props)) →
  ∀ v, P v.
Proof.
  intros Hu Hn Hb Hz Hs Ha Ho.
  fix IH 1.
  intros [| |b|n|s|elems|props];
    [exact Hu | exact Hn | apply Hb | apply Hz | apply Hs | apply Ha | apply Ho].
  - induction elems as [|x l IHl]; constructor; [apply IH | exact IHl].
  - induction props as [|[k x] l IHl]; constructor; [apply IH | exact IHl].
Qed.

(** One unfolding of the search at an array or an object. *)
Lemma findUserData_log_unfold obj depth :
  findUserData_log obj depth =
  if negb (truthy obj) || negb (is_object obj) || (5 <? depth) then (None, [])
  else if has_user_shape obj then (Some obj, [(depth, obj)])
  else
    let '(res, seen) :=
      match obj with
      | VArr elems =>
          search_children (λ x, x) (λ x, findUserData_log x (depth + 1)) elems
      | VObj props =>
          search_children (λ kx, kx.2) (λ x, findUserData_log x (depth + 1)) props
      | _ => (None, [])
      end in
    (res, (depth, obj) :: seen).
Proof. destruct obj; reflexivity. Qed.

Lemma within_weaken d d' n n' r : d' ≤ d → (n ≤ n')%nat → within d n r → within d' n' r.
Proof.
  intros Hd Hn [HF Hl]. split; [|lia].
  eapply Forall_impl; [exact HF|]. simpl. intros e He. lia.
Qed.

Lemma search_children_within {A} (child : A → value) visit (entries : list A) d :
  Forall (λ entry, within d (nodes (child entry)) (visit (child entry))) entries →
  within d (foldr (λ entry n, (nodes (child entry) + n)%nat) 0%nat entries)
    (search_children child visit entries).
Proof.
  induction 1 as [|entry rest Hentry Hrest IH]; simpl.
  - split; [constructor | simpl; lia].
  - destruct (is_object (child entry)).
    + destruct (visit (child entry)) as [res seen] eqn:Ev.
      destruct Hentry as [HF Hl]. simpl in HF, Hl.
      destruct res as [r|].
      * split; simpl; [exact HF | lia].
      * destruct (search_children child visit rest) as [res' seen'].
        destruct IH as [HF' Hl']. simpl in HF', Hl'.
        split; simpl; [apply Forall_app; auto | rewrite length_app; lia].
    + eapply within_weaken; [| |exact IH]; lia.
Qed.

Lemma findUserData_log_within obj :
  ∀ depth, within depth (nodes obj) (findUserData_log obj depth).
Proof.
  induction obj as [| |b|n|s|elems IH|props IH] using value_ind; intros depth;
    try solve [rewrite findUserData_log_unfold; simpl; rewrite ?orb_true_r; simpl;
               split; simpl; [constructor | lia]].
  - rewrite findUserData_log_unfold. simpl.
    destruct (5 <? depth) eqn:Hd; [split; simpl; [constructor | lia]|].
    apply Z.ltb_ge in Hd.
    assert (Hc : within (depth + 1) (foldr (λ x n, (nodes x + n)%nat) 0%nat elems)
              (search_children (λ x, x) (λ x, findUserData_log x (depth + 1)) elems)).
    { apply search_children_within. eapply Forall_impl; [exact IH|]. simpl. auto. }
    destruct (search_children _ _ elems) as [res seen].
    destruct Hc as [HF Hl]. simpl in HF, Hl.
    split; simpl; [|lia].
    constructor; [simpl; lia|].
    eapply Forall_impl; [exact HF|]. simpl. intros e He. lia.
  - rewrite findUserData_log_unfold. simpl.
    destruct (5 <? depth) eqn:Hd; [split; simpl; [constructor | lia]|].
    apply Z.ltb_ge in Hd.
    destruct (has_user_shape (VObj props)).
    { split; simpl; [|lia]. constructor; [simpl; lia | constructor]. }
    assert (Hc : within (depth + 1) (foldr (λ kx n, (nodes kx.2 + n)%nat) 0%nat props)
              (search_children (λ kx, kx.2) (λ x, findUserData_log x (depth + 1)) props)).
    { apply (search_children_within (λ kx : string * value, kx.2)).
      eapply Forall_impl; [exact IH|]. simpl. auto. }
    destruct (search_children _ _ props) as [res seen].
    destruct Hc as [HF Hl]. simpl in HF, Hl.
    split; simpl; [|lia].
    constructor; [simpl; lia|].
    eapply Forall_impl; [exact HF|]. simpl. intros e He. lia.
Qed.

(** C8. [findUserData] is a total function: on every value and every
    starting depth it returns after examining at most as many objects as
    the value has nodes.  It never examines an object at a depth greater
    than 5, and a call at a depth greater than 5 returns [null] without
    examining anything. *)
Theorem findUserData_bounded (obj : value) (depth : Z) :
  (5 < depth → findUserData_log obj depth = (None, []) ∧ findUserData obj depth = None) ∧
  Forall (λ e, depth ≤ e.1 ≤ 5) (findUserData_log obj depth).2 ∧
  (length (findUserData_log obj depth).2 ≤ nodes obj)%nat.
Proof.
  split.
  - intros Hd. unfold findUserData. rewrite findUserData_log_unfold.
    apply Z.ltb_lt in Hd. rewrite Hd, !orb_true_r. auto.
  - apply findUserData_log_within.
Qed.

(** ** The rate limiter (claim C1) *)

Module RateLimiterFacts.
Import RateLimiter.

Lemma lru_find_remove_eq k c : lru_find k (lru_remove k c) = None.
Proof.
  induction c as [|e c IH]; simpl; [reflexivity|].
  destruct (String.eqb (lru_key e) k) eqn:E; simpl; [exact IH|].
  rewrite E. exact IH.
Qed.

Lemma lru_find_remove_ne k k' c : k ≠ k' → lru_find k' (lru_remove k c) = lru_find k' c.
Proof.
  intros Hne. induction c as [|e c IH]; simpl; [reflexivity|].
  destruct (String.eqb (lru_key e) k) eqn:E; simpl.
  - apply String.eqb_eq in E.
    destruct (String.eqb (lru_key e) k') eqn:E'; [|exact IH].
    apply String.eqb_eq in E'. congruence.
  - destruct (String.eqb (lru_key e) k'); [reflexivity | exact IH].
Qed.

Lemma lru_find_removelast_None k c : lru_find k c = None → lru_find k (removelast c) = None.
Proof.
  induction c as [|e c IH]; simpl; [auto|].
  destruct (String.eqb (lru_key e) k) eqn:E; [discriminate|].
  intros H. destruct c as [|e' c']; [reflexivity|].
  simpl. rewrite E. apply IH, H.
Qed.

Lemma lru_get_peek now k c : (lru_get now k c).1 = lru_peek now k c.
Proof.
  unfold lru_get, lru_peek. destruct (lru_find k c) as [e|]; [|reflexivity].
  destruct (is_stale now e); reflexivity.
Qed.

Lemma lru_find_get_ne now k k' c : k ≠ k' → lru_find k' (lru_get now k c).2 = lru_find k' c.
Proof.
  intros Hne. unfold lru_get. destruct (lru_find k c) as [e|] eqn:Ef; [|reflexivity].
  assert (lru_key e = k) as Hk.
  { clear -Ef. induction c as [|e' c IH]; simpl in Ef; [discriminate|].
    destruct (String.eqb (lru_key e') k) eqn:E; [|auto].
    apply String.eqb_eq in E. congruence. }
  destruct (is_stale now e); simpl.
  - apply lru_find_remove_ne, Hne.
  - destruct (String.eqb (lru_key e) k') eqn:E.
    + apply String.eqb_eq in E. congruence.
    + apply lru_find_remove_ne, Hne.
Qed.

Lemma lru_find_get_None now k k' c : lru_find k' c = None → lru_find k' (lru_get now k c).2 = None.
Proof.
  intros H. destruct (decide (k = k')) as [->|Hne].
  - unfold lru_get. rewrite H. exact H.
  - rewrite lru_find_get_ne; auto.
Qed.

Lemma lru_find_set_eq max now k v ttl c :
  lru_find k (lru_set max now k v ttl c)
  = Some {| lru_key := k; lru_value := v; lru_start := now; lru_ttl := ttl |}.
Proof.
  unfold lru_set. destruct (lru_find k c); simpl; rewrite String.eqb_refl; reflexivity.
Qed.

Lemma lru_find_set_None max now k k' v ttl c :
  k ≠ k' → lru_find k' c = None → lru_find k' (lru_set max now k v ttl c) = None.
Proof.
  intros Hne H. unfold lru_set.
  assert (String.eqb k k' = false) as E by (apply String.eqb_neq, Hne).
  destruct (lru_find k c); simpl; rewrite E.
  - rewrite lru_find_remove_ne; auto.
  - destruct (length c <? max)%nat; [exact H | apply lru_find_removelast_None, H].
Qed.

Lemma keys_differ ip : cooldown_key ip ≠ request_key ip.
Proof. unfold cooldown_key, request_key. simpl. discriminate. Qed.

Lemma request_count_get now t ip c :
  request_count t ip (lru_get now (cooldown_key ip) c).2 = request_count t ip c.
Proof.
  unfold request_count, lru_peek.
  rewrite lru_find_get_ne; [reflexivity | apply keys_differ].
Qed.

(** The three ways a request for the proxy ends, read off the state in
    which it arrives. *)
Lemma middleware_cooling now request cache :
  String.prefix "/api/instagram-proxy" (pathname request) = true →
  cooling_down now (client_ip request) cache = true →
  middleware now request cache
  = (Json 429 "Too many requests" "Please try again later",
     (lru_get now (cooldown_key (client_ip request)) cache).2).
Proof.
  intros Hpath Hcool. unfold middleware. rewrite Hpath. simpl negb. cbv iota zeta.
  unfold cooling_down in Hcool. rewrite <- lru_get_peek in Hcool.
  destruct (lru_get now (cooldown_key (client_ip request)) cache) as [cooling c1].
  simpl in Hcool. simpl. rewrite Hcool. reflexivity.
Qed.

Lemma middleware_counting now request cache :
  String.prefix "/api/instagram-proxy" (pathname request) = true →
  cooling_down now (client_ip request) cache = false →
  let ip := client_ip request in
  let n := request_count now ip cache in
  let c1 := (lru_get now (cooldown_key ip) cache).2 in
  let c2 := (lru_get now (request_key ip) c1).2 in
  let c3 := lru_set LRU_MAX now (request_key ip) (SNum (n + 1)) LRU_TTL c2 in
  middleware now request cache =
  if REQUESTS_PER_IP_LIMIT <=? n then
    (Json 429 "Rate limit exceeded" "Too many requests, please try again later",
     lru_set LRU_MAX now (cooldown_key ip) (SBool true) COOLDOWN_PERIOD c3)
  else
    (Next [("X-RateLimit-Limit", pretty REQUESTS_PER_IP_LIMIT);
           ("X-RateLimit-Remaining", pretty (REQUESTS_PER_IP_LIMIT - n - 1))], c3).
Proof.
  intros Hpath Hcool ip n c1 c2 c3. unfold middleware. rewrite Hpath. simpl negb.
  cbv iota zeta.
  unfold cooling_down in Hcool. rewrite <- lru_get_peek in Hcool.
  fold ip in Hcool |- *. subst c3 c2 c1 n.
  rewrite <- (request_count_get now now ip cache).
  unfold request_count. rewrite <- lru_get_peek.
  destruct (lru_get now (cooldown_key ip) cache) as [cooling c1].
  simpl in Hcool. rewrite Hcool. simpl.
  destruct (lru_get now (request_key ip) c1) as [counted c2]. simpl.
  destruct (REQUESTS_PER_IP_LIMIT <=? _); reflexivity.
Qed.

Lemma not_stale now t ttl : t - now ≤ ttl → (ttl <? t - now) = false.
Proof. intros H. apply Z.ltb_ge. exact H. Qed.

Lemma request_count_set now t ip n c :
  t - now ≤ LRU_TTL →
  request_count t ip (lru_set LRU_MAX now (request_key ip) (SNum n) LRU_TTL c) = n.
Proof.
  intros Ht. unfold request_count, lru_peek. rewrite lru_find_set_eq.
  unfold is_stale. simpl. rewrite (not_stale _ _ _ Ht). simpl.
  destruct (n =? 0) eqn:E; simpl; [|reflexivity].
  apply Z.eqb_eq in E. auto.
Qed.

Lemma cooling_down_set now t ip c :
  t - now ≤ COOLDOWN_PERIOD →
  cooling_down t ip (lru_set LRU_MAX now (cooldown_key ip) (SBool true) COOLDOWN_PERIOD c) = true.
Proof.
  intros Ht. unfold cooling_down, lru_peek. rewrite lru_find_set_eq.
  unfold is_stale. simpl. rewrite (not_stale _ _ _ Ht). reflexivity.
Qed.


(** *** Twenty-one requests in a window, and the cooldown after them *)

Lemma lru_find_key k c e : lru_find k c = Some e → lru_key e = k.
Proof.
  induction c as [|e' c IH]; simpl; [discriminate|].
  destruct (String.eqb (lru_key e') k) eqn:E; [|exact IH].
  apply String.eqb_eq in E. congruence.
Qed.

Lemma lru_peek_get_fresh now t k c v :
  lru_peek now k c = Some v → lru_peek t k (lru_get now k c).2 = lru_peek t k c.
Proof.
  unfold lru_peek, lru_get. destruct (lru_find k c) as [e|] eqn:Ef; [|discriminate].
  destruct (is_stale now e); [discriminate|]. intros _. simpl.
  rewrite (lru_find_key _ _ _ Ef), String.eqb_refl. reflexivity.
Qed.

Lemma counting_cold ip t0 k cache t : counting ip t0 k cache → cooling_down t ip cache = false.
Proof. intros [Hc _]. unfold cooling_down, lru_peek. rewrite Hc. reflexivity. Qed.

Lemma counting_step request now t0 k cache :
  String.prefix "/api/instagram-proxy" (pathname request) = true →
  t0 ≤ now ≤ t0 + LRU_TTL →
  counting (client_ip request) t0 k cache →
  let r := middleware now request cache in
  rejected r.1 = (REQUESTS_PER_IP_LIMIT <=? k) ∧
  (k < REQUESTS_PER_IP_LIMIT → counting (client_ip request) t0 (k + 1) r.2) ∧
  (REQUESTS_PER_IP_LIMIT ≤ k → cooled (client_ip request) now r.2).
Proof.
  intros Hpath Hnow Hk r. subst r.
  rewrite (middleware_counting _ _ _ Hpath (counting_cold _ _ _ _ now Hk)).
  destruct Hk as [Hcold Hcount]. rewrite (Hcount now Hnow).
  destruct (REQUESTS_PER_IP_LIMIT <=? k) eqn:E; simpl.
  - apply Z.leb_le in E. split; [reflexivity|]. split; [intros; lia|].
    intros _ t Ht. apply cooling_down_set, Ht.
  - apply Z.leb_gt in E. split; [reflexivity|]. split; [|intros; lia].
    intros _. split.
    + apply lru_find_set_None; [intros Heq; symmetry in Heq; revert Heq; apply keys_differ|].
      apply lru_find_get_None, lru_find_get_None, Hcold.
    + intros t Ht. apply request_count_set. lia.
Qed.

Lemma cooled_step request now t1 cache :
  String.prefix "/api/instagram-proxy" (pathname request) = true →
  now - t1 ≤ COOLDOWN_PERIOD →
  cooled (client_ip request) t1 cache →
  let r := middleware now request cache in
  rejected r.1 = true ∧ cooled (client_ip request) t1 r.2.
Proof.
  intros Hpath Hnow Hcool r. subst r.
  rewrite (middleware_cooling _ _ _ Hpath (Hcool now Hnow)). split; [reflexivity|].
  intros t Ht. simpl. specialize (Hcool now Hnow) as Hn. unfold cooling_down in *.
  destruct (lru_peek now (cooldown_key (client_ip request)) cache) as [v|] eqn:Ev;
    [|discriminate].
  rewrite (lru_peek_get_fresh _ _ _ _ _ Ev). apply Hcool, Ht.
Qed.

Lemma serve_app l1 l2 cache :
  serve (l1 ++ l2) cache =
  let '(r1, c1) := serve l1 cache in
  let '(r2, c2) := serve l2 c1 in
  (r1 ++ r2, c2).
Proof.
  revert cache. induction l1 as [|[t rq] l1 IH]; intros cache; simpl.
  - destruct (serve l2 cache); reflexivity.
  - destruct (middleware t rq cache) as [r c]. rewrite IH.
    destruct (serve l1 c) as [r1 c1]. destruct (serve l2 c1) as [r2 c2]. reflexivity.
Qed.

Lemma serve_counting request t0 times :
  String.prefix "/api/instagram-proxy" (pathname request) = true →
  Forall (λ t, t0 ≤ t ≤ t0 + LRU_TTL) times →
  ∀ k cache,
    counting (client_ip request) t0 k cache →
    k + Z.of_nat (length times) ≤ REQUESTS_PER_IP_LIMIT →
    let r := serve (stamp request times) cache in
    rejected <$> r.1 = replicate (length times) false ∧
    counting (client_ip request) t0 (k + Z.of_nat (length times)) r.2.
Proof.
  intros Hpath. induction 1 as [|t times Ht Hts IH]; intros k cache Hk Hlen; simpl.
  - split; [reflexivity|]. rewrite Z.add_0_r. exact Hk.
  - simpl length in Hlen.
    destruct (counting_step request t t0 k cache Hpath Ht Hk) as (Hrej & Hnext & _).
    destruct (middleware t request cache) as [r c]. simpl in Hrej, Hnext.
    assert (k < REQUESTS_PER_IP_LIMIT) as Hlt by lia.
    specialize (IH (k + 1) c (Hnext Hlt) ltac:(lia)). simpl in IH.
    destruct (serve (stamp request times) c) as [rs c']. cbn [fst snd] in *.
    destruct IH as [IH1 IH2]. split.
    + rewrite fmap_cons, Hrej, IH1. cbn [length replicate]. f_equal. apply Z.leb_gt, Hlt.
    + replace (k + Z.of_nat (S (length times)))
        with (k + 1 + Z.of_nat (length times)) by lia.
      exact IH2.
Qed.

Lemma serve_cooled request t1 times :
  String.prefix "/api/instagram-proxy" (pathname request) = true →
  Forall (λ t, t - t1 ≤ COOLDOWN_PERIOD) times →
  ∀ cache,
    cooled (client_ip request) t1 cache →
    rejected <$> (serve (stamp request times) cache).1 = replicate (length times) true.
Proof.
  intros Hpath. induction 1 as [|t times Ht Hts IH]; intros cache Hc; simpl; [reflexivity|].
  destruct (cooled_step request t t1 cache Hpath Ht Hc) as [Hrej Hnext].
  destruct (middleware t request cache) as [r c]. simpl in Hrej, Hnext.
  specialize (IH c Hnext).
  destruct (serve (stamp request times) c) as [rs c']. cbn [fst snd] in *.
  rewrite fmap_cons, Hrej, IH. reflexivity.
Qed.

(** A client the limiter has not seen sends twenty requests within one
    window, a twenty-first in the same window, and more within five
    minutes of that one: the first twenty pass, all the others are
    answered 429. *)
Lemma serve_burst request t0 early t21 late cache :
  String.prefix "/api/instagram-proxy" (pathname request) = true →
  lru_find (cooldown_key (client_ip request)) cache = None →
  lru_find (request_key (client_ip request)) cache = None →
  length early = 20%nat →
  Forall (λ t, t0 ≤ t ≤ t0 + LRU_TTL) early →
  t0 ≤ t21 ≤ t0 + LRU_TTL →
  Forall (λ t, t - t21 ≤ COOLDOWN_PERIOD) late →
  rejected <$> (serve (stamp request (early ++ t21 :: late)) cache).1
  = replicate 20 false ++ true :: replicate (length late) true.
Proof.
  intros Hpath Hcold Hnone Hlen Hearly H21 Hlate.
  assert (counting (client_ip request) t0 0 cache) as H0.
  { split; [exact Hcold|]. intros t _. unfold request_count, lru_peek.
    rewrite Hnone. reflexivity. }
  unfold stamp. rewrite fmap_app, serve_app. fold (stamp request early).
  destruct (serve_counting request t0 early Hpath Hearly 0 cache H0) as [Hr Hc].
  { rewrite Hlen. unfold REQUESTS_PER_IP_LIMIT. lia. }
  destruct (serve (stamp request early) cache) as [r1 c1]. simpl in Hr, Hc.
  rewrite Hlen in Hr, Hc. simpl in Hc.
  change (serve ((λ t, (t, request)) <$> t21 :: late) c1)
    with (let '(r, c) := middleware t21 request c1 in
          let '(rs, c') := serve (stamp request late) c in (r :: rs, c')).
  destruct (counting_step request t21 t0 20 c1 Hpath H21 Hc) as (Hrej & _ & Hcooled).
  destruct (middleware t21 request c1) as [r c]. simpl in Hrej, Hcooled.
  pose proof (serve_cooled request t21 late Hpath Hlate c) as Hl.
  destruct (serve (stamp request late) c) as [rs c']. cbn [fst snd] in Hl |- *.
  rewrite fmap_app, fmap_cons, Hr, Hrej, Hl; [reflexivity|].
  apply Hcooled. unfold REQUESTS_PER_IP_LIMIT. lia.
Qed.

End RateLimiterFacts.

(** ** The handler: validation of the parameter (claim C5) *)

Lemma GET_username_required rt w request cache :
  username_param request = None ∨ username_param request = Some EmptyString →
  GET rt w request cache
  = {| response := {| status := 400; body := ErrorOnly "Username is required" |};
       cache_after := cache;
       trace := [] |}.
Proof. intros [H|H]; unfold GET; rewrite H; reflexivity. Qed.

(** The variant with a single endpoint trims the parameter: a missing,
    empty or blank [username] is answered 400 before the cache is read and
    before any request is sent. *)
Lemma SingleEndpoint_GET_blank w request cache :
  match username_param request with
  | None => True
  | Some s => trim s = EmptyString
  end →
  SingleEndpoint.GET w request cache
  = {| response := {| status := 400; body := ErrorOnly "Username is required" |};
       cache_after := cache;
       trace := [] |}.
Proof.
  unfold SingleEndpoint.GET. destruct (username_param request) as [s|]; simpl.
  - intros ->. reflexivity.
  - reflexivity.
Qed.

(** C5, on the handler with the three strategies.  [username] is not
    trimmed there: a parameter of two spaces passes the test [!username],
    the cache is read under the key ["instagram-  "] and the three requests
    are sent; the answer is 500, not 400. *)
Theorem GET_blank_username_not_rejected :
  let r := GET bare_page refusing_upstream (ask "  ") ∅ in
  status (response r) = 500 ∧
  cache_operations (trace r) = [CacheHas "instagram-  "] ∧
  fetches (trace r)
  = [graphql_url "  "; alternative_url "  "; scraping_url "  "] ∧
  trim "  " = EmptyString ∧
  status (response (SingleEndpoint.GET refusing_upstream (ask "  ") ∅)) = 400.
Proof. vm_compute. repeat split. Qed.

(** ** The handler as a fallback chain *)

Lemma without_logs_app l1 l2 : without_logs (l1 ++ l2) = without_logs l1 ++ without_logs l2.
Proof.
  induction l1 as [|e l1 IH]; simpl; [reflexivity|].
  destruct e; simpl; rewrite IH; reflexivity.
Qed.

Lemma without_logs_debug_log b line : without_logs (debug_log b line) = [].
Proof. destruct b; reflexivity. Qed.

Lemma skeleton_without_logs l : skeleton (without_logs l) = skeleton l.
Proof. induction l as [|e l IH]; simpl; [reflexivity|]. destruct e; simpl; rewrite ?IH; reflexivity. Qed.

Lemma fetches_without_logs l : fetches (without_logs l) = fetches l.
Proof. induction l as [|e l IH]; simpl; [reflexivity|]. destruct e; simpl; rewrite ?IH; reflexivity. Qed.

Lemma cache_operations_without_logs l : cache_operations (without_logs l) = cache_operations l.
Proof. induction l as [|e l IH]; simpl; [reflexivity|]. destruct e; simpl; rewrite ?IH; reflexivity. Qed.

Lemma skeleton_app l1 l2 : skeleton (l1 ++ l2) = skeleton l1 ++ skeleton l2.
Proof.
  induction l1 as [|e l1 IH]; simpl; [reflexivity|].
  destruct e; simpl; rewrite IH; reflexivity.
Qed.

Lemma fetches_app l1 l2 : fetches (l1 ++ l2) = fetches l1 ++ fetches l2.
Proof.
  induction l1 as [|e l1 IH]; simpl; [reflexivity|].
  destruct e; simpl; rewrite IH; reflexivity.
Qed.

Create Rewrite HintDb trace.
#[global] Hint Rewrite without_logs_app without_logs_debug_log skeleton_app fetches_app
  skeleton_without_logs fetches_without_logs app_nil_r : trace.

(** The console output is all that debug mode adds to the pattern loop. *)
Lemma tier1_debug rt html b regexes :
  (tier1 rt html b regexes).1 = (tier1 rt html false regexes).1 ∧
  without_logs (tier1 rt html b regexes).2 = [].
Proof.
  induction regexes as [|regex rest [IH1 IH2]]; simpl; [auto|].
  destruct (String_match rt html regex) as [[m1 m2]|]; [|auto].
  destruct (truthy (of_opt m1 ||| of_opt m2)); [|auto].
  destruct (of_opt m2 ||| of_opt m1); auto.
  destruct (JSON_parse rt s) as [jsonData|].
  - destruct (probe jsonData) as [captured|]; simpl.
    + split; [reflexivity | apply without_logs_debug_log].
    + destruct (tier1 rt html b rest) as [c out], (tier1 rt html false rest) as [c' out'].
      simpl in *. split; [exact IH1|].
      destruct b; simpl; exact IH2.
  - destruct (tier1 rt html b rest) as [c out], (tier1 rt html false rest) as [c' out'].
    simpl in *. split; [exact IH1|].
    destruct b; simpl; exact IH2.
Qed.

Lemma extractInstagramData_debug rt html b now :
  (extractInstagramData rt html b now).1 = (extractInstagramData rt html false now).1 ∧
  without_logs (extractInstagramData rt html b now).2 = [].
Proof.
  destruct html as [| |b'|n|doc|elems|props]; try (split; reflexivity).
  unfold extractInstagramData.
  destruct (tier1_debug rt doc b dataRegexes) as [H1 H2].
  destruct (tier1 rt doc b dataRegexes) as [c out], (tier1 rt doc false dataRegexes) as [c' out'].
  cbn [fst snd] in *. subst c'. destruct (truthy c); cbn [fst snd]; auto.
Qed.

Lemma method1_debug w b user :
  (method1 w b user).1 = (method1 w false user).1 ∧
  without_logs (method1 w b user).2 = [Fetch (graphql_url user)].
Proof.
  unfold method1.
  assert (without_logs (debug_log b ("Attempting Instagram GraphQL API for " +:+ user)
                        ++ [Fetch (graphql_url user)]) = [Fetch (graphql_url user)]) as Hout.
  { autorewrite with trace. reflexivity. }
  destruct (axios_get w (graphql_url user)) as [body_data|message]; [|auto].
  destruct (truthy _); [|auto].
  destruct (processUserData _ _); auto.
Qed.

Lemma method2_debug w b user :
  (method2 w b user).1 = (method2 w false user).1 ∧
  without_logs (method2 w b user).2 = [Fetch (alternative_url user)].
Proof.
  unfold method2.
  assert (without_logs (debug_log b ("Attempting Instagram alternative API for " +:+ user)
                        ++ [Fetch (alternative_url user)]) = [Fetch (alternative_url user)])
    as Hout.
  { autorewrite with trace. reflexivity. }
  destruct (axios_get w (alternative_url user)) as [responseData|message]; [|auto].
  destruct (truthy responseData && _); [|auto].
  destruct (processUserData _ _); auto.
Qed.

Lemma method3_debug rt w b user :
  (method3 rt w b user).1 = (method3 rt w false user).1 ∧
  without_logs (method3 rt w b user).2 = [Fetch (scraping_url user)].
Proof.
  unfold method3.
  assert (without_logs (debug_log b ("Attempting HTML scraping for " +:+ user)
                        ++ [Fetch (scraping_url user)]) = [Fetch (scraping_url user)]) as Hout.
  { autorewrite with trace. reflexivity. }
  destruct (axios_get w (scraping_url user)) as [html|message]; [|auto].
  destruct (extractInstagramData_debug rt html b (Date_now w AfterScraping)) as [H1 H2].
  destruct (extractInstagramData rt html b _) as [e logged],
           (extractInstagramData rt html false _) as [e' logged'].
  simpl in H1, H2. subst e'.
  assert (without_logs ((debug_log b ("Attempting HTML scraping for " +:+ user)
                         ++ [Fetch (scraping_url user)]) ++ logged)
          = [Fetch (scraping_url user)]) as Hout'.
  { rewrite without_logs_app, Hout, H2. reflexivity. }
  destruct e as [jsonData|message]; [|auto].
  destruct (truthy (username jsonData)); auto.
Qed.

Lemma strategies_debug rt w b user : strategies rt w b user = strategies rt w false user.
Proof.
  unfold strategies.
  rewrite (proj1 (method1_debug w b user)), (proj1 (method2_debug w b user)),
    (proj1 (method3_debug rt w b user)).
  reflexivity.
Qed.

Lemma success_phase_debug rt w b user : success_phase rt w b user = success_phase rt w false user.
Proof.
  unfold success_phase.
  rewrite (proj1 (method1_debug w b user)), (proj1 (method2_debug w b user)).
  reflexivity.
Qed.

Lemma without_logs_catch_clause label b a :
  (catch_clause label b a).1
  = match a with Caught message => [label +:+ message] | _ => [] end ∧
  without_logs (catch_clause label b a).2
  = match a with Caught message => [PushError (label +:+ message)] | _ => [] end.
Proof. destruct a; simpl; auto. rewrite without_logs_debug_log. auto. Qed.

(** A request that misses the cache runs the fallback chain: the response,
    the cache and the trace of [GET] are those of [fallback_chain] on the
    three strategies. *)
Lemma GET_miss rt w user debug cache c1 looked :
  user ≠ EmptyString →
  getCachedData (Date_now w AtLookup) ("instagram-" +:+ user) cache = (None, c1, looked) →
  let isDebugMode := bool_decide (debug = Some "true") in
  let key := "instagram-" +:+ user in
  let chain := fallback_chain (strategies rt w isDebugMode user) in
  let r := GET rt w {| username_param := Some user; debug_param := debug |} cache in
  response r
  = match chain_profile chain with
    | Some profile => {| status := 200; body := Profile profile |}
    | None =>
        {| status := 500;
           body := Failure "Failed to fetch Instagram data using any available method"
                     user (chain_errors chain)
                     "Instagram data extraction failed. The user profile might be private, not exist, or Instagram may have updated their API." |}
    end ∧
  cache_after r
  = match chain_profile chain with
    | Some profile =>
        <[key := {| data := profile;
                    cached_at := Date_now w (success_phase rt w isDebugMode user) |}]> c1
    | None => c1
    end ∧
  without_logs (trace r)
  = without_logs looked ++ chain_events chain ++
    match chain_profile chain with
    | Some _ => [CacheSet key]
    | None => []
    end.
Proof.
  intros Huser Hmiss isDebugMode key chain r.
  destruct user as [|c user]; [congruence|].
  subst r chain key. unfold GET, strategies, success_phase.
  cbv beta iota zeta delta [username_param debug_param].
  fold isDebugMode. rewrite Hmiss.
  destruct (method1_debug w isDebugMode (String c user)) as [_ Ho1].
  destruct (method2_debug w isDebugMode (String c user)) as [_ Ho2].
  destruct (method3_debug rt w isDebugMode (String c user)) as [_ Ho3].
  destruct (method1 w isDebugMode (String c user)) as [a1 o1].
  destruct (method2 w isDebugMode (String c user)) as [a2 o2].
  destruct (method3 rt w isDebugMode (String c user)) as [a3 o3].
  cbn [fst snd] in *.
  pose proof (without_logs_catch_clause "GraphQL API error: " isDebugMode a1) as [Hc1 Hk1].
  pose proof (without_logs_catch_clause "Alternative API error: " isDebugMode a2) as [Hc2 Hk2].
  pose proof (without_logs_catch_clause "HTML scraping error: " isDebugMode a3) as [Hc3 Hk3].
  destruct (catch_clause "GraphQL API error: " isDebugMode a1) as [e1 k1].
  destruct (catch_clause "Alternative API error: " isDebugMode a2) as [e2 k2].
  destruct (catch_clause "HTML scraping error: " isDebugMode a3) as [e3 k3].
  cbn [fst snd] in *.
  destruct a1, a2, a3; subst; cbn [fallback_chain chain_profile chain_errors chain_events
      served response cache_after trace];
    rewrite ?without_logs_app, ?Ho1, ?Ho2, ?Ho3, ?Hk1, ?Hk2, ?Hk3;
    rewrite <- ?app_assoc; cbn [without_logs app]; rewrite ?app_nil_r;
    split_and!; reflexivity.
Qed.

Lemma getCachedData_events now key cache :
  let looked := (getCachedData now key cache).2 in
  without_logs looked = looked ∧ fetches looked = [] ∧ skeleton looked = [].
Proof.
  unfold getCachedData. destruct (cache !! key) as [entry|]; [|auto].
  destruct (_ <? _); auto.
Qed.

Lemma fallback_chain_fetches strategies :
  fetches (chain_events (fallback_chain strategies)) `prefix_of` strategies.*1.*1.
Proof.
  induction strategies as [|[[url label] a] rest IH]; simpl; [reflexivity|].
  destruct a; simpl.
  - exists (rest.*1.*1). reflexivity.
  - apply prefix_cons, IH.
  - apply prefix_cons, IH.
Qed.

Lemma fallback_chain_skeleton strategies :
  skeleton (chain_events (fallback_chain strategies)) = chain_events (fallback_chain strategies).
Proof.
  induction strategies as [|[[url label] a] rest IH]; simpl; [reflexivity|].
  destruct a; simpl; rewrite ?IH; reflexivity.
Qed.

Lemma processUserData_fields userData now profile :
  processUserData userData now = Ok profile →
  username profile = prop userData "username" ||| VStr empty ∧
  postsCount profile
  = opt_get (prop userData "edge_owner_to_timeline_media") "count" ||| VNum 0.
Proof.
  unfold processUserData. intros H.
  apply bind_Ok in H as (media & Hmedia & H).
  apply get_Ok in Hmedia as (-> & _).
  apply bind_Ok in H as (ps & _ & H).
  inversion H. auto.
Qed.

(** ** The order of the strategies (claim C3) *)


(** ** The aggregated failure (claim C2) *)

(** When each of the three strategies ends in its [catch] clause the
    response carries the three messages, in the order of the attempts, and
    the requested name. *)
Lemma GET_three_errors rt w user debug cache m1 m2 m3 :
  user ≠ EmptyString →
  (getCachedData (Date_now w AtLookup) ("instagram-" +:+ user) cache).1.1 = None →
  let isDebugMode := bool_decide (debug = Some "true") in
  (method1 w isDebugMode user).1 = Caught m1 →
  (method2 w isDebugMode user).1 = Caught m2 →
  (method3 rt w isDebugMode user).1 = Caught m3 →
  response (GET rt w {| username_param := Some user; debug_param := debug |} cache)
  = {| status := 500;
       body := Failure "Failed to fetch Instagram data using any available method"
                 user
                 ["GraphQL API error: " +:+ m1;
                  "Alternative API error: " +:+ m2;
                  "HTML scraping error: " +:+ m3]
                 "Instagram data extraction failed. The user profile might be private, not exist, or Instagram may have updated their API." |}.
Proof.
  intros Huser Hmiss isDebugMode H1 H2 H3.
  destruct (getCachedData (Date_now w AtLookup) ("instagram-" +:+ user) cache)
    as [[cached c1] looked] eqn:Hget.
  cbn [fst snd] in *. subst cached.
  destruct (GET_miss rt w user debug cache c1 looked Huser Hget) as (Hresp & _ & _).
  fold isDebugMode in Hresp. rewrite Hresp. unfold strategies. rewrite H1, H2, H3.
  reflexivity.
Qed.

(** C2, on the handler.  The two endpoints answer 200 with a body that has
    no user object and the page yields no name: all three strategies are
    attempted, none succeeds, and the list of errors of the 500 response
    has one entry, not three.  The [try] blocks of Strategy A and of
    Strategy B end without a message when the user object is missing; only
    Strategy C throws in that case. *)
Theorem GET_silent_strategies :
  let r := GET bare_page quiet_upstream (ask "jane") ∅ in
  fetches (trace r) = [graphql_url "jane"; alternative_url "jane"; scraping_url "jane"] ∧
  response r
  = {| status := 500;
       body := Failure "Failed to fetch Instagram data using any available method"
                 "jane"
                 ["HTML scraping error: Could not extract user data from HTML"]
                 "Instagram data extraction failed. The user profile might be private, not exist, or Instagram may have updated their API." |}.
Proof. vm_compute. split; reflexivity. Qed.

(** ** The debug flag (claim C10) *)

(** C10. The status and the body of the response, the cache afterwards and
    everything the handler does except for its console output are the same
    for any two values of the [debug] parameter. *)
Theorem GET_debug_independent (rt : Runtime) (w : World) (user : option string)
    (debug1 debug2 : option string) (cache : gmap string CacheData) :
  let r1 := GET rt w {| username_param := user; debug_param := debug1 |} cache in
  let r2 := GET rt w {| username_param := user; debug_param := debug2 |} cache in
  response r1 = response r2 ∧
  cache_after r1 = cache_after r2 ∧
  without_logs (trace r1) = without_logs (trace r2).
Proof.
  intros r1 r2. subst r1 r2.
  destruct user as [[|c user]|]; try (split_and!; reflexivity).
  destruct (getCachedData (Date_now w AtLookup) ("instagram-" +:+ String c user) cache)
    as [[[cached|] c1] looked] eqn:Hget.
  - unfold GET. cbv beta iota zeta delta [username_param debug_param].
    rewrite Hget. split_and!; reflexivity.
  - assert (String c user ≠ EmptyString) as Huser by discriminate.
    destruct (GET_miss rt w _ debug1 cache c1 looked Huser Hget) as (-> & -> & ->).
    destruct (GET_miss rt w _ debug2 cache c1 looked Huser Hget) as (-> & -> & ->).
    rewrite (strategies_debug rt w (bool_decide (debug1 = _))),
      (strategies_debug rt w (bool_decide (debug2 = _))),
      (success_phase_debug rt w (bool_decide (debug1 = _))),
      (success_phase_debug rt w (bool_decide (debug2 = _))).
    split_and!; reflexivity.
Qed.

(** Every request refused and no [debug] parameter: the three messages are
    in the body. *)
Lemma GET_errors_without_debug :
  body (response (GET bare_page refusing_upstream (ask "jane") ∅))
  = Failure "Failed to fetch Instagram data using any available method"
      "jane"
      ["GraphQL API error: Request failed with status code 401";
       "Alternative API error: Request failed with status code 401";
       "HTML scraping error: Request failed with status code 401"]
      "Instagram data extraction failed. The user profile might be private, not exist, or Instagram may have updated their API.".
Proof. vm_compute. reflexivity. Qed.

(** ** The response cache (claim C4) *)

(** C4. A request for a name whose cache entry is younger than
    [CACHE_DURATION] is answered with the cached data, sends no request and
    leaves the cache as it is.  An entry whose age is [CACHE_DURATION] or
    more is not returned: [getCachedData] deletes it and answers [null], and
    the handler goes on exactly as if the entry had not been there, starting
    with the request of Strategy A. *)
Theorem GET_cache (rt : Runtime) (w : World) (user : string) (debug : option string)
    (cache : gmap string CacheData) (entry : CacheData) :
  user ≠ EmptyString →
  cache !! ("instagram-" +:+ user) = Some entry →
  let key := "instagram-" +:+ user in
  let request := {| username_param := Some user; debug_param := debug |} in
  let r := GET rt w request cache in
  let age := Date_now w AtLookup - cached_at entry in
  (age < CACHE_DURATION →
     response r = {| status := 200; body := Profile (data entry) |} ∧
     fetches (trace r) = [] ∧
     cache_after r = cache) ∧
  (CACHE_DURATION ≤ age →
     getCachedData (Date_now w AtLookup) key cache
     = (None, delete key cache, [CacheHas key; CacheGet key; CacheDelete key]) ∧
     (∃ later, fetches (trace r) = graphql_url user :: later) ∧
     response r = response (GET rt w request (delete key cache)) ∧
     cache_after r = cache_after (GET rt w request (delete key cache))).
Proof.
  intros Huser Hentry key request r age. subst key. split; intros Hage.
  - subst r request. unfold GET. cbv beta iota zeta delta [username_param debug_param].
    destruct user as [|c user]; [congruence|].
    unfold getCachedData. rewrite Hentry. fold age.
    apply Z.ltb_lt in Hage. rewrite Hage. split_and!; reflexivity.
  - set (key := "instagram-" +:+ user) in *.
    assert (getCachedData (Date_now w AtLookup) key cache
            = (None, delete key cache, [CacheHas key; CacheGet key; CacheDelete key])) as Hget.
    { unfold getCachedData. rewrite Hentry. fold age.
      apply Z.ltb_ge in Hage. rewrite Hage. reflexivity. }
    assert (getCachedData (Date_now w AtLookup) key (delete key cache)
            = (None, delete key cache, [CacheHas key])) as Hget'.
    { unfold getCachedData. rewrite lookup_delete_eq. reflexivity. }
    destruct (GET_miss rt w user debug cache _ _ Huser Hget) as (Hresp & Hcache & Htrace).
    destruct (GET_miss rt w user debug _ _ _ Huser Hget') as (Hresp' & Hcache' & _).
    fold request r in Hresp, Hcache, Htrace. fold request in Hresp', Hcache'.
    split_and!; [exact Hget | | congruence | congruence].
    rewrite <- fetches_without_logs, Htrace. unfold strategies.
    destruct (method1 w _ user).1; simpl; eauto.
Qed.

(** ** Parse failures in the pattern loop (claim C7) *)

Lemma tier1_all_fail rt html isDebug regexes :
  (∀ regex m1 m2 text,
     regex ∈ regexes →
     String_match rt html regex = Some (m1, m2) →
     of_opt m2 ||| of_opt m1 = VStr text →
     JSON_parse rt text = None) →
  (tier1 rt html isDebug regexes).1 = VNull.
Proof.
  induction regexes as [|regex rest IH]; intros Hfail; simpl; [reflexivity|].
  assert ((tier1 rt html isDebug rest).1 = VNull) as Hrest.
  { apply IH. intros r m1 m2 text Hin. apply Hfail. right. exact Hin. }
  destruct (String_match rt html regex) as [[m1 m2]|] eqn:Hm; [|exact Hrest].
  destruct (truthy _); [|exact Hrest].
  destruct (of_opt m2 ||| of_opt m1) as [| | | |text| |] eqn:Hs; try exact Hrest.
  rewrite (Hfail regex m1 m2 text (list_elem_of_here _ _) Hm Hs).
  destruct (tier1 rt html isDebug rest) as [c out]. exact Hrest.
Qed.

(** C7. In the pattern loop a capture that [JSON.parse] rejects is
    skipped: the loop gives what it gives on the patterns that follow.
    When every capture of the document is rejected, the loop ends with no
    data and [extractInstagramData] returns what the metadata fallback
    returns; nothing is thrown by the loop. *)
Theorem tier1_parse_failure_swallowed (rt : Runtime) (html : string) (isDebug : bool) :
  (∀ regex rest m1 m2 text,
     String_match rt html regex = Some (m1, m2) →
     of_opt m2 ||| of_opt m1 = VStr text →
     JSON_parse rt text = None →
     (tier1 rt html isDebug (regex :: rest)).1 = (tier1 rt html isDebug rest).1) ∧
  ((∀ regex m1 m2 text,
      regex ∈ dataRegexes →
      String_match rt html regex = Some (m1, m2) →
      of_opt m2 ||| of_opt m1 = VStr text →
      JSON_parse rt text = None) →
   ∀ now, (extractInstagramData rt (VStr html) isDebug now).1 = tier2 rt html).
Proof.
  split.
  - intros regex rest m1 m2 text Hm Hs Hp. simpl. rewrite Hm.
    destruct (truthy _); [|reflexivity].
    rewrite Hs, Hp. destruct (tier1 rt html isDebug rest). reflexivity.
  - intros Hfail now. unfold extractInstagramData.
    pose proof (tier1_all_fail rt html isDebug dataRegexes Hfail) as Hnull.
    destruct (tier1 rt html isDebug dataRegexes) as [c out]. simpl in Hnull. subst c.
    reflexivity.
Qed.

(** ** The username of a record (claim C6) *)

Lemma leading_at_or_empty v : leading_at (v ||| VStr empty) = leading_at v.
Proof.
  unfold js_or. destruct (truthy v) eqn:E; [reflexivity|].
  destruct v as [| | | |s| |]; try reflexivity.
  destruct s; [reflexivity | discriminate].
Qed.

Lemma tier2_username rt html profile :
  tier2 rt html = Ok profile →
  let ldJsonData := find_ld_json rt (ld_json_scripts rt html) in
  username profile
  = if truthy ldJsonData
    then prop ldJsonData "name" ||| og_username rt html ||| VStr empty
    else og_username rt html ||| VStr empty.
Proof.
  intros H ldJsonData. unfold tier2 in H. cbv zeta in H. fold ldJsonData in H.
  destruct (truthy ldJsonData).
  - ok_steps H. inversion H. reflexivity.
  - inversion H. reflexivity.
Qed.



(** The JSON-LD extractor of the other variant removes the first ["@"] of
    [alternateName], and only the first. *)
Lemma JsonLdPerson_username :
  JsonLdPerson.remove_first_at "@jane" = "jane" ∧
  JsonLdPerson.remove_first_at "@@jane" = "@jane".
Proof. split; reflexivity. Qed.

(** ** The theorems at sample inputs *)


Lemma findUserData_bounded_witness :
  findUserData_log nested 6 = (None, []) ∧ findUserData nested 6 = None.
Proof. apply (findUserData_bounded nested 6). reflexivity. Defined.

(** The user object of [nested] lies six levels below the top: the search
    does not reach it. *)
Lemma findUserData_nested :
  findUserData nested 0 = None ∧
  (findUserData_log nested 0).2.*1 = [0; 1; 2; 3; 4; 5].
Proof. vm_compute. split; reflexivity. Qed.


Lemma GET_cache_witness :
  (let r := GET bare_page jane_upstream (ask "jane") warm_cache in
   response r = {| status := 200; body := Profile jane_profile |} ∧
   fetches (trace r) = [] ∧
   cache_after r = warm_cache) ∧
  (let r := GET bare_page jane_upstream (ask "jane") stale_cache in
   ∃ later, fetches (trace r) = graphql_url "jane" :: later).
Proof.
  split.
  - destruct (GET_cache bare_page jane_upstream "jane" None warm_cache
                {| data := jane_profile; cached_at := 1699999999000 |}) as [H _];
      [discriminate | apply lookup_singleton_eq |].
    apply H. reflexivity.
  - destruct (GET_cache bare_page jane_upstream "jane" None stale_cache
                {| data := jane_profile; cached_at := 0 |}) as [_ H];
      [discriminate | apply lookup_singleton_eq |].
    apply H. discriminate.
Defined.

Lemma tier1_parse_failure_swallowed_witness :
  (tier1 broken_page "<html></html>" false dataRegexes).1
  = (tier1 broken_page "<html></html>" false (tail dataRegexes)).1 ∧
  (extractInstagramData broken_page (VStr "<html></html>") false 0).1
  = tier2 broken_page "<html></html>".
Proof.
  destruct (tier1_parse_failure_swallowed broken_page "<html></html>" false) as [H1 H2].
  split.
  - apply (H1 SharedData (tail dataRegexes) (Some "{entry_data:{ProfilePage:[") None
             "{entry_data:{ProfilePage:["); reflexivity.
  - apply H2. intros regex m1 m2 text _ _ _. reflexivity.
Defined.



(** Twenty-three requests of the local client, one a second: the first
    twenty pass, the others are answered 429. *)
Lemma serve_burst_example :
  RateLimiter.rejected <$>
    (RateLimiter.serve
       (RateLimiter.stamp RateLimiter.local_request ((λ n, 1000 * Z.of_nat n) <$> seq 1 23))
       []).1
  = replicate 20 false ++ replicate 3 true.
Proof. vm_compute. reflexivity. Qed.

(** ** More on the rate limiter *)

Module RateLimiterMore.
Import RateLimiter RateLimiterFacts.

Lemma request_key_inj ip ip' : request_key ip = request_key ip' → ip = ip'.
Proof. unfold request_key. simpl. intros H. injection H. auto. Qed.

Lemma cooldown_key_inj ip ip' : cooldown_key ip = cooldown_key ip' → ip = ip'.
Proof. unfold cooldown_key. simpl. intros H. injection H. auto. Qed.

Lemma keys_apart ip ip' : cooldown_key ip ≠ request_key ip'.
Proof. unfold cooldown_key, request_key. simpl. discriminate. Qed.

Lemma lru_remove_length k c : (length (lru_remove k c) ≤ length c)%nat.
Proof.
  induction c as [|e c IH]; simpl; [lia|].
  destruct (negb _); simpl; lia.
Qed.

Lemma lru_get_length now k c : (length (lru_get now k c).2 ≤ length c)%nat.
Proof.
  unfold lru_get. destruct (lru_find k c) as [e|] eqn:Ef; simpl; [|lia].
  assert (length (lru_remove k c) < length c)%nat as Hlt.
  { clear -Ef. induction c as [|e' c IH]; simpl in *; [discriminate|].
    destruct (String.eqb (lru_key e') k) eqn:E; simpl.
    - pose proof (lru_remove_length k c). lia.
    - specialize (IH Ef). lia. }
  destruct (is_stale now e); simpl; lia.
Qed.

Lemma lru_set_length max now k v ttl c :
  (length (lru_set max now k v ttl c) ≤ S (length c))%nat.
Proof.
  unfold lru_set. destruct (lru_find k c); simpl.
  - pose proof (lru_remove_length k c). lia.
  - destruct (length c <? max)%nat; [lia|].
    rewrite removelast_firstn_len, length_take. lia.
Qed.

Lemma lru_find_set_ne_room max now k k' v ttl c :
  k ≠ k' → (length c < max)%nat →
  lru_find k' (lru_set max now k v ttl c) = lru_find k' c.
Proof.
  intros Hne Hroom. unfold lru_set.
  assert (String.eqb k k' = false) as E by (apply String.eqb_neq, Hne).
  destruct (lru_find k c); simpl; rewrite E.
  - apply lru_find_remove_ne, Hne.
  - apply Nat.ltb_lt in Hroom. rewrite Hroom. reflexivity.
Qed.

(** The entry at the head of the cache survives the arrival of another
    key, as long as the cache may hold two entries. *)
Lemma lru_find_set_head max now k v ttl e c :
  (2 ≤ max)%nat → k ≠ lru_key e →
  lru_find (lru_key e) (lru_set max now k v ttl (e :: c)) = Some e.
Proof.
  intros Hmax Hne. unfold lru_set.
  assert (String.eqb k (lru_key e) = false) as E by (apply String.eqb_neq, Hne).
  assert (String.eqb (lru_key e) k = false) as E'.
  { apply String.eqb_neq. congruence. }
  destruct (lru_find k (e :: c)) eqn:Ef; cbn [lru_find lru_key]; rewrite E.
  - simpl. rewrite E'. simpl. rewrite String.eqb_refl. reflexivity.
  - destruct (length (e :: c) <? max)%nat eqn:El.
    + simpl. rewrite String.eqb_refl. reflexivity.
    + apply Nat.ltb_ge in El. destruct c as [|e' c']; [simpl in El; lia|].
      simpl. rewrite String.eqb_refl. reflexivity.
Qed.

Lemma lru_set_cons max now k v ttl c :
  ∃ rest, lru_set max now k v ttl c
          = {| lru_key := k; lru_value := v; lru_start := now; lru_ttl := ttl |} :: rest.
Proof. unfold lru_set. destruct (lru_find k c); eauto. Qed.

Lemma lru_find_get_fresh now k c e :
  lru_find k c = Some e → is_stale now e = false → lru_find k (lru_get now k c).2 = Some e.
Proof.
  intros Hf Hs. unfold lru_get. rewrite Hf, Hs. simpl.
  rewrite (lru_find_key _ _ _ Hf), String.eqb_refl. reflexivity.
Qed.

Lemma lru_find_get_stale now k c e :
  lru_find k c = Some e → is_stale now e = true → lru_find k (lru_get now k c).2 = None.
Proof.
  intros Hf Hs. unfold lru_get. rewrite Hf, Hs. simpl. apply lru_find_remove_eq.
Qed.

Lemma LRU_MAX_two : (2 ≤ LRU_MAX)%nat.
Proof. unfold LRU_MAX. lia. Qed.

(** A request that is counted: what it is answered and what it leaves in
    the cache. *)
Lemma count_step request now k cache :
  String.prefix "/api/instagram-proxy" (pathname request) = true →
  let ip := client_ip request in
  cooling_down now ip cache = false →
  lru_find (cooldown_key ip) (lru_get now (cooldown_key ip) cache).2 = None →
  request_count now ip cache = k →
  let r := middleware now request cache in
  (k < REQUESTS_PER_IP_LIMIT → r.1 = quota_headers k ∧ counted_at ip now (k + 1) r.2) ∧
  (REQUESTS_PER_IP_LIMIT ≤ k →
   r.1 = Json 429 "Rate limit exceeded" "Too many requests, please try again later" ∧
   limited ip now r.2).
Proof.
  intros Hpath ip Hcold Hgone Hk r. subst r.
  rewrite (middleware_counting _ _ _ Hpath Hcold). fold ip. rewrite Hk.
  set (c2 := (lru_get now (request_key ip) (lru_get now (cooldown_key ip) cache).2).2).
  assert (lru_find (cooldown_key ip) c2 = None) as Hc2.
  { apply lru_find_get_None, Hgone. }
  assert (request_key ip ≠ cooldown_key ip) as Hne.
  { intros Heq. symmetry in Heq. revert Heq. apply keys_differ. }
  split; intros Hlt.
  - apply Z.leb_gt in Hlt. rewrite Hlt. split; [reflexivity|]. split; simpl.
    + apply lru_find_set_None; [exact Hne | exact Hc2].
    + apply lru_find_set_eq.
  - assert ((REQUESTS_PER_IP_LIMIT <=? k) = true) as Hle by (apply Z.leb_le, Hlt).
    rewrite Hle. split; [reflexivity|]. simpl.
    exists (k + 1). split; [lia|]. split.
    + destruct (lru_set_cons LRU_MAX now (request_key ip) (SNum (k + 1)) LRU_TTL c2)
        as [rest ->].
      apply (lru_find_set_head LRU_MAX now (cooldown_key ip) (SBool true) COOLDOWN_PERIOD
               {| lru_key := request_key ip; lru_value := SNum (k + 1);
                  lru_start := now; lru_ttl := LRU_TTL |} rest LRU_MAX_two).
      simpl. apply keys_differ.
    + apply lru_find_set_eq.
Qed.

Lemma counted_at_count ip t k cache now :
  counted_at ip t k cache → now - t ≤ LRU_TTL →
  cooling_down now ip cache = false ∧
  lru_find (cooldown_key ip) (lru_get now (cooldown_key ip) cache).2 = None ∧
  request_count now ip cache = k.
Proof.
  intros [Hcold Hcount] Hnow. split_and!.
  - unfold cooling_down, lru_peek. rewrite Hcold. reflexivity.
  - apply lru_find_get_None, Hcold.
  - unfold request_count, lru_peek. rewrite Hcount. unfold is_stale. simpl.
    rewrite (not_stale _ _ _ Hnow). simpl.
    destruct (k =? 0) eqn:E; simpl; [|reflexivity].
    apply Z.eqb_eq in E. auto.
Qed.

Lemma unknown_count ip cache now :
  lru_find (cooldown_key ip) cache = None →
  lru_find (request_key ip) cache = None →
  cooling_down now ip cache = false ∧
  lru_find (cooldown_key ip) (lru_get now (cooldown_key ip) cache).2 = None ∧
  request_count now ip cache = 0.
Proof.
  intros Hcold Hnone. split_and!.
  - unfold cooling_down, lru_peek. rewrite Hcold. reflexivity.
  - apply lru_find_get_None, Hcold.
  - unfold request_count, lru_peek. rewrite Hnone. reflexivity.
Qed.

Lemma last_cons_default {A} (a d : A) l : List.last (a :: l) d = List.last l a.
Proof.
  revert a d. induction l as [|b l IH]; intros a d; [reflexivity|].
  change (List.last (a :: b :: l) d) with (List.last (b :: l) d).
  rewrite !IH. reflexivity.
Qed.

(** The answers to requests that keep the counter alive, as long as the
    limit is not reached. *)
Lemma serve_counted request times :
  String.prefix "/api/instagram-proxy" (pathname request) = true →
  ∀ t k cache,
    counted_at (client_ip request) t k cache →
    paced LRU_TTL t times →
    k + Z.of_nat (length times) ≤ REQUESTS_PER_IP_LIMIT →
    let r := serve (stamp request times) cache in
    r.1 = (λ i : nat, quota_headers (k + Z.of_nat i)) <$> seq 0 (length times) ∧
    counted_at (client_ip request) (List.last times t) (k + Z.of_nat (length times)) r.2.
Proof.
  intros Hpath. induction times as [|t' times IH]; intros t k cache Hk Hp Hlen.
  - simpl. rewrite Z.add_0_r. auto.
  - destruct Hp as [Ht' Hp]. cbn [length] in Hlen.
    destruct (counted_at_count _ _ _ _ t' Hk Ht') as (Hcold & Hgone & Hcount).
    destruct (count_step request t' k cache Hpath Hcold Hgone Hcount) as [Hstep _].
    destruct Hstep as [Hr Hnext]; [lia|].
    specialize (IH t' (k + 1) (middleware t' request cache).2 Hnext Hp ltac:(lia)).
    cbn [stamp fmap list_fmap serve]. fold (stamp request times).
    destruct (middleware t' request cache) as [r c]. cbn [fst snd] in *.
    destruct (serve (stamp request times) c) as [rs c']. cbn [fst snd] in *.
    destruct IH as [IH1 IH2]. split.
    + cbn [length seq fmap list_fmap]. rewrite Hr, IH1, Z.add_0_r. f_equal.
      rewrite <- seq_shift, <- list_fmap_compose. apply list_fmap_ext.
      intros i x _. simpl. f_equal. lia.
    + rewrite last_cons_default.
      replace (k + Z.of_nat (length (t' :: times)))
        with (k + 1 + Z.of_nat (length times)) by (cbn [length]; lia).
      exact IH2.
Qed.



(** A request of a limited client that comes while the counter is still
    alive is answered 429: by the cooldown flag if that has not expired,
    and otherwise by the counter, which then records a new cooldown. *)
Lemma limited_step request now tc cache :
  String.prefix "/api/instagram-proxy" (pathname request) = true →
  limited (client_ip request) tc cache →
  now - tc ≤ LRU_TTL →
  let r := middleware now request cache in
  rejected r.1 = true ∧
  ((now - tc ≤ COOLDOWN_PERIOD ∧ limited (client_ip request) tc r.2) ∨
   (COOLDOWN_PERIOD < now - tc ∧ limited (client_ip request) now r.2)).
Proof.
  intros Hpath (n & Hn & Hcount & Hflag) Hnow r. subst r.
  set (ip := client_ip request) in *.
  destruct (Z_le_gt_dec (now - tc) COOLDOWN_PERIOD) as [Hin|Hout].
  - assert (cooling_down now ip cache = true) as Hcool.
    { unfold cooling_down, lru_peek. rewrite Hflag. unfold is_stale. simpl.
      rewrite (not_stale _ _ _ Hin). reflexivity. }
    rewrite (middleware_cooling _ _ _ Hpath Hcool). fold ip. split; [reflexivity|].
    left. split; [exact Hin|]. exists n. split_and!; [exact Hn | |].
    + simpl. rewrite lru_find_get_ne; [exact Hcount | apply keys_differ].
    + simpl. apply lru_find_get_fresh; [exact Hflag|].
      unfold is_stale. simpl. apply not_stale, Hin.
  - assert (is_stale now {| lru_key := cooldown_key ip; lru_value := SBool true;
                            lru_start := tc; lru_ttl := COOLDOWN_PERIOD |} = true) as Hstale.
    { unfold is_stale. simpl. apply Z.ltb_lt. lia. }
    assert (cooling_down now ip cache = false) as Hcold.
    { unfold cooling_down, lru_peek. rewrite Hflag, Hstale. reflexivity. }
    assert (request_count now ip cache = n) as Hk.
    { unfold request_count, lru_peek. rewrite Hcount. unfold is_stale. simpl.
      rewrite (not_stale _ _ _ Hnow). simpl.
      destruct (n =? 0) eqn:E; simpl; [|reflexivity].
      apply Z.eqb_eq in E. unfold REQUESTS_PER_IP_LIMIT in Hn. lia. }
    destruct (count_step request now n cache Hpath Hcold
                (lru_find_get_stale _ _ _ _ Hflag Hstale) Hk) as [_ Hstep].
    destruct (Hstep Hn) as [Hr Hlim]. fold ip in Hr, Hlim.
    rewrite Hr. split; [reflexivity|]. right. split; [lia | exact Hlim].
Qed.

Lemma serve_limited request times :
  String.prefix "/api/instagram-proxy" (pathname request) = true →
  ∀ tc prev cache,
    limited (client_ip request) tc cache →
    prev - tc ≤ COOLDOWN_PERIOD →
    paced (LRU_TTL - COOLDOWN_PERIOD) prev times →
    rejected <$> (serve (stamp request times) cache).1 = replicate (length times) true.
Proof.
  intros Hpath. induction times as [|t times IH]; intros tc prev cache Hlim Hprev Hp;
    [reflexivity|].
  destruct Hp as [Ht Hp].
  destruct (limited_step request t tc cache Hpath Hlim ltac:(lia)) as [Hrej Hnext].
  cbn [stamp fmap list_fmap serve]. fold (stamp request times).
  destruct (middleware t request cache) as [r c]. cbn [fst snd] in *.
  assert (rejected <$> (serve (stamp request times) c).1 = replicate (length times) true)
    as Hrest.
  { destruct Hnext as [[Hin Hlim']|[Hout Hlim']].
    - apply (IH tc t c Hlim' Hin Hp).
    - apply (IH t t c Hlim'); [unfold COOLDOWN_PERIOD; lia | exact Hp]. }
  destruct (serve (stamp request times) c) as [rs c']. cbn [fst snd] in *.
  rewrite fmap_cons, Hrej, Hrest. reflexivity.
Qed.


(** A limited client that stays silent for more than fifteen minutes is
    let through again with a full quota: the stale flag and the stale
    counter are dropped and the count starts again at 1. *)
Theorem limited_client_readmitted (request : NextRequest) (tc now : Z)
    (cache : list lru_entry) :
  String.prefix "/api/instagram-proxy" (pathname request) = true →
  limited (client_ip request) tc cache →
  LRU_TTL < now - tc →
  let r := middleware now request cache in
  r.1 = quota_headers 0 ∧ counted_at (client_ip request) now 1 r.2.
Proof.
  intros Hpath (n & Hn & Hcount & Hflag) Hnow r. subst r.
  set (ip := client_ip request) in *.
  assert (is_stale now {| lru_key := cooldown_key ip; lru_value := SBool true;
                          lru_start := tc; lru_ttl := COOLDOWN_PERIOD |} = true) as Hstale.
  { unfold is_stale. simpl. apply Z.ltb_lt. unfold LRU_TTL, COOLDOWN_PERIOD in *. lia. }
  assert (cooling_down now ip cache = false) as Hcold.
  { unfold cooling_down, lru_peek. rewrite Hflag, Hstale. reflexivity. }
  assert (request_count now ip cache = 0) as Hk.
  { unfold request_count, lru_peek. rewrite Hcount. unfold is_stale. simpl.
    apply Z.ltb_lt in Hnow. rewrite Hnow. reflexivity. }
  destruct (count_step request now 0 cache Hpath Hcold
              (lru_find_get_stale _ _ _ _ Hflag Hstale) Hk) as [Hstep _].
  apply Hstep. unfold REQUESTS_PER_IP_LIMIT. lia.
Qed.

(** Clients do not share state: while the cache has room for two more
    entries, a request leaves what the limiter holds for every other client
    as it was. *)
Theorem middleware_other_client (now : Z) (request : NextRequest) (cache : list lru_entry)
    (other : string) :
  other ≠ client_ip request →
  (length cache + 2 ≤ LRU_MAX)%nat →
  let cache' := (middleware now request cache).2 in
  ∀ t, request_count t other cache' = request_count t other cache ∧
       cooling_down t other cache' = cooling_down t other cache.
Proof.
  intros Hother Hroom cache'.
  assert (∀ k, k ≠ cooldown_key (client_ip request) → k ≠ request_key (client_ip request) →
               lru_find k cache' = lru_find k cache) as Hframe.
  { intros k Hk1 Hk2. subst cache'.
    destruct (String.prefix "/api/instagram-proxy" (pathname request)) eqn:Hpath.
    - destruct (cooling_down now (client_ip request) cache) eqn:Hcool.
      + rewrite (middleware_cooling _ _ _ Hpath Hcool). simpl.
        apply lru_find_get_ne. congruence.
      + rewrite (middleware_counting _ _ _ Hpath Hcool).
        set (c1 := (lru_get now (cooldown_key (client_ip request)) cache).2).
        set (c2 := (lru_get now (request_key (client_ip request)) c1).2).
        pose proof (lru_get_length now (cooldown_key (client_ip request)) cache) as H1.
        pose proof (lru_get_length now (request_key (client_ip request)) c1) as H2.
        fold c1 in H1. fold c2 in H2.
        assert (lru_find k c2 = lru_find k cache) as Hc2.
        { subst c2 c1. rewrite !lru_find_get_ne; [reflexivity | congruence | congruence]. }
        pose proof (lru_set_length LRU_MAX now (request_key (client_ip request))
                      (SNum (request_count now (client_ip request) cache + 1)) LRU_TTL c2)
          as H3.
        destruct (REQUESTS_PER_IP_LIMIT <=? _); simpl.
        * rewrite !lru_find_set_ne_room; [exact Hc2 | congruence | lia | congruence | lia].
        * rewrite lru_find_set_ne_room; [exact Hc2 | congruence | lia].
    - unfold middleware. rewrite Hpath. reflexivity. }
  intros t. unfold request_count, cooling_down, lru_peek.
  rewrite !Hframe; [auto | | | |].
  - intros Heq. apply cooldown_key_inj in Heq. auto.
  - apply keys_apart.
  - intros Heq. symmetry in Heq. revert Heq. apply keys_apart.
  - intros Heq. apply request_key_inj in Heq. auto.
Qed.

End RateLimiterMore.

(** ** More on the handler and its cache *)

Lemma getCachedData_miss now key (cache c1 : gmap string CacheData) looked :
  getCachedData now key cache = (None, c1, looked) →
  c1 !! key = None ∧ ∀ key', key' ≠ key → c1 !! key' = cache !! key'.
Proof.
  unfold getCachedData. destruct (cache !! key) as [entry|] eqn:Hentry.
  - destruct (_ <? _); intros H; inversion H; subst.
    split; [apply lookup_delete_eq|]. intros key' Hne. apply lookup_delete_ne. congruence.
  - intros H; inversion H; subst. auto.
Qed.

Lemma getCachedData_hit now key (cache c1 : gmap string CacheData) looked profile :
  getCachedData now key cache = (Some profile, c1, looked) →
  c1 = cache ∧ fetches looked = [] ∧
  ∃ entry, cache !! key = Some entry ∧ data entry = profile.
Proof.
  unfold getCachedData. destruct (cache !! key) as [entry|] eqn:Hentry.
  - destruct (_ <? _); intros H; inversion H; subst. eauto.
  - intros H; inversion H.
Qed.

(** What [GET] does when the cache answers. *)
Lemma GET_hit rt w user debug (cache c1 : gmap string CacheData) looked profile :
  user ≠ EmptyString →
  getCachedData (Date_now w AtLookup) ("instagram-" +:+ user) cache
  = (Some profile, c1, looked) →
  GET rt w {| username_param := Some user; debug_param := debug |} cache
  = {| response := {| status := 200; body := Profile profile |};
       cache_after := c1;
       trace := looked ++ [Log ("Serving cached Instagram data for " +:+ user)] |}.
Proof.
  intros Huser Hget. destruct user as [|c user]; [congruence|].
  unfold GET. cbv beta iota zeta delta [username_param debug_param].
  rewrite Hget. reflexivity.
Qed.

Lemma method3_not_fell rt w b user : (method3 rt w b user).1 ≠ FellThrough.
Proof.
  unfold method3. destruct (axios_get w (scraping_url user)) as [html|message];
    [|discriminate].
  destruct (extractInstagramData rt html b _) as [[jsonData|message] logged];
    [|discriminate].
  destruct (truthy (username jsonData)); discriminate.
Qed.

Lemma method3_returned rt w b user profile :
  (method3 rt w b user).1 = Returned profile → truthy (username profile) = true.
Proof.
  unfold method3. destruct (axios_get w (scraping_url user)) as [html|message];
    [|discriminate].
  destruct (extractInstagramData rt html b _) as [[jsonData|message] logged];
    [|discriminate].
  destruct (truthy (username jsonData)) eqn:E; [|discriminate].
  intros H. inversion H. subst. exact E.
Qed.

(** The cache is written through: a profile that [GET] answers with is in
    the cache afterwards under the key of the name, and a request for the
    same name whose lookup comes less than [CACHE_DURATION] after the entry
    was stored is answered with that profile, whatever the upstream would
    answer, without any request and without touching the cache. *)
Theorem GET_write_through (rt : Runtime) (w : World) (user : string)
    (debug : option string) (cache : gmap string CacheData) (profile : InstagramUserData) :
  user ≠ EmptyString →
  let r := GET rt w {| username_param := Some user; debug_param := debug |} cache in
  response r = {| status := 200; body := Profile profile |} →
  ∃ entry,
    cache_after r !! ("instagram-" +:+ user) = Some entry ∧
    data entry = profile ∧
    ∀ rt' w' debug',
      Date_now w' AtLookup - cached_at entry < CACHE_DURATION →
      let r' := GET rt' w' {| username_param := Some user; debug_param := debug' |}
                  (cache_after r) in
      response r' = {| status := 200; body := Profile profile |} ∧
      fetches (trace r') = [] ∧
      cache_after r' = cache_after r.
Proof.
  intros Huser r Hresp.
  assert (∃ entry, cache_after r !! ("instagram-" +:+ user) = Some entry ∧
                   data entry = profile) as (entry & Hentry & Hdata).
  { subst r.
    destruct (getCachedData (Date_now w AtLookup) ("instagram-" +:+ user) cache)
      as [[[cached|] c1] looked] eqn:Hget.
    - rewrite (GET_hit rt w user debug cache c1 looked cached Huser Hget) in Hresp |- *.
      simpl in *. inversion Hresp; subst.
      apply getCachedData_hit in Hget as (-> & _ & entry & Hentry & Hdata). eauto.
    - destruct (GET_miss rt w user debug cache c1 looked Huser Hget) as (Hr & Hc & _).
      rewrite Hr in Hresp. rewrite Hc.
      destruct (chain_profile _) as [p|]; [|discriminate].
      inversion Hresp; subst. eexists. split; [apply lookup_insert_eq | reflexivity]. }
  exists entry. split_and!; [exact Hentry | exact Hdata |].
  intros rt' w' debug' Hage r'. subst r'.
  assert (getCachedData (Date_now w' AtLookup) ("instagram-" +:+ user) (cache_after r)
          = (Some profile, cache_after r,
             [CacheHas ("instagram-" +:+ user); CacheGet ("instagram-" +:+ user)])) as Hget.
  { unfold getCachedData. rewrite Hentry. apply Z.ltb_lt in Hage. rewrite Hage, Hdata.
    reflexivity. }
  rewrite (GET_hit rt' w' user debug' _ _ _ _ Huser Hget). split_and!; reflexivity.
Qed.

(** A request touches the cache entry of its own name only, and a failure
    is never cached: after an answer other than 200 the cache is as before,
    but for a stale entry of that name, which is gone. *)
Theorem GET_cache_frame (rt : Runtime) (w : World) (request : Request)
    (cache : gmap string CacheData) :
  let r := GET rt w request cache in
  (∀ key, (∀ user, username_param request = Some user → key ≠ "instagram-" +:+ user) →
          cache_after r !! key = cache !! key) ∧
  (status (response r) ≠ 200 →
   ∀ key entry, cache_after r !! key = Some entry → cache !! key = Some entry) ∧
  (status (response r) = 500 →
   ∀ user, username_param request = Some user →
           cache_after r !! ("instagram-" +:+ user) = None).
Proof.
  intros r. subst r. destruct request as [[user|] debug].
  2: { unfold GET. simpl. split_and!; [reflexivity | auto | discriminate]. }
  destruct (decide (user = EmptyString)) as [->|Huser].
  { unfold GET. simpl. split_and!; [reflexivity | auto | discriminate]. }
  destruct (getCachedData (Date_now w AtLookup) ("instagram-" +:+ user) cache)
    as [[[cached|] c1] looked] eqn:Hget.
  - rewrite (GET_hit rt w user debug cache c1 looked cached Huser Hget). simpl.
    apply getCachedData_hit in Hget as (-> & _).
    split_and!; [reflexivity | auto | discriminate].
  - destruct (GET_miss rt w user debug cache c1 looked Huser Hget) as (Hr & Hc & _).
    rewrite Hr, Hc. apply getCachedData_miss in Hget as [Hgone Hframe].
    destruct (chain_profile _) as [p|]; simpl.
    + split_and!; [|congruence|discriminate].
      intros key Hkey. rewrite lookup_insert_ne; [|intros Heq; eapply Hkey; eauto].
      apply Hframe. eapply Hkey; eauto.
    + split_and!.
      * intros key Hkey. apply Hframe. eapply Hkey; eauto.
      * intros _ key entry Hentry.
        destruct (decide (key = "instagram-" +:+ user)) as [->|Hne]; [congruence|].
        rewrite <- (Hframe key Hne). exact Hentry.
      * intros _ user' Heq. inversion Heq; subst. exact Hgone.
Qed.

(** The list of errors of a 500 answer: all three requests were sent; the
    list has one entry for each strategy whose [catch] clause ran, in the
    order of the strategies; its last entry is always that of the scraping
    strategy, so the list has between one and three entries. *)
Theorem GET_failure_errors (rt : Runtime) (w : World) (request : Request)
    (cache : gmap string CacheData) :
  let r := GET rt w request cache in
  status (response r) = 500 →
  ∃ user error errors1 errors2 message3 message,
    username_param request = Some user ∧
    body (response r)
    = Failure error user
        (errors1 ++ errors2 ++ ["HTML scraping error: " +:+ message3]) message ∧
    (errors1 = [] ∨ ∃ message1, errors1 = ["GraphQL API error: " +:+ message1]) ∧
    (errors2 = [] ∨ ∃ message2, errors2 = ["Alternative API error: " +:+ message2]) ∧
    fetches (trace r) = [graphql_url user; alternative_url user; scraping_url user].
Proof.
  intros r. subst r. destruct request as [[user|] debug]; [|discriminate].
  destruct (decide (user = EmptyString)) as [->|Huser]; [discriminate|].
  pose proof (getCachedData_events (Date_now w AtLookup) ("instagram-" +:+ user) cache)
    as (_ & Hl & _).
  destruct (getCachedData (Date_now w AtLookup) ("instagram-" +:+ user) cache)
    as [[[cached|] c1] looked] eqn:Hget.
  { rewrite (GET_hit rt w user debug cache c1 looked cached Huser Hget). discriminate. }
  destruct (GET_miss rt w user debug cache c1 looked Huser Hget) as (Hr & _ & Ht).
  cbn [snd] in Hl.
  rewrite <- fetches_without_logs, Ht, Hr. autorewrite with trace. rewrite Hl.
  unfold strategies.
  pose proof (method3_not_fell rt w (bool_decide (debug = Some "true")) user) as H3.
  destruct (method1 w _ user).1 as [p1|m1|]; [discriminate| |];
    (destruct (method2 w _ user).1 as [p2|m2|]; [discriminate| |]);
    (destruct (method3 rt w _ user).1 as [p3|m3|]; [discriminate| |congruence]);
    intros _; simpl.
  - eexists user, _, ["GraphQL API error: " +:+ m1], ["Alternative API error: " +:+ m2], m3, _.
    split_and!; eauto.
  - eexists user, _, ["GraphQL API error: " +:+ m1], [], m3, _. split_and!; eauto.
  - eexists user, _, [], ["Alternative API error: " +:+ m2], m3, _. split_and!; eauto.
  - eexists user, _, [], [], m3, _. split_and!; eauto.
Qed.

(** A profile that the scraping strategy serves has a name: when all three
    requests were sent and the answer is 200, the [username] of the profile
    is truthy. *)
Theorem GET_scraped_profile_named (rt : Runtime) (w : World) (user : string)
    (debug : option string) (cache : gmap string CacheData) (profile : InstagramUserData) :
  user ≠ EmptyString →
  let r := GET rt w {| username_param := Some user; debug_param := debug |} cache in
  response r = {| status := 200; body := Profile profile |} →
  fetches (trace r) = [graphql_url user; alternative_url user; scraping_url user] →
  truthy (username profile) = true.
Proof.
  intros Huser r. subst r.
  destruct (getCachedData (Date_now w AtLookup) ("instagram-" +:+ user) cache)
    as [[[cached|] c1] looked] eqn:Hget.
  { rewrite (GET_hit rt w user debug cache c1 looked cached Huser Hget). simpl.
    apply getCachedData_hit in Hget as (_ & Hl & _).
    rewrite fetches_app, Hl. discriminate. }
  pose proof (getCachedData_events (Date_now w AtLookup) ("instagram-" +:+ user) cache)
    as (_ & Hl & _).
  rewrite Hget in Hl. cbn [snd] in Hl.
  destruct (GET_miss rt w user debug cache c1 looked Huser Hget) as (Hr & _ & Ht).
  rewrite <- fetches_without_logs, Ht, Hr. autorewrite with trace. rewrite Hl.
  unfold strategies.
  pose proof (method3_returned rt w (bool_decide (debug = Some "true")) user) as H3.
  destruct (method1 w _ user).1 as [p1|m1|]; [discriminate| |];
    (destruct (method2 w _ user).1 as [p2|m2|]; [discriminate| |]);
    (destruct (method3 rt w _ user).1 as [p3|m3|]; [|discriminate|discriminate]);
    simpl; intros Hp _; inversion Hp; subst; apply H3; reflexivity.
Qed.

(** ** More on processUserData *)

(** [andb_all H]: a conjunction of Booleans that is [true] splits into its
    parts. *)
Ltac andb_all H :=
  repeat (let H' := fresh H in apply andb_prop in H as [H H']).

Lemma or_string a b :
  optional is_string a = true → is_string b = true → is_string (a ||| b) = true.
Proof.
  intros Ha Hb. unfold js_or. destruct (truthy a) eqn:E; [|exact Hb].
  destruct a; try discriminate; reflexivity.
Qed.

Lemma or_number a b :
  optional is_number a = true → is_number b = true → is_number (a ||| b) = true.
Proof.
  intros Ha Hb. unfold js_or. destruct (truthy a) eqn:E; [|exact Hb].
  destruct a; try discriminate; reflexivity.
Qed.

Lemma is_string_optional v : is_string v = true → optional is_string v = true.
Proof. destruct v; try discriminate; reflexivity. Qed.

Lemma count_of_optional v :
  optional has_count v = true → optional is_number (opt_get v "count") = true.
Proof.
  destruct v as [| | | | | |props]; try discriminate; [reflexivity|].
  unfold has_count. simpl. destruct (own props "count"); try discriminate; reflexivity.
Qed.

Lemma count_of_optional_count v :
  optional has_optional_count v = true → optional is_number (opt_get v "count") = true.
Proof.
  destruct v as [| | | | | |props]; try discriminate; [reflexivity|].
  unfold has_optional_count. simpl. auto.
Qed.

Lemma thumbnail_of_resources v :
  optional (array_of is_thumbnail) v = true →
  optional is_string (opt_get (opt_index0 v) "src") = true.
Proof.
  destruct v as [| | | | |elems|]; try discriminate; [reflexivity|].
  destruct elems as [|x elems]; [reflexivity|]. simpl.
  intros H. apply andb_prop in H as [H _]. unfold is_thumbnail in H.
  destruct x; try discriminate. simpl in *. apply is_string_optional, H.
Qed.

Lemma caption_of_list node :
  optional is_caption_list (prop node "edge_media_to_caption") = true →
  ∃ text, caption_text node = Ok text ∧ optional is_string text = true.
Proof.
  unfold caption_text.
  destruct (prop node "edge_media_to_caption") as [| | | | | |props]; try discriminate.
  - eauto.
  - unfold is_caption_list. simpl.
    destruct (own props "edges") as [| | | | |elems|]; try discriminate.
    destruct elems as [|x elems]; simpl; [eauto|].
    intros H. apply andb_prop in H as [H _]. unfold is_caption_edge in H.
    andb_all H. destruct x as [| | | | | |xprops]; try discriminate.
    simpl in *. destruct (own xprops "node") as [| | | | | |nprops]; try discriminate.
    simpl in *. eexists. split; [reflexivity|]. apply is_string_optional. assumption.
Qed.

Lemma post_of_edge_typed now edge :
  is_media_edge edge = true →
  ∃ p, post_of_edge now edge = Ok p ∧ is_InstagramPost p = true.
Proof.
  unfold is_media_edge. intros H. apply andb_prop in H as [He Hn].
  destruct edge as [| | | | | |eprops]; try discriminate. clear He.
  unfold post_of_edge.
  set (node := prop (VObj eprops) "node") in *.
  change (get (VObj eprops) "node") with (Ok node). cbn [mbind result_bind].
  unfold is_InstagramMediaNode in Hn. andb_all Hn.
  destruct node as [| | | | | |nprops] eqn:Hnode; try discriminate.
  rewrite <- Hnode in *. clear Hn.
  assert (get node "id" = Ok (prop node "id")) as -> by (rewrite Hnode; reflexivity).
  cbn [mbind result_bind].
  destruct (caption_of_list node) as (text & -> & Htext); [assumption|].
  cbn [mbind result_bind]. eexists. split; [reflexivity|].
  unfold is_InstagramPost. cbn [id shortcode thumbnailUrl displayUrl isVideo caption
    timestamp likeCount commentCount].
  repeat (apply andb_true_intro; split); try assumption; try reflexivity.
  - apply or_string; [|reflexivity].
    unfold js_or. destruct (truthy (prop node "thumbnail_src")) eqn:E.
    + assumption.
    + apply thumbnail_of_resources. assumption.
  - apply or_string; [assumption | reflexivity].
  - apply or_string; [assumption | reflexivity].
  - apply or_number; [assumption | reflexivity].
  - apply or_number; [|reflexivity].
    unfold js_or. destruct (truthy (opt_get (prop node "edge_liked_by") "count")) eqn:E.
    + apply count_of_optional. assumption.
    + apply count_of_optional. assumption.
  - apply or_number; [apply count_of_optional; assumption | reflexivity].
Qed.

Lemma push_posts_typed now edges :
  forallb is_media_edge edges = true →
  ∃ ps, push_posts now edges = Ok ps ∧ forallb is_InstagramPost ps = true.
Proof.
  induction edges as [|edge rest IH]; simpl; [eauto|].
  intros H. apply andb_prop in H as [He Hrest].
  destruct (post_of_edge_typed now edge He) as (p & -> & Hp).
  destruct (IH Hrest) as (ps & -> & Hps).
  cbn [mbind result_bind]. eexists. split; [reflexivity|]. simpl. rewrite Hp, Hps. reflexivity.
Qed.

(** [processUserData] on a value of its declared parameter type: it does
    not throw, and what it returns has the declared return type (every
    string field is a string, every count a number, every post likewise). *)
Theorem processUserData_typed (userData : value) (now : Z) :
  is_InstagramRawUserData userData = true →
  ∃ d, processUserData userData now = Ok d ∧ is_InstagramUserData d = true.
Proof.
  unfold is_InstagramRawUserData. intros H. andb_all H.
  destruct userData as [| | | | | |props] eqn:Hu; try discriminate.
  rewrite <- Hu in *. clear H.
  unfold processUserData.
  assert (get userData "edge_owner_to_timeline_media"
          = Ok (prop userData "edge_owner_to_timeline_media")) as ->
    by (rewrite Hu; reflexivity).
  cbn [mbind result_bind].
  set (media := prop userData "edge_owner_to_timeline_media") in *.
  assert (optional is_number (opt_get media "count") = true ∧
          ∃ ps, (if truthy (opt_get media "edges")
                 then edges ← iterate (opt_get media "edges"); push_posts now edges
                 else Ok []) = Ok ps ∧ forallb is_InstagramPost ps = true)
    as (Hcount & ps & Hps & Htyped).
  { destruct media as [| | | | | |mprops]; try discriminate.
    - split; [reflexivity|]. exists []. auto.
    - unfold is_timeline in *. andb_all H2. cbn [opt_get]. split; [assumption|].
      destruct (prop (VObj mprops) "edges") as [| | | | |edges|]; try discriminate.
      + exists []. auto.
      + cbn [truthy iterate mbind result_bind]. apply push_posts_typed. assumption. }
  rewrite Hps. cbn [mbind result_bind]. eexists. split; [reflexivity|].
  unfold is_InstagramUserData. cbn [username fullName biography profilePicture postsCount
    followersCount followingCount posts].
  repeat (apply andb_true_intro; split); try assumption.
  - apply or_string; [apply is_string_optional; assumption | reflexivity].
  - apply or_string; [assumption | reflexivity].
  - apply or_string; [assumption | reflexivity].
  - apply or_string; [|reflexivity].
    unfold js_or. destruct (truthy (prop userData "profile_pic_url_hd")); assumption.
  - apply or_number; [assumption | reflexivity].
  - apply or_number; [apply count_of_optional_count; assumption | reflexivity].
  - apply or_number; [apply count_of_optional_count; assumption | reflexivity].
Qed.

Lemma post_of_edge_identity now edge p :
  post_of_edge now edge = Ok p →
  id p = prop (prop edge "node") "id" ∧ shortcode p = prop (prop edge "node") "shortcode".
Proof.
  unfold post_of_edge. intros H.
  apply bind_Ok in H as (node & Hnode & H).
  apply bind_Ok in H as (node_id & Hid & H). ok_steps H.
  apply get_Ok in Hnode as (-> & _). apply get_Ok in Hid as (-> & _).
  inversion H. auto.
Qed.

(** The posts of a processed profile are the edges of the user object, one
    post for each edge and in the same order: the post at a position has
    the [id] and the [shortcode] of the node of the edge at that position. *)
Theorem processUserData_posts_in_order (userData : value) (now : Z) (d : InstagramUserData) :
  processUserData userData now = Ok d →
  length (posts d) = length (raw_edges userData) ∧
  id <$> posts d = (λ edge, prop (prop edge "node") "id") <$> raw_edges userData ∧
  shortcode <$> posts d = (λ edge, prop (prop edge "node") "shortcode") <$> raw_edges userData.
Proof.
  intros H. apply processUserData_posts in H.
  apply (push_posts_Forall2 now
           (λ edge p, id p = prop (prop edge "node") "id" ∧
                      shortcode p = prop (prop edge "node") "shortcode")) in H;
    [|apply post_of_edge_identity].
  induction H as [|edge p edges ps [Hid Hsc] _ (IH1 & IH2 & IH3)]; [auto|].
  cbn [length fmap list_fmap]. rewrite Hid, Hsc.
  split_and!; [f_equal; exact IH1 | f_equal; exact IH2 | f_equal; exact IH3].
Qed.

Lemma post_of_edge_clock now now' edge :
  truthy (prop (prop edge "node") "taken_at_timestamp") = true →
  post_of_edge now edge = post_of_edge now' edge.
Proof.
  intros Hts. unfold post_of_edge.
  destruct edge; try reflexivity; cbn [get mbind result_bind];
    match goal with |- context [get ?n "id"] => destruct (get n "id") eqn:Hid end;
    cbn [mbind result_bind]; try reflexivity;
    match goal with |- context [caption_text ?n] => destruct (caption_text n) end;
    cbn [mbind result_bind]; try reflexivity;
    rewrite (js_or_truthy _ (VNum (now / 1000)) Hts),
      (js_or_truthy _ (VNum (now' / 1000)) Hts); reflexivity.
Qed.

Lemma push_posts_clock now now' edges :
  Forall (λ edge, truthy (prop (prop edge "node") "taken_at_timestamp") = true) edges →
  push_posts now edges = push_posts now' edges.
Proof.
  induction 1 as [|edge rest Hedge _ IH]; [reflexivity|].
  cbn [push_posts]. rewrite (post_of_edge_clock now now' edge Hedge), IH. reflexivity.
Qed.

(** The clock matters to [processUserData] only through posts that lack a
    timestamp: when every node has a truthy [taken_at_timestamp], the
    result is the same whatever the time. *)
Theorem processUserData_clock (userData : value) (now now' : Z) :
  Forall (λ edge, truthy (prop (prop edge "node") "taken_at_timestamp") = true)
    (raw_edges userData) →
  processUserData userData now = processUserData userData now'.
Proof.
  unfold raw_edges, processUserData. intros H.
  destruct userData as [| | | | | |props]; try reflexivity;
    cbn [get mbind result_bind opt_get] in *.
  all: try (cbn [prop opt_get truthy] in *; reflexivity).
  destruct (truthy (opt_get (prop (VObj props) "edge_owner_to_timeline_media") "edges"));
    [|reflexivity].
  destruct (iterate _) as [edges|message]; [|reflexivity].
  cbn [mbind result_bind]. rewrite (push_posts_clock now now' edges H). reflexivity.
Qed.

Lemma push_posts_throws now edges edge message :
  edge ∈ edges → post_of_edge now edge = Throw message →
  ∃ message', push_posts now edges = Throw message'.
Proof.
  intros Hin Hthrow. induction edges as [|other rest IH].
  - apply elem_of_nil in Hin. contradiction.
  - cbn [push_posts]. apply elem_of_cons in Hin as [<-|Hin].
    + rewrite Hthrow. cbn [mbind result_bind]. eauto.
    + destruct (post_of_edge now other) as [p|m]; cbn [mbind result_bind]; [|eauto].
      destruct (IH Hin) as [m ->]. cbn [mbind result_bind]. eauto.
Qed.

Lemma post_of_edge_no_node now edge :
  nullish edge = true ∨ nullish (prop edge "node") = true →
  ∃ message, post_of_edge now edge = Throw message.
Proof.
  unfold post_of_edge. intros [H|H].
  - destruct edge; try discriminate; cbn [get mbind result_bind]; eauto.
  - destruct edge; try discriminate; cbn [get mbind result_bind];
      destruct (prop _ "node"); try discriminate; cbn [get mbind result_bind]; eauto.
Qed.

(** One edge without a node spoils the whole user object: [processUserData]
    throws, and so the first strategy, although the endpoint answered with
    a user object, ends in its [catch] clause and the chain goes on. *)
Theorem processUserData_bad_edge (w : World) (isDebugMode : bool) (user : string)
    (body_data userData : value) (edges : list value) (edge : value) :
  axios_get w (graphql_url user) = Resolved body_data →
  userData = opt_get (opt_get body_data "data") "user" →
  prop (prop userData "edge_owner_to_timeline_media") "edges" = VArr edges →
  edge ∈ edges →
  nullish edge = true ∨ nullish (prop edge "node") = true →
  ∃ message,
    processUserData userData (Date_now w AfterGraphQL) = Throw message ∧
    (method1 w isDebugMode user).1 = Caught message.
Proof.
  intros Hbody Huser Hedges Hin Hbad.
  destruct (post_of_edge_no_node (Date_now w AfterGraphQL) edge Hbad) as [m Hm].
  destruct (push_posts_throws _ edges edge m Hin Hm) as [m' Hm'].
  exists m'.
  assert (processUserData userData (Date_now w AfterGraphQL) = Throw m') as Hthrow.
  { unfold processUserData.
    destruct userData as [| | | | | |props]; try discriminate.
    cbn [get mbind result_bind].
    destruct (prop (VObj props) "edge_owner_to_timeline_media") as [| | | | | |mprops];
      try discriminate.
    cbn [opt_get]. rewrite Hedges. cbn [truthy iterate mbind result_bind].
    rewrite Hm'. reflexivity. }
  split; [exact Hthrow|].
  unfold method1. rewrite Hbody, <- Huser, Hthrow.
  destruct userData; try discriminate. reflexivity.
Qed.

(** ** More on findUserData *)

Lemma search_children_first_match {A} (child : A → value) visit (entries : list A) :
  Forall (λ entry, first_match (visit (child entry))) entries →
  first_match (search_children child visit entries).
Proof.
  induction 1 as [|entry rest Hentry _ IH]; cbn [search_children].
  - constructor.
  - destruct (is_object (child entry)); [|exact IH].
    destruct (visit (child entry)) as [[r|] seen]; unfold first_match in *; cbn [fst snd] in *.
    + exact Hentry.
    + destruct (search_children child visit rest) as [[r'|] seen']; cbn [fst snd] in *.
      * destruct IH as (before & d & -> & Hshape & Hbefore).
        exists (seen ++ before), d. rewrite app_assoc.
        split_and!; [reflexivity | exact Hshape | apply Forall_app; auto].
      * apply Forall_app; auto.
Qed.

Lemma findUserData_log_first_match obj : ∀ depth, first_match (findUserData_log obj depth).
Proof.
  assert (∀ r d o, has_user_shape o = false → first_match r →
                   first_match (let '(res, seen) := r in (res, (d, o) :: seen))) as Hcons.
  { intros [[u|] seen] d o Ho; unfold first_match; cbn [fst snd].
    - intros (before & d' & -> & Hshape & Hbefore).
      exists ((d, o) :: before), d'. split_and!; [reflexivity | exact Hshape |].
      constructor; [exact Ho | exact Hbefore].
    - intros Hseen. constructor; [exact Ho | exact Hseen]. }
  induction obj as [| |b|n|s|elems IH|props IH] using value_ind; intros depth;
    try solve [rewrite findUserData_log_unfold; simpl; rewrite ?orb_true_r; simpl;
               constructor].
  - rewrite findUserData_log_unfold. cbn [truthy is_object negb orb].
    destruct (5 <? depth); [constructor|].
    destruct (has_user_shape (VArr elems)) eqn:Hshape; [discriminate|].
    apply Hcons; [exact Hshape|].
    apply search_children_first_match.
    eapply Forall_impl; [exact IH|]. simpl. auto.
  - rewrite findUserData_log_unfold. cbn [truthy is_object negb orb].
    destruct (5 <? depth); [constructor|].
    destruct (has_user_shape (VObj props)) eqn:Hshape.
    + unfold first_match. cbn [fst snd]. exists [], depth. auto.
    + apply Hcons; [exact Hshape|].
      apply (search_children_first_match (λ kx : string * value, kx.2)).
      eapply Forall_impl; [exact IH|]. simpl. auto.
Qed.

(** What [findUserData] returns is the first object, in the order of the
    search, that has the shape of a user (a [username] string next to a
    [full_name], [biography] or [profile_pic_url] string): every object
    examined before it lacks the shape, it is examined at a depth of at
    most 5, and when [null] is returned no examined object has the shape. *)
Theorem findUserData_first_match (obj : value) (depth : Z) :
  match findUserData obj depth with
  | Some u =>
      has_user_shape u = true ∧
      ∃ before d,
        (findUserData_log obj depth).2 = before ++ [(d, u)] ∧
        depth ≤ d ≤ 5 ∧
        Forall (λ e, has_user_shape e.2 = false) before
  | None => Forall (λ e, has_user_shape e.2 = false) (findUserData_log obj depth).2
  end.
Proof.
  pose proof (findUserData_log_first_match obj depth) as H.
  pose proof (findUserData_log_within obj depth) as [Hdepth _].
  unfold findUserData, first_match in *.
  destruct (findUserData_log obj depth) as [[u|] seen]; cbn [fst snd] in *; [|exact H].
  destruct H as (before & d & -> & Hshape & Hbefore).
  split; [exact Hshape|]. exists before, d.
  apply Forall_app in Hdepth as [_ Hd]. inversion Hd as [|? ? Hbound _]; subst.
  cbn [fst] in Hbound. split; [reflexivity|]. split; [exact Hbound | exact Hbefore].
Qed.

Lemma search_children_found {A} (child : A → value) visit (entries : list A) :
  (search_children child visit entries).1 = None ↔
  Forall (λ entry, is_object (child entry) = true → (visit (child entry)).1 = None) entries.
Proof.
  induction entries as [|entry rest IH]; cbn [search_children].
  - split; [constructor | reflexivity].
  - destruct (is_object (child entry)) eqn:Hobj.
    + destruct (visit (child entry)) as [[r|] seen] eqn:Hv; cbn [fst snd].
      * split; [discriminate|]. intros H. inversion H; subst.
        rewrite Hv in *. cbn [fst] in *. auto.
      * destruct (search_children child visit rest) as [res' seen']. cbn [fst] in *.
        rewrite IH. split.
        -- intros H. constructor; [rewrite Hv; reflexivity | exact H].
        -- intros H. inversion H; assumption.
    + rewrite IH. split.
      * intros H. constructor; [rewrite Hobj; discriminate | exact H].
      * intros H. inversion H; assumption.
Qed.

Lemma findUserData_None_unfold obj depth :
  findUserData obj depth = None ↔
  negb (truthy obj) || negb (is_object obj) || (5 <? depth) = true ∨
  (has_user_shape obj = false ∧
   match obj with
   | VArr elems => Forall (λ x, is_object x = true → findUserData x (depth + 1) = None) elems
   | VObj props =>
       Forall (λ kx, is_object kx.2 = true → findUserData kx.2 (depth + 1) = None) props
   | _ => True
   end).
Proof.
  unfold findUserData. rewrite findUserData_log_unfold.
  destruct (negb (truthy obj) || negb (is_object obj) || (5 <? depth)) eqn:Hguard.
  { cbn [fst]. tauto. }
  destruct (has_user_shape obj) eqn:Hshape.
  { cbn [fst]. split; [discriminate|]. intros [H|[H _]]; discriminate. }
  destruct obj as [| |b|n|s|elems|props]; cbn [fst]; try tauto.
  - pose proof (search_children_found (λ x : value, x)
                  (λ x, findUserData_log x (depth + 1)) elems) as Hs.
    destruct (search_children _ _ elems) as [res seen]. cbn [fst] in *.
    rewrite Hs. split; [auto|]. intros [H|[_ H]]; [discriminate | exact H].
  - pose proof (search_children_found (λ kx : string * value, kx.2)
                  (λ x, findUserData_log x (depth + 1)) props) as Hs.
    destruct (search_children _ _ props) as [res seen]. cbn [fst] in *.
    rewrite Hs. split; [auto|]. intros [H|[_ H]]; [discriminate | exact H].
Qed.

(** Starting deeper never finds more: when a call at some depth finds
    nothing, so does every call on the same object at a greater depth.  In
    particular the call of the pattern loop, at depth 0, finds a user
    whenever a call at any depth from 0 on would. *)
Theorem findUserData_deeper_finds_less (obj : value) (depth depth' : Z) :
  depth ≤ depth' →
  findUserData obj depth = None →
  findUserData obj depth' = None.
Proof.
  revert depth depth'.
  induction obj as [| |b|n|s|elems IH|props IH] using value_ind; intros depth depth' Hle;
    try solve [intros _; apply findUserData_None_unfold; left;
               cbn [truthy is_object negb orb]; rewrite ?orb_true_r; reflexivity].
  - rewrite !findUserData_None_unfold. cbn [truthy is_object negb orb].
    intros [Hdeep|[Hshape Hchildren]].
    + left. apply Z.ltb_lt in Hdeep. apply Z.ltb_lt. lia.
    + right. split; [exact Hshape|].
      rewrite Forall_forall in *. intros x Hx Hobj.
      apply (IH x Hx (depth + 1) (depth' + 1)); [lia | auto].
  - rewrite !findUserData_None_unfold. cbn [truthy is_object negb orb].
    intros [Hdeep|[Hshape Hchildren]].
    + left. apply Z.ltb_lt in Hdeep. apply Z.ltb_lt. lia.
    + right. split; [exact Hshape|].
      rewrite Forall_forall in *. intros kx Hx Hobj.
      apply (IH kx Hx (depth + 1) (depth' + 1)); [lia | auto].
Qed.

(** ** More on extractInstagramData *)

Lemma tier1_passed_over rt html isDebug regex rest :
  passed_over rt html regex →
  (tier1 rt html isDebug (regex :: rest)).1 = (tier1 rt html isDebug rest).1.
Proof.
  unfold passed_over. cbn [tier1].
  destruct (String_match rt html regex) as [[m1 m2]|]; [|reflexivity].
  intros [Hnone|(text & Htext & Hparse)].
  - rewrite Hnone. reflexivity.
  - destruct (truthy _); [|reflexivity]. rewrite Htext.
    destruct (JSON_parse rt text) as [jsonData|].
    + rewrite Hparse. destruct (tier1 rt html isDebug rest). reflexivity.
    + destruct (tier1 rt html isDebug rest). reflexivity.
Qed.

(** The first pattern that yields a capture wins: when the patterns before
    it are passed over and its capture parses to a value in which [probe]
    finds something, that is the data of the loop, whatever the patterns
    after it would match; [extractInstagramData] processes it if it is
    truthy and otherwise falls back to the metadata. *)
Theorem tier1_first_probe_wins (rt : Runtime) (html : string) (isDebug : bool)
    (before after : list regex) (regex : regex) (m1 m2 : option string)
    (text : string) (jsonData captured : value) :
  Forall (passed_over rt html) before →
  String_match rt html regex = Some (m1, m2) →
  truthy (of_opt m1 ||| of_opt m2) = true →
  of_opt m2 ||| of_opt m1 = VStr text →
  JSON_parse rt text = Some jsonData →
  probe jsonData = Some captured →
  (tier1 rt html isDebug (before ++ regex :: after)).1 = captured ∧
  (dataRegexes = before ++ regex :: after →
   ∀ now, (extractInstagramData rt (VStr html) isDebug now).1
          = if truthy captured then processUserData captured now else tier2 rt html).
Proof.
  intros Hbefore Hmatch Hgroups Htext Hparse Hprobe.
  assert ((tier1 rt html isDebug (before ++ regex :: after)).1 = captured) as Hloop.
  { induction Hbefore as [|r before Hr _ IH].
    - cbn [app tier1]. rewrite Hmatch, Hgroups, Htext, Hparse, Hprobe. reflexivity.
    - cbn [app]. rewrite (tier1_passed_over rt html isDebug r _ Hr). exact IH. }
  split; [exact Hloop|].
  intros Hall now. unfold extractInstagramData. rewrite Hall.
  destruct (tier1 rt html isDebug (before ++ regex :: after)) as [c out].
  cbn [fst] in Hloop. subst c. destruct (truthy captured); reflexivity.
Qed.

Lemma find_stat_in_first_named name stats :
  Forall (λ stat, nullish stat = false) stats →
  find_stat_in name stats = Ok (first_named name stats).
Proof.
  unfold first_named. induction 1 as [|stat rest Hstat _ IH]; [reflexivity|].
  cbn [find_stat_in List.find].
  destruct stat; try discriminate; cbn [get mbind result_bind];
    try (rewrite IH; reflexivity).
  destruct (prop (VObj props) "name") as [| | | |n| |]; try exact IH.
  destruct (String.eqb n name); [reflexivity | exact IH].
Qed.

(** The metadata fallback and the statistics of the JSON-LD block.  Its
    profile never has posts.  When the block lists its statistics in an
    array without [null] entries, the fallback does not throw and each
    count is the [userInteractionCount] of the first entry with the
    matching name, or 0.  When the block has an [interactionStatistic] that
    is not an array, the fallback throws. *)
Theorem tier2_statistics (rt : Runtime) (html : string) :
  let ldJsonData := find_ld_json rt (ld_json_scripts rt html) in
  let listed := prop ldJsonData "interactionStatistic" in
  (∀ d, tier2 rt html = Ok d → posts d = []) ∧
  (truthy ldJsonData = true →
   ∀ stats, listed = VArr stats → Forall (λ stat, nullish stat = false) stats →
   ∃ d, tier2 rt html = Ok d ∧
        postsCount d
        = opt_get (first_named "Posts" stats) "userInteractionCount" ||| VNum 0 ∧
        followersCount d
        = opt_get (first_named "Followers" stats) "userInteractionCount" ||| VNum 0 ∧
        followingCount d
        = opt_get (first_named "Following" stats) "userInteractionCount" ||| VNum 0) ∧
  (truthy ldJsonData = true →
   nullish listed = false → (∀ stats, listed ≠ VArr stats) →
   ∃ message, tier2 rt html = Throw message).
Proof.
  intros ldJsonData listed. split_and!.
  - intros d H. unfold tier2 in H. cbv zeta in H. fold ldJsonData in H.
    destruct (truthy ldJsonData).
    + ok_steps H. inversion H. reflexivity.
    + inversion H. reflexivity.
  - intros Hld stats Hstats Hall. unfold tier2. cbv zeta. fold ldJsonData. rewrite Hld.
    fold listed. rewrite Hstats. cbn [find_stat].
    rewrite !(find_stat_in_first_named _ stats Hall). cbn [mbind result_bind].
    eexists. split_and!; reflexivity.
  - intros Hld Hnot Harr. unfold tier2. cbv zeta. fold ldJsonData. rewrite Hld.
    fold listed.
    destruct listed as [| | | | |stats|]; try discriminate;
      cbn [find_stat mbind result_bind]; eauto.
    destruct (Harr stats eq_refl).
Qed.

(** ** The JSON-LD extractor of the other variant *)

Lemma remove_first_at_count s :
  count_char "@" (JsonLdPerson.remove_first_at s) = Nat.pred (count_char "@" s).
Proof.
  induction s as [|c s IH]; [reflexivity|].
  cbn [JsonLdPerson.remove_first_at count_char].
  destruct (Ascii.eqb c "@") eqn:E; [reflexivity|].
  cbn [count_char]. rewrite E, IH. reflexivity.
Qed.

Lemma JsonLdPerson_scan rt scripts p :
  JsonLdPerson.scan rt scripts = Some p →
  ∃ text json handle,
    Some text ∈ scripts ∧
    JSON_parse rt text = Some json ∧
    prop json "@type" = VStr "Person" ∧
    prop json "alternateName" = VStr handle ∧
    p = {| username := VStr (JsonLdPerson.remove_first_at handle);
           fullName := prop json "name";
           biography := prop json "description";
           profilePicture := prop json "image";
           postsCount := VNum 0;
           followersCount := VNum 0;
           followingCount := VNum 0;
           posts := [] |}.
Proof.
  induction scripts as [|script rest IH]; [discriminate|].
  assert (JsonLdPerson.scan rt rest = Some p →
          ∃ text json handle, Some text ∈ script :: rest ∧ JSON_parse rt text = Some json ∧
            prop json "@type" = VStr "Person" ∧ prop json "alternateName" = VStr handle ∧
            p = {| username := VStr (JsonLdPerson.remove_first_at handle);
                   fullName := prop json "name"; biography := prop json "description";
                   profilePicture := prop json "image"; postsCount := VNum 0;
                   followersCount := VNum 0; followingCount := VNum 0; posts := [] |})
    as Hrest.
  { intros H. destruct (IH H) as (text & json & handle & Hin & Hrest).
    exists text, json, handle. split; [right; exact Hin | exact Hrest]. }
  cbn [JsonLdPerson.scan].
  destruct script as [[|c text]|]; try exact Hrest.
  destruct (JSON_parse rt (String c text)) as [json|] eqn:Hparse; [|exact Hrest].
  destruct json as [| | | | | |props]; try exact Hrest;
    try (cbn [prop]; exact Hrest).
  destruct (prop (VObj props) "@type") as [| | | |ty| |] eqn:Hty; try exact Hrest.
  destruct (String.eqb ty "Person") eqn:Eperson.
  - apply String.eqb_eq in Eperson. subst ty.
    destruct (prop (VObj props) "alternateName") as [| | | |handle| |] eqn:Hname;
      try exact Hrest.
    intros H. inversion H; subst.
    exists (String c text), (VObj props), handle.
    split_and!; [left | | | |]; auto.
  - assert (ty ≠ "Person") as Hne by (apply String.eqb_neq, Eperson).
    revert Hrest. clear -Hne.
    repeat (destruct ty as [|[[] [] [] [] [] [] [] []] ty]; try (intros Hrest; exact Hrest));
      congruence.
Qed.

(** The extractor of the other variant returns a record only for a script
    that parses to a [Person] with a string [alternateName]; the record has
    no posts and no counts, and its username is the [alternateName] without
    its first ["@"]: one ["@"] fewer, so none at all when the name had at
    most one. *)
Theorem JsonLdPerson_extract (rt : Runtime) (html : string) (p : InstagramUserData) :
  JsonLdPerson.extractInstagramData rt html = Some p →
  ∃ text json handle,
    Some text ∈ ld_json_scripts rt html ∧
    JSON_parse rt text = Some json ∧
    prop json "@type" = VStr "Person" ∧
    prop json "alternateName" = VStr handle ∧
    username p = VStr (JsonLdPerson.remove_first_at handle) ∧
    count_char "@" (JsonLdPerson.remove_first_at handle) = Nat.pred (count_char "@" handle) ∧
    (∀ rest, handle = String "@" rest → username p = VStr rest) ∧
    posts p = [] ∧
    postsCount p = VNum 0 ∧ followersCount p = VNum 0 ∧ followingCount p = VNum 0.
Proof.
  unfold JsonLdPerson.extractInstagramData. intros H.
  apply JsonLdPerson_scan in H as (text & json & handle & Hin & Hparse & Hty & Hname & ->).
  exists text, json, handle. cbn [username posts postsCount followersCount followingCount].
  split_and!; auto using remove_first_at_count.
  intros rest ->. reflexivity.
Qed.

(** ** More on the single-endpoint route *)

Lemma trim_end_idem s : trim_end (trim_end s) = trim_end s.
Proof.
  induction s as [|c s IH]; [reflexivity|].
  cbn [trim_end]. destruct (trim_end s) as [|c' s'] eqn:E.
  - destruct (is_space c) eqn:Hc; [reflexivity|]. cbn [trim_end]. rewrite Hc. reflexivity.
  - change (trim_end (String c (String c' s')))
      with (match trim_end (String c' s') with
            | EmptyString => if is_space c then EmptyString else String c EmptyString
            | String a b => String c (String a b)
            end).
    rewrite IH. reflexivity.
Qed.

Lemma trim_start_head s :
  trim_start s = EmptyString ∨ ∃ c r, trim_start s = String c r ∧ is_space c = false.
Proof.
  induction s as [|c s IH]; [left; reflexivity|].
  cbn [trim_start]. destruct (is_space c) eqn:Hc; [exact IH|].
  right. exists c, s. split; [reflexivity | exact Hc].
Qed.

Lemma trim_idem s : trim (trim s) = trim s.
Proof.
  unfold trim. destruct (trim_start_head s) as [->|(c & r & -> & Hc)]; [reflexivity|].
  assert (trim_end (String c r) = String c (trim_end r)) as Hend.
  { cbn [trim_end]. destruct (trim_end r); [rewrite Hc|]; reflexivity. }
  rewrite Hend. cbn [trim_start]. rewrite Hc. rewrite <- Hend. apply trim_end_idem.
Qed.

(** The single-endpoint route trims the username before anything else and
    never reads [debug]: a request answers exactly as the request with the
    trimmed username does, with the same cache and the same console output,
    whatever their [debug] parameters are. *)
Theorem SingleEndpoint_GET_trims (w : World) (s : string) (debug debug' : option string)
    (cache : gmap string CacheData) :
  SingleEndpoint.GET w {| username_param := Some s; debug_param := debug |} cache
  = SingleEndpoint.GET w {| username_param := Some (trim s); debug_param := debug' |} cache.
Proof.
  unfold SingleEndpoint.GET. cbn [username_param fmap option_fmap option_map].
  rewrite trim_idem. reflexivity.
Qed.

(** The cache of the single-endpoint route after a request with a username
    that is not blank.  Only the key of the trimmed username is touched.
    Either the response is a 200 with exactly the profile the cache now
    holds under that key, and the same request within ten minutes of that
    record is answered with the same response, without a request to
    Instagram; or the response is a 500 with the message of the failure,
    after one request to Instagram, and the cache holds nothing under that
    key, not even the expired record it may have held before. *)
Theorem SingleEndpoint_GET_cache (w : World) (request : Request)
    (cache : gmap string CacheData) (s : string) :
  username_param request = Some s →
  trim s ≠ EmptyString →
  let key := "ig-" +:+ trim s in
  let run := SingleEndpoint.GET w request cache in
  (∀ k, k ≠ key → cache_after run !! k = cache !! k) ∧
  ((∃ rec,
      status (response run) = 200 ∧
      cache_after run !! key = Some rec ∧
      body (response run) = Profile (data rec) ∧
      ∀ w', Date_now w' AtLookup - cached_at rec < CACHE_DURATION →
            let again := SingleEndpoint.GET w' request (cache_after run) in
            response again = response run ∧
            cache_after again = cache_after run ∧
            fetches (trace again) = [])
   ∨ (status (response run) = 500 ∧
      cache_after run !! key = None ∧
      fetches (trace run) = [SingleEndpoint.profile_url (trim s)] ∧
      ∃ message,
        body (response run) = ErrorMessage "Failed to fetch Instagram data" message)).
Proof.
  intros Hname Hblank key run.
  assert (∀ w' c rec, c !! key = Some rec →
            Date_now w' AtLookup - cached_at rec < CACHE_DURATION →
            SingleEndpoint.GET w' request c
            = {| response := {| status := 200; body := Profile (data rec) |};
                 cache_after := c;
                 trace := [CacheGet key] |}) as Hhit.
  { intros w' c rec Hrec Hfresh. unfold SingleEndpoint.GET. rewrite Hname.
    cbn [fmap option_fmap option_map]. fold key.
    destruct (trim s) as [|c0 user] eqn:Htrim; [congruence|].
    unfold SingleEndpoint.getCached. rewrite Hrec.
    apply Z.ltb_lt in Hfresh. rewrite Hfresh. reflexivity. }
  pose proof (eq_refl : run = SingleEndpoint.GET w request cache) as Hrun.
  clearbody run. unfold SingleEndpoint.GET in Hrun. rewrite Hname in Hrun.
  cbn [fmap option_fmap option_map] in Hrun. fold key in Hrun.
  destruct (trim s) as [|c0 user] eqn:Htrim; [congruence|].
  set (u := String c0 user) in *.
  assert (∀ looked,
    run =
      match
        match axios_get w (SingleEndpoint.profile_url u) with
        | Resolved body_data => SingleEndpoint.transform body_data
        | Rejected message => Throw message
        end
      with
      | Ok profile =>
          {| response := {| status := 200; body := Profile profile |};
             cache_after :=
               <[key := {| data := profile; cached_at := Date_now w AfterGraphQL |}]>
                 (delete key cache);
             trace := looked ++ [Fetch (SingleEndpoint.profile_url u); CacheSet key] |}
      | Throw message =>
          {| response :=
               {| status := 500;
                  body := ErrorMessage "Failed to fetch Instagram data" message |};
             cache_after := delete key cache;
             trace := looked ++ [Fetch (SingleEndpoint.profile_url u);
                                 Log ("Instagram fetch error: " +:+ message)] |}
      end →
    fetches looked = [] →
    (∀ k, k ≠ key → cache_after run !! k = cache !! k) ∧
    ((∃ rec,
        status (response run) = 200 ∧
        cache_after run !! key = Some rec ∧
        body (response run) = Profile (data rec) ∧
        ∀ w', Date_now w' AtLookup - cached_at rec < CACHE_DURATION →
              let again := SingleEndpoint.GET w' request (cache_after run) in
              response again = response run ∧
              cache_after again = cache_after run ∧
              fetches (trace again) = [])
     ∨ (status (response run) = 500 ∧
        cache_after run !! key = None ∧
        fetches (trace run) = [SingleEndpoint.profile_url u] ∧
        ∃ message,
          body (response run) = ErrorMessage "Failed to fetch Instagram data" message)))
    as Hmiss.
  { intros looked Hr Hlooked. clear Hrun.
    destruct (match axios_get w (SingleEndpoint.profile_url u) with
              | Resolved body_data => SingleEndpoint.transform body_data
              | Rejected message => Throw message
              end) as [profile|message]; subst run.
    - cbn [cache_after response status body trace]. split.
      + intros k Hk. rewrite lookup_insert_ne, lookup_delete_ne; congruence.
      + left. eexists. split; [reflexivity|]. split; [apply lookup_insert_eq|].
        split; [reflexivity|]. cbn [cached_at data]. intros w' Hfresh.
        cbv zeta. erewrite Hhit; [|apply lookup_insert_eq|exact Hfresh].
        cbn [response cache_after trace data]. split_and!; reflexivity.
    - cbn [cache_after response status body trace]. split.
      + intros k Hk. rewrite lookup_delete_ne; congruence.
      + right. split; [reflexivity|]. split; [apply lookup_delete_eq|].
        split; [|eexists; reflexivity].
        rewrite fetches_app, Hlooked. reflexivity. }
  unfold SingleEndpoint.getCached in Hrun.
  destruct (cache !! key) as [rec|] eqn:Hrec.
  - destruct (Date_now w AtLookup - cached_at rec <? CACHE_DURATION) eqn:Hfresh.
    + subst run. cbn [cache_after response status body trace]. split; [reflexivity|].
      left. exists rec. split_and!; try reflexivity; [exact Hrec|].
      intros w' Hw'. cbv zeta. erewrite Hhit; [|exact Hrec|exact Hw'].
      cbn [response cache_after trace]. split_and!; reflexivity.
    + apply (Hmiss [CacheGet key; CacheDelete key]); [exact Hrun | reflexivity].
  - apply (Hmiss [CacheGet key; CacheDelete key]); [exact Hrun | reflexivity].
Qed.

(** ** The clients of the route *)

Lemma GET_response_shape rt w request cache :
  let r := response (GET rt w request cache) in
  (status r = 400 ∧ body r = ErrorOnly "Username is required") ∨
  (status r = 200 ∧ ∃ p, body r = Profile p) ∨
  (status r = 500 ∧
   ∃ error user errors,
     body r = Failure error user errors
       "Instagram data extraction failed. The user profile might be private, not exist, or Instagram may have updated their API.").
Proof.
  cbv zeta. destruct request as [[user|] debug];
    [|rewrite GET_username_required by (left; reflexivity); left; split; reflexivity].
  destruct (decide (user = EmptyString)) as [->|Huser];
    [rewrite GET_username_required by (right; reflexivity); left; split; reflexivity|].
  destruct (getCachedData (Date_now w AtLookup) ("instagram-" +:+ user) cache)
    as [[[profile|] c1] looked] eqn:Hlookup.
  - rewrite (GET_hit rt w user debug cache c1 looked profile Huser Hlookup).
    right; left. split; [reflexivity | eexists; reflexivity].
  - destruct (GET_miss rt w user debug cache c1 looked Huser Hlookup) as (Hresponse & _ & _).
    rewrite Hresponse. destruct (chain_profile _).
    + right; left. split; [reflexivity | eexists; reflexivity].
    + right; right. split; [reflexivity | do 3 eexists; reflexivity].
Qed.

Lemma truthy_wire v : truthy (wire v) = truthy v.
Proof. destruct v; reflexivity. Qed.

Lemma own_members_absent ps k : k ∉ ps.*1 → own (members wire ps) k = VUndef.
Proof.
  induction ps as [|[k' x] rest IH]; [reflexivity|].
  rewrite fmap_cons, not_elem_of_cons. cbn [fst]. intros [Hne Hrest].
  assert ((k' =? k)%string = false) as E by (apply String.eqb_neq; congruence).
  destruct x; cbn [members own]; rewrite ?E; auto.
Qed.

Lemma own_members ps k : NoDup ps.*1 → own (members wire ps) k = wire (own ps k).
Proof.
  induction ps as [|[k' x] rest IH]; [reflexivity|].
  rewrite fmap_cons, NoDup_cons. cbn [fst]. intros [Hfresh Hrest].
  cbn [own]. destruct (k' =? k)%string eqn:E.
  - apply String.eqb_eq in E. subst k'.
    destruct x; cbn [members own]; rewrite ?String.eqb_refl; try reflexivity.
    apply own_members_absent, Hfresh.
  - destruct x; cbn [members own]; rewrite ?E; auto.
Qed.

Lemma profile_over_the_wire p k :
  prop (wire (object_of_profile p)) k = wire (prop (object_of_profile p) k).
Proof.
  unfold object_of_profile. cbn [wire prop]. apply own_members.
  cbn [fmap list_fmap fst]. apply (bool_decide_unpack _). vm_compute. reflexivity.
Qed.

Lemma posts_over_the_wire (l : list InstagramPost) :
  map (λ x, match x with VUndef => VNull | _ => wire x end) (object_of_post <$> l)
  = (λ q, wire (object_of_post q)) <$> l.
Proof. induction l as [|q l IH]; [reflexivity|]. cbn [fmap list_fmap map]. f_equal. exact IH. Qed.

Lemma middleware_rejection now request cache status error message :
  (RateLimiter.middleware now request cache).1 = RateLimiter.Json status error message →
  status = 429 ∧
  (message = "Please try again later" ∨
   message = "Too many requests, please try again later").
Proof.
  unfold RateLimiter.middleware.
  destruct (negb _); [discriminate|].
  destruct (RateLimiter.lru_get now (RateLimiter.cooldown_key (RateLimiter.client_ip request))
              cache) as [cooling c1].
  destruct (RateLimiter.stored_truthy cooling).
  - cbn [fst]. intros H. inversion H. auto.
  - destruct (RateLimiter.lru_get now
                (RateLimiter.request_key (RateLimiter.client_ip request)) c1)
      as [counted c2].
    cbv zeta. destruct (RateLimiter.REQUESTS_PER_IP_LIMIT <=? _); cbn [fst];
      intros H; inversion H. auto.
Qed.

(** What a caller of [fetchInstagramData] gets when its request reaches
    the route.  A profile with a truthy username is returned as it went
    over the wire, with nothing on the console.  Every other answer is
    thrown and logged once: a profile the route served with an empty
    username as invalid data; the 400 of a missing username as the bare
    status, because its body has an [error] and no [message]; the 500
    with the fixed message of the route, so the messages of the three
    strategies never reach the caller. *)
Theorem fetchInstagramData_through_GET (rt : Runtime) (w : World) (request : Request)
    (cache : gmap string CacheData) (fetch : string → settled) (name : string)
    (debug : bool) :
  let r := response (GET rt w request cache) in
  fetch (proxy_url name debug) = Responded (deliver r) →
  let thrown message :=
    fetchInstagramData fetch name debug
    = (Throw message, [Log ("Error fetching Instagram data: " +:+ message)]) in
  match body r with
  | Profile p =>
      if truthy (username p)
      then fetchInstagramData fetch name debug = (Ok (wire (object_of_profile p)), [])
      else thrown "Invalid response data from Instagram API"
  | ErrorOnly _ => status r = 400 ∧ thrown "Failed with status: 400"
  | Failure _ _ _ message =>
      status r = 500 ∧ thrown message ∧
      message = "Instagram data extraction failed. The user profile might be private, not exist, or Instagram may have updated their API."
  | ErrorMessage _ _ => False
  end.
Proof.
  intros r Hfetch thrown. subst thrown. cbv beta.
  unfold fetchInstagramData. rewrite Hfetch. unfold deliver, http_ok, status_message.
  cbn [http_status http_json].
  destruct (GET_response_shape rt w request cache)
    as [[Hs Hb]|[[Hs [p Hb]]|[Hs (error & user & errors & Hb)]]];
    fold r in Hs, Hb; rewrite Hb, Hs.
  - split; reflexivity.
  - cbn [object_of_body Z.leb Z.compare Pos.compare Pos.compare_cont andb negb
         mbind result_bind].
    rewrite (profile_over_the_wire p "username"). cbn [object_of_profile prop own].
    rewrite String.eqb_refl, !truthy_wire. cbn [truthy object_of_profile].
    destruct (truthy (username p)); reflexivity.
  - split; [reflexivity|]. split; reflexivity.
Qed.

(** When the rate limiter rejects the request, the caller of
    [fetchInstagramData] gets the [message] of the rejection as the
    message of the error, and so does the feed in its error details. *)
Theorem clients_rate_limited (now : Z) (request : RateLimiter.NextRequest)
    (limiter : list RateLimiter.lru_entry) (status : Z) (error message : string)
    (fetch : string → settled) (props : InstagramFeedProps) (state : FeedState) :
  (RateLimiter.middleware now request limiter).1 = RateLimiter.Json status error message →
  fetch (proxy_url (feed_username props) (feed_debug props))
  = Responded (deliver_rejection status error message) →
  fetchInstagramData fetch (feed_username props) (feed_debug props)
  = (Throw message, [Log ("Error fetching Instagram data: " +:+ message)]) ∧
  feed_errorDetails (fetchData fetch props state) = Some message ∧
  feed_posts (fetchData fetch props state) = feed_posts state.
Proof.
  intros Hreject Hfetch.
  apply middleware_rejection in Hreject as [-> Hmessage].
  unfold fetchInstagramData, fetchData. rewrite Hfetch.
  unfold deliver_rejection, http_ok, status_message. cbn [http_status http_json].
  destruct Hmessage as [->| ->]; split_and!; reflexivity.
Qed.

Lemma fetchData_rejected fetch props state answer errorData message :
  fetch (proxy_url (feed_username props) (feed_debug props)) = Responded answer →
  http_ok answer = false →
  http_json answer = Ok errorData →
  get errorData "message" = Ok message →
  render props (fetchData fetch props state)
  = ErrorBox "Failed to load Instagram feed. Please try again later."
      (if feed_debug props
       then nonempty (Some (to_string (message ||| status_message answer)))
       else None).
Proof.
  intros Hfetch Hok Hjson Hget. unfold fetchData. rewrite Hfetch, Hok. cbn [negb].
  rewrite Hjson. cbn [mbind result_bind]. rewrite Hget. reflexivity.
Qed.

Lemma fetchData_invalid fetch props state answer data name :
  fetch (proxy_url (feed_username props) (feed_debug props)) = Responded answer →
  http_ok answer = true →
  http_json answer = Ok data →
  get data "username" = Ok name →
  truthy name = false →
  render props (fetchData fetch props state)
  = ErrorBox "Failed to load Instagram feed. Please try again later."
      (if feed_debug props then Some "Received invalid data from Instagram" else None).
Proof.
  intros Hfetch Hok Hjson Hget Hname. unfold fetchData. rewrite Hfetch, Hok. cbn [negb].
  rewrite Hjson. cbn [mbind result_bind]. rewrite Hget. cbn [mbind result_bind].
  rewrite Hname. reflexivity.
Qed.

Lemma fetchData_served fetch props state answer data name :
  fetch (proxy_url (feed_username props) (feed_debug props)) = Responded answer →
  http_ok answer = true →
  http_json answer = Ok data →
  get data "username" = Ok name →
  truthy name = true →
  render props (fetchData fetch props state)
  = Feed (VObj [("username", name);
                ("fullName", prop data "fullName");
                ("biography", prop data "biography");
                ("profilePicture", prop data "profilePicture");
                ("postsCount", prop data "postsCount");
                ("followersCount", prop data "followersCount");
                ("followingCount", prop data "followingCount")])
      match prop data "posts" with
      | VArr listed => slice_to (feed_postCount props) listed
      | _ => []
      end.
Proof.
  intros Hfetch Hok Hjson Hget Hname. unfold fetchData. rewrite Hfetch, Hok. cbn [negb].
  rewrite Hjson. cbn [mbind result_bind]. rewrite Hget. cbn [mbind result_bind].
  rewrite Hname. reflexivity.
Qed.

Lemma deliver_ok r : http_ok (deliver r) = (200 <=? status r) && (status r <=? 299).
Proof. reflexivity. Qed.

Lemma deliver_json r : http_json (deliver r) = Ok (wire (object_of_body (body r))).
Proof. reflexivity. Qed.

Lemma deliver_status_message r :
  status_message (deliver r) = VStr ("Failed with status: " +:+ pretty (status r)).
Proof. reflexivity. Qed.

Lemma get_profile_over_the_wire p k :
  get (wire (object_of_profile p)) k = Ok (wire (prop (object_of_profile p) k)).
Proof. rewrite <- profile_over_the_wire. reflexivity. Qed.

Lemma profile_over_the_wire_posts p :
  prop (wire (object_of_profile p)) "posts"
  = VArr ((λ q, wire (object_of_post q)) <$> posts p).
Proof.
  rewrite profile_over_the_wire.
  change (prop (object_of_profile p) "posts") with (VArr (object_of_post <$> posts p)).
  cbn [wire]. rewrite posts_over_the_wire. reflexivity.
Qed.

(** What the feed shows when its request reached the route, whatever it
    showed before: for a profile with a truthy username the profile and the
    first [postCount] posts as they went over the wire; in every other case
    the fixed error text, with the details only in debug mode. *)
Theorem InstagramFeed_through_GET (rt : Runtime) (w : World) (request : Request)
    (cache : gmap string CacheData) (fetch : string → settled)
    (props : InstagramFeedProps) (state : FeedState) :
  feed_username props ≠ EmptyString →
  let r := response (GET rt w request cache) in
  fetch (proxy_url (feed_username props) (feed_debug props)) = Responded (deliver r) →
  let view := render props (feed_effect fetch props state) in
  let box details :=
    ErrorBox "Failed to load Instagram feed. Please try again later."
      (if feed_debug props then Some details else None) in
  match body r with
  | Profile p =>
      if truthy (username p)
      then view
           = Feed (VObj [("username", wire (username p));
                         ("fullName", wire (fullName p));
                         ("biography", wire (biography p));
                         ("profilePicture", wire (profilePicture p));
                         ("postsCount", wire (postsCount p));
                         ("followersCount", wire (followersCount p));
                         ("followingCount", wire (followingCount p))])
               (slice_to (feed_postCount props)
                  ((λ q, wire (object_of_post q)) <$> posts p))
      else view = box "Received invalid data from Instagram"
  | ErrorOnly _ => view = box "Failed with status: 400"
  | Failure _ _ _ message => view = box message
  | ErrorMessage _ _ => False
  end.
Proof.
  intros Hname r Hfetch view box. subst view box. cbv beta.
  unfold feed_effect.
  assert (str_nonempty (feed_username props) = true) as ->.
  { destruct (feed_username props); [congruence | reflexivity]. }
  destruct (GET_response_shape rt w request cache)
    as [[Hs Hb]|[[Hs [p Hb]]|[Hs (error & user & errors & Hb)]]];
    fold r in Hs, Hb; rewrite Hb.
  - rewrite (fetchData_rejected fetch props state (deliver r)
               (wire (object_of_body (ErrorOnly "Username is required"))) VUndef Hfetch).
    + rewrite deliver_status_message, Hs. reflexivity.
    + rewrite deliver_ok, Hs. reflexivity.
    + rewrite deliver_json, Hb. reflexivity.
    + reflexivity.
  - assert (http_ok (deliver r) = true) as Hok by (rewrite deliver_ok, Hs; reflexivity).
    assert (http_json (deliver r) = Ok (wire (object_of_profile p))) as Hjson
      by (rewrite deliver_json, Hb; reflexivity).
    assert (get (wire (object_of_profile p)) "username" = Ok (wire (username p))) as Hget
      by apply get_profile_over_the_wire.
    destruct (truthy (username p)) eqn:Htruthy.
    + rewrite (fetchData_served fetch props state (deliver r) _ _ Hfetch Hok Hjson Hget);
        [|rewrite truthy_wire; exact Htruthy].
      rewrite profile_over_the_wire_posts, !profile_over_the_wire. reflexivity.
    + apply (fetchData_invalid fetch props state (deliver r) _ _ Hfetch Hok Hjson Hget).
      rewrite truthy_wire. exact Htruthy.
  - rewrite (fetchData_rejected fetch props state (deliver r)
               (wire (object_of_body (body r)))
               (VStr "Instagram data extraction failed. The user profile might be private, not exist, or Instagram may have updated their API.")
               Hfetch).
    + reflexivity.
    + rewrite deliver_ok, Hs. reflexivity.
    + apply deliver_json.
    + rewrite Hb. reflexivity.
Qed.

Lemma slice_to_length count l :
  0 ≤ count → Z.of_nat (length (slice_to count l)) ≤ count.
Proof.
  intros Hcount. unfold slice_to. rewrite length_take.
  destruct (count <? 0) eqn:E; [apply Z.ltb_lt in E; lia|]. lia.
Qed.

Lemma slice_to_prefix count l : slice_to count l `prefix_of` l.
Proof. unfold slice_to. apply prefix_take. Qed.

(** The feed on its own.  Without a username it never leaves the spinner.
    With one, whatever the request settles with and whatever was shown
    before, the spinner is gone; and when posts are shown, they are the
    leading posts of a response that was ok and carried a truthy username,
    at most [postCount] of them. *)
Theorem InstagramFeed_shown (fetch : string → settled) (props : InstagramFeedProps) :
  (feed_username props = EmptyString →
   render props (feed_effect fetch props feed_initial) = Spinner) ∧
  (feed_username props ≠ EmptyString →
   ∀ state,
     render props (feed_effect fetch props state) ≠ Spinner ∧
     ∀ profile listed,
       render props (feed_effect fetch props state) = Feed profile listed →
       (0 ≤ feed_postCount props → Z.of_nat (length listed) ≤ feed_postCount props) ∧
       ∃ answer data,
         fetch (proxy_url (feed_username props) (feed_debug props)) = Responded answer ∧
         http_ok answer = true ∧
         http_json answer = Ok data ∧
         truthy (prop data "username") = true ∧
         prop profile "username" = prop data "username" ∧
         (listed = [] ∨ ∃ all, prop data "posts" = VArr all ∧ listed `prefix_of` all)).
Proof.
  split.
  - intros Hname. unfold feed_effect. rewrite Hname. reflexivity.
  - intros Hname state. unfold feed_effect.
    assert (str_nonempty (feed_username props) = true) as ->.
    { destruct (feed_username props); [congruence | reflexivity]. }
    unfold fetchData.
    destruct (fetch (proxy_url (feed_username props) (feed_debug props)))
      as [answer|message]; [|split; [discriminate | intros ? ?; discriminate]].
    destruct (http_ok answer) eqn:Hok; cbn [negb].
    + destruct (http_json answer) as [data|message] eqn:Hjson;
        [|split; [discriminate | intros ? ?; discriminate]].
      cbn [mbind result_bind].
      destruct (get data "username") as [name|message] eqn:Hget;
        [|split; [discriminate | intros ? ?; discriminate]].
      cbn [mbind result_bind].
      assert (prop data "username" = name) as Hprop.
      { destruct data; cbn [get] in Hget; congruence. }
      destruct (truthy name) eqn:Htruthy; cbn [negb];
        [|split; [discriminate | intros ? ?; discriminate]].
      unfold render. cbn [feed_loading feed_error nonempty feed_profileData feed_posts].
      split; [discriminate|]. intros profile listed H. inversion H; subst profile listed.
      split.
      * intros Hcount. destruct (prop data "posts"); try (cbn [length]; lia).
        apply slice_to_length, Hcount.
      * exists answer, data. split_and!; try reflexivity; try congruence.
        { cbn [prop own]. rewrite String.eqb_refl. congruence. }
        clear H.
        destruct (prop data "posts") as [| | | | |all|]; auto.
        right. exists all. split; [reflexivity | apply slice_to_prefix].
    + assert (∀ m, render props
                {| feed_posts := feed_posts state;
                   feed_profileData := feed_profileData state;
                   feed_loading := false;
                   feed_error := Some "Failed to load Instagram feed. Please try again later.";
                   feed_errorDetails := Some m |}
              = ErrorBox "Failed to load Instagram feed. Please try again later."
                  (if feed_debug props then nonempty (Some m) else None)) as Hbox
        by reflexivity.
      destruct (http_json answer) as [errorData|message]; cbn [mbind result_bind];
        [|rewrite Hbox; split; [discriminate | intros ? ?; discriminate]].
      destruct (get errorData "message") as [message|message]; cbn [mbind result_bind];
        rewrite Hbox; split; try discriminate; intros ? ?; discriminate.
Qed.

(** ** Instances *)

Module RateLimiterInstances.
Import RateLimiter RateLimiterFacts RateLimiterMore.




Lemma limited_client_readmitted_witness :
  let r := middleware 900501 local_request (cooling_cache 21) in
  r.1 = quota_headers 0 ∧ counted_at "127.0.0.1" 900501 1 r.2.
Proof.
  apply (limited_client_readmitted local_request 500 900501 (cooling_cache 21));
    [reflexivity | | unfold LRU_TTL; lia].
  exists 21. split; [unfold REQUESTS_PER_IP_LIMIT; lia | split; reflexivity].
Defined.

Lemma middleware_other_client_witness :
  let cache :=
    [{| lru_key := request_key "10.0.0.1"; lru_value := SNum 7;
        lru_start := 500; lru_ttl := LRU_TTL |}] in
  request_count 2000 "10.0.0.1" (middleware 1000 local_request cache).2
  = request_count 2000 "10.0.0.1" cache ∧
  cooling_down 2000 "10.0.0.1" (middleware 1000 local_request cache).2
  = cooling_down 2000 "10.0.0.1" cache.
Proof.
  intros cache.
  apply (middleware_other_client 1000 local_request cache "10.0.0.1");
    [discriminate | subst cache; cbn [length]; unfold LRU_MAX; lia].
Defined.

End RateLimiterInstances.

Lemma GET_write_through_witness :
  let r := GET bare_page jane_upstream (ask "jane") ∅ in
  ∃ entry,
    cache_after r !! "instagram-jane" = Some entry ∧
    data entry = jane_profile ∧
    ∀ rt' w' debug',
      Date_now w' AtLookup - cached_at entry < CACHE_DURATION →
      let r' := GET rt' w' {| username_param := Some "jane"; debug_param := debug' |}
                  (cache_after r) in
      response r' = {| status := 200; body := Profile jane_profile |} ∧
      fetches (trace r') = [] ∧
      cache_after r' = cache_after r.
Proof.
  apply (GET_write_through bare_page jane_upstream "jane" None ∅ jane_profile);
    [discriminate | reflexivity].
Defined.

Lemma GET_cache_frame_witness :
  cache_after (GET bare_page refusing_upstream (ask "jane") stale_cache) !! "instagram-jane"
  = None.
Proof.
  destruct (GET_cache_frame bare_page refusing_upstream (ask "jane") stale_cache)
    as (_ & _ & H).
  apply (H eq_refl "jane" eq_refl).
Defined.

Lemma GET_failure_errors_witness :
  let r := GET bare_page refusing_upstream (ask "jane") ∅ in
  ∃ user error errors1 errors2 message3 message,
    username_param (ask "jane") = Some user ∧
    body (response r)
    = Failure error user
        (errors1 ++ errors2 ++ ["HTML scraping error: " +:+ message3]) message ∧
    (errors1 = [] ∨ ∃ message1, errors1 = ["GraphQL API error: " +:+ message1]) ∧
    (errors2 = [] ∨ ∃ message2, errors2 = ["Alternative API error: " +:+ message2]) ∧
    fetches (trace r) = [graphql_url user; alternative_url user; scraping_url user].
Proof.
  apply (GET_failure_errors bare_page refusing_upstream (ask "jane") ∅). reflexivity.
Defined.

Lemma GET_scraped_profile_named_witness :
  let r := GET inline_page page_only_upstream (ask "jane") ∅ in
  response r = {| status := 200; body := Profile jane_profile |} ∧
  fetches (trace r) = [graphql_url "jane"; alternative_url "jane"; scraping_url "jane"] ∧
  truthy (username jane_profile) = true.
Proof.
  split; [reflexivity|]. split; [reflexivity|].
  apply (GET_scraped_profile_named inline_page page_only_upstream "jane" None ∅ jane_profile);
    [discriminate | reflexivity | reflexivity].
Defined.

Lemma processUserData_typed_witness :
  ∃ d, processUserData two_posts 0 = Ok d ∧ is_InstagramUserData d = true.
Proof. apply (processUserData_typed two_posts 0). reflexivity. Defined.

Lemma processUserData_posts_in_order_witness :
  length (posts one_post_profile) = length (raw_edges one_post) ∧
  id <$> posts one_post_profile
  = (λ edge, prop (prop edge "node") "id") <$> raw_edges one_post ∧
  shortcode <$> posts one_post_profile
  = (λ edge, prop (prop edge "node") "shortcode") <$> raw_edges one_post.
Proof.
  apply (processUserData_posts_in_order one_post 1700000000999 one_post_profile).
  vm_compute. reflexivity.
Defined.

Lemma processUserData_clock_witness :
  processUserData stamped_post 0 = processUserData stamped_post 1700000000000.
Proof.
  apply (processUserData_clock stamped_post 0 1700000000000).
  repeat constructor.
Defined.

Lemma processUserData_bad_edge_witness :
  ∃ message,
    processUserData broken_edge 1700000000000 = Throw message ∧
    (method1 broken_edge_upstream false "jane").1 = Caught message.
Proof.
  apply (processUserData_bad_edge broken_edge_upstream false "jane"
           (VObj [("data", VObj [("user", broken_edge)])]) broken_edge
           [VObj [("node", VObj [("id", VStr "31"); ("shortcode", VStr "Cx")])];
            VObj [("cursor", VStr "abc")]]
           (VObj [("cursor", VStr "abc")]));
    [reflexivity | reflexivity | reflexivity | | right; reflexivity].
  apply elem_of_cons; right. apply elem_of_cons; left. reflexivity.
Defined.

Lemma findUserData_deeper_finds_less_witness : findUserData nested 3 = None.
Proof. apply (findUserData_deeper_finds_less nested 0 3); [lia | reflexivity]. Defined.

Lemma tier1_first_probe_wins_witness :
  (tier1 inline_page "<html></html>" false dataRegexes).1 = jane ∧
  (extractInstagramData inline_page (VStr "<html></html>") false 0).1 = Ok jane_profile.
Proof.
  destruct (tier1_first_probe_wins inline_page "<html></html>" false
              [SharedData; AdditionalDataLoaded; ServerJS] [PreloadedState] InlineUser
              (Some "USER") None "USER" (VObj [("user", jane)]) jane) as [Hloop Hall];
    try reflexivity.
  - constructor; [exact I|]. constructor; [exact I|].
    constructor; [|constructor]. right. exists "SERVER". split; reflexivity.
  - split; [exact Hloop | exact (Hall eq_refl 0)].
Defined.

Lemma tier2_statistics_witness :
  ∃ d, tier2 ld_page "<html></html>" = Ok d ∧
       followersCount d = VNum 1000 ∧ postsCount d = VNum 0.
Proof.
  pose proof (tier2_statistics ld_page "<html></html>") as H. cbv zeta in H.
  destruct H as (_ & H & _).
  destruct (H eq_refl [VObj [("name", VStr "Followers"); ("userInteractionCount", VNum 1000)]]
              eq_refl) as (d & Hd & Hposts & Hfollowers & _); [repeat constructor|].
  exists d. split; [exact Hd|]. split; [exact Hfollowers | exact Hposts].
Defined.

Lemma JsonLdPerson_extract_witness :
  ∃ text json handle,
    Some text ∈ ld_json_scripts person_page "<html></html>" ∧
    JSON_parse person_page text = Some json ∧
    prop json "@type" = VStr "Person" ∧
    prop json "alternateName" = VStr handle ∧
    username jane_person = VStr (JsonLdPerson.remove_first_at handle) ∧
    count_char "@" (JsonLdPerson.remove_first_at handle) = Nat.pred (count_char "@" handle) ∧
    (∀ rest, handle = String "@" rest → username jane_person = VStr rest) ∧
    posts jane_person = [] ∧
    postsCount jane_person = VNum 0 ∧ followersCount jane_person = VNum 0 ∧
    followingCount jane_person = VNum 0.
Proof. apply (JsonLdPerson_extract person_page "<html></html>" jane_person). reflexivity. Defined.

Lemma SingleEndpoint_GET_cache_witness :
  let run := SingleEndpoint.GET jane_upstream (ask " jane ") ∅ in
  (∃ rec,
     status (response run) = 200 ∧
     cache_after run !! "ig-jane" = Some rec ∧
     body (response run) = Profile (data rec) ∧
     ∀ w', Date_now w' AtLookup - cached_at rec < CACHE_DURATION →
           let again := SingleEndpoint.GET w' (ask " jane ") (cache_after run) in
           response again = response run ∧
           cache_after again = cache_after run ∧
           fetches (trace again) = [])
  ∨ (status (response run) = 500 ∧
     cache_after run !! "ig-jane" = None ∧
     fetches (trace run) = [SingleEndpoint.profile_url "jane"] ∧
     ∃ message,
       body (response run) = ErrorMessage "Failed to fetch Instagram data" message).
Proof.
  refine (proj2 (SingleEndpoint_GET_cache jane_upstream (ask " jane ") ∅ " jane " eq_refl _)).
  discriminate.
Defined.

Lemma fetchInstagramData_through_GET_witness :
  fetchInstagramData (route_fetch bare_page jane_upstream (ask "jane") ∅) "jane" false
  = (Ok (wire (object_of_profile jane_profile)), []) ∧
  (fetchInstagramData (route_fetch bare_page refusing_upstream (ask EmptyString) ∅)
     EmptyString false).1
  = Throw "Failed with status: 400".
Proof.
  split.
  - exact (fetchInstagramData_through_GET bare_page jane_upstream (ask "jane") ∅
             (route_fetch bare_page jane_upstream (ask "jane") ∅) "jane" false eq_refl).
  - pose proof (fetchInstagramData_through_GET bare_page refusing_upstream
                  (ask EmptyString) ∅
                  (route_fetch bare_page refusing_upstream (ask EmptyString) ∅)
                  EmptyString false eq_refl) as H.
    change (400 = 400 ∧
            fetchInstagramData (route_fetch bare_page refusing_upstream (ask EmptyString) ∅)
              EmptyString false
            = (Throw "Failed with status: 400",
               [Log "Error fetching Instagram data: Failed with status: 400"])) in H.
    destruct H as [_ H]. rewrite H. reflexivity.
Defined.

Lemma clients_rate_limited_witness :
  fetchInstagramData limited_fetch "jane" true
  = (Throw "Please try again later",
     [Log "Error fetching Instagram data: Please try again later"]) ∧
  feed_errorDetails (fetchData limited_fetch jane_feed feed_initial)
  = Some "Please try again later" ∧
  feed_posts (fetchData limited_fetch jane_feed feed_initial) = [].
Proof.
  apply (clients_rate_limited 1000 RateLimiter.local_request (RateLimiter.cooling_cache 3)
           429 "Too many requests" "Please try again later" limited_fetch jane_feed
           feed_initial); reflexivity.
Defined.

Lemma InstagramFeed_through_GET_witness :
  render jane_feed
    (feed_effect (route_fetch bare_page refusing_upstream (ask "jane") ∅) jane_feed
       feed_initial)
  = ErrorBox "Failed to load Instagram feed. Please try again later."
      (Some "Instagram data extraction failed. The user profile might be private, not exist, or Instagram may have updated their API.").
Proof.
  refine (InstagramFeed_through_GET bare_page refusing_upstream (ask "jane") ∅
            (route_fetch bare_page refusing_upstream (ask "jane") ∅) jane_feed feed_initial
            _ eq_refl).
  discriminate.
Defined.

Lemma InstagramFeed_shown_witness :
  render {| feed_username := EmptyString; feed_postCount := 6; feed_debug := false |}
    (feed_effect limited_fetch
       {| feed_username := EmptyString; feed_postCount := 6; feed_debug := false |}
       feed_initial)
  = Spinner.
Proof.
  apply (InstagramFeed_shown limited_fetch
           {| feed_username := EmptyString; feed_postCount := 6; feed_debug := false |}).
  reflexivity.
Defined.
